(** * Pensieve: the reflection pipeline's numeric and policy rules

    A shallow embedding of the routines given in [docs/ml-pipeline.md]
    ([constrain_confidence], [detect_trend], [is_cyclical],
    [calculate_certainty]), of the registration page's submit handler
    and of the constraints of [schemas/schema.sql], together with the
    eligibility, rate-limit, retrieval and persistence rules of the
    reflection synthesizer.  The later modules embed the rest of the
    client: the API client and the state stores ([lib/api],
    [lib/store]), the handlers of the Journal, Reflections and Patterns
    pages and of the navigation bar, and the foreign keys of the
    schema.

    Python floats are modelled in two ways.  Where a routine only
    compares, adds, multiplies and divides, its floats are taken as
    exact rationals ([Q]): every constant of the code (0.80, 0.90,
    0.95, 0.5, 0.05, 0.01) is a decimal fraction, so thresholds and
    comparisons are those of the code up to binary rounding, and there
    is no NaN.  The confidence constraint is also modelled on binary64
    floats ([F64]), with round-to-nearest-even, the infinities and NaN,
    and the two readings are related. *)

From stdpp Require Import gmap.
From Stdlib Require Import ZArith QArith Qabs Qpower Qround Qminmax Lqa.
From Stdlib Require Import List String Ascii Bool Lia.
Import ListNotations.

Local Open Scope Q_scope.

(** ** Rational helpers *)

Module Num.

(** [a < b] and [a > b] on floats, as booleans. *)
Definition Qltb (a b : Q) : bool :=
  match Qcompare a b with Lt => true | _ => false end.

Definition Qgtb (a b : Q) : bool := Qltb b a.

(** Python's two-argument [min(a, b)]: the first argument is kept
    unless the second is strictly smaller. *)
Definition py_min (a b : Q) : Q := if Qltb b a then b else a.

(** Rounding to the nearest integer, ties to the even one: the rule
    behind Python's [round]. *)
Definition round_half_even (q : Q) : Z :=
  let f := Qfloor q in
  match Qcompare (q - inject_Z f) (1 # 2) with
  | Lt => f
  | Gt => (f + 1)%Z
  | Eq => if Z.even f then f else (f + 1)%Z
  end.

(** Python's [round(x, ndigits)] for [ndigits >= 0]. *)
Definition py_round (x : Q) (ndigits : nat) : Q :=
  let m := inject_Z (10 ^ Z.of_nat ndigits) in
  inject_Z (round_half_even (x * m)) / m.

(** Sum of a list of floats ([sum], [np.sum]). *)
Definition Qsum (l : list Q) : Q := fold_right Qplus 0 l.

End Num.

Import Num.

(** ** Confidence constraints ([docs/ml-pipeline.md], "Confidence Constraints") *)

Definition MAX_CONFIDENCE : Q := 80 # 100.

(** [constrain_confidence] read on real numbers; the same code on
    floats is [F64.constrain_confidence] below. *)
Definition constrain_confidence (raw_confidence : Q) : Q :=
  let capped := py_min raw_confidence MAX_CONFIDENCE in
  let capped :=
    if Qgtb raw_confidence (90 # 100) then capped * (95 # 100) else capped in
  py_round capped 2.

(** [schemas/schema.sql], table [reflections]:
    [confidence_score FLOAT NOT NULL CHECK (confidence_score <= 0.80)]. *)
Definition reflections_confidence_check (confidence_score : Q) : bool :=
  Qle_bool confidence_score (80 # 100).

(** ** Python floats ([docs/ml-pipeline.md] runs on IEEE 754 binary64) *)

Module F64.

(** A Python [float]: a finite number, carried as the rational number
    it stands for, an infinity, or NaN.  The finite floats are the
    values of [rne]; the two zeros are not told apart, which no
    comparison of the code does either. *)
Inductive float :=
| Finite (q : Q)
| PosInf
| NegInf
| NaN.

(** [floor (log2 |q|)] for [q <> 0]. *)
Definition ilog2 (q : Q) : Z :=
  let l := (Z.log2 (Z.abs (Qnum q)) - Z.log2 (Zpos (Qden q)))%Z in
  if Qle_bool (2 ^ l) (Qabs q) then l else (l - 1)%Z.

(** Rounding of a real number to binary64, to nearest, ties to even:
    53 significant bits, the smallest positive value [2 ^ -1074], and
    an infinity when the rounded magnitude reaches [2 ^ 1024].  This is
    what a decimal literal denotes and what an arithmetic operation
    returns. *)
Definition rne (q : Q) : float :=
  if Qeq_bool q 0 then Finite 0
  else
    let e := Z.max (ilog2 q - 52) (-1074) in
    let m := round_half_even (q / 2 ^ e) in
    let v := inject_Z m * 2 ^ e in
    if Qle_bool (2 ^ 1024) (Qabs v) then (if (0 <? m)%Z then PosInf else NegInf)
    else Finite (Qred v).

(** [a < b]: false as soon as one side is NaN. *)
Definition lt (a b : float) : bool :=
  match a, b with
  | NaN, _ | _, NaN => false
  | Finite p, Finite q => Qltb p q
  | _, NegInf => false
  | NegInf, _ => true
  | PosInf, _ => false
  | Finite _, PosInf => true
  end.

(** [a > b]. *)
Definition gt (a b : float) : bool := lt b a.

(** [a <= b]. *)
Definition le (a b : float) : bool :=
  match a, b with
  | NaN, _ | _, NaN => false
  | _, _ => negb (lt b a)
  end.

(** Python's two-argument [min(a, b)]: the first argument is kept
    unless the second is strictly smaller, so a NaN in first place is
    returned. *)
Definition py_min (a b : float) : float := if lt b a then b else a.

Definition sign (a : float) : Z :=
  match a with
  | Finite q => Z.sgn (Qnum q)
  | PosInf => 1
  | NegInf => -1
  | NaN => 0
  end.

(** [a * b]. *)
Definition mul (a b : float) : float :=
  match a, b with
  | NaN, _ | _, NaN => NaN
  | Finite p, Finite q => rne (p * q)
  | _, _ =>
      match (sign a * sign b)%Z with
      | Z0 => NaN
      | Zpos _ => PosInf
      | Zneg _ => NegInf
      end
  end.

(** [round(x, ndigits)] for [ndigits >= 0]: CPython rounds the exact
    value of [x] to [ndigits] decimals, ties to even, and returns the
    float nearest to that decimal; an infinity or NaN is returned as it
    is. *)
Definition py_round (x : float) (ndigits : nat) : float :=
  match x with
  | Finite q => rne (Num.py_round q ndigits)
  | _ => x
  end.

(** [MAX_CONFIDENCE = 0.80]. *)
Definition MAX_CONFIDENCE : float := rne (80 # 100).

(** [constrain_confidence] on floats, as Python runs it. *)
Definition constrain_confidence (raw_confidence : float) : float :=
  let capped := py_min raw_confidence MAX_CONFIDENCE in
  let capped :=
    if gt raw_confidence (rne (90 # 100)) then mul capped (rne (95 # 100))
    else capped in
  py_round capped 2.

(** [schemas/schema.sql], table [reflections]:
    [confidence_score FLOAT NOT NULL CHECK (confidence_score <= 0.80)],
    a comparison of [float8] values, for which PostgreSQL puts NaN
    above every number. *)
Definition reflections_confidence_check (confidence_score : float) : bool :=
  match confidence_score with
  | NaN => false
  | _ => le confidence_score (rne (80 # 100))
  end.

End F64.

(** ** Temporal pattern tracker ([docs/ml-pipeline.md], "Trend Detection") *)

Module Trend.

Inductive Direction :=
| increasing | decreasing | stable | cyclical | insufficient_data.

(** [np.mean], on a non-empty list. *)
Definition mean (l : list Q) : Q := Qsum l / inject_Z (Z.of_nat (List.length l)).

(** [np.arange(n)]. *)
Definition arange (n : nat) : list Q :=
  map (fun i => inject_Z (Z.of_nat i)) (seq 0 n).

(** [a[i]] for a possibly negative or too large index of the sliding
    window of [np.correlate]: positions outside the array count as zero. *)
Definition at_or_zero (a : list Q) (i : Z) : Q :=
  if (i <? 0)%Z then 0 else nth (Z.to_nat i) a 0.

(** [np.correlate(a, v, mode='full')]: entry [j] is the sum over [i] of
    [a[i + j - (len(v) - 1)] * v[i]]; there are [len(a) + len(v) - 1]
    entries. *)
Definition correlate_full (a v : list Q) : list Q :=
  let n := List.length v in
  map (fun j =>
         Qsum (map (fun i =>
                      at_or_zero a (Z.of_nat i + Z.of_nat j - (Z.of_nat n - 1))
                      * nth i v 0)
                   (seq 0 n)))
      (seq 0 (List.length a + n - 1)).

(** The optional [min_periods] argument is never read by the source
    and is left out.  For a constant series [autocorr[0]] is 0: numpy
    yields NaN, the rational quotient is 0, and either way the test
    [> 0.5] fails. *)
Definition is_cyclical (values : list Q) : bool :=
  if (List.length values <? 14)%nat then false
  else
    let centered := map (fun v => v - mean values) values in
    let autocorr := correlate_full centered centered in
    let autocorr := skipn (Nat.div (List.length autocorr) 2) autocorr in
    let autocorr := map (fun c => c / nth 0 autocorr 0) autocorr in
    let weekly_lag := 7%nat in
    if (weekly_lag <? List.length autocorr)%nat && Qgtb (nth weekly_lag autocorr 0) (5 # 10)
    then true
    else false.

(** The part of [scipy.stats.linregress] that is rational: the slope
    and the square of the correlation coefficient, from the biased
    covariances of [x] and [y] ([r] is taken as 0 when either variance
    is 0, as scipy does). *)
Definition covariance (x y : list Q) : Q :=
  let mx := mean x in
  let my := mean y in
  mean (map (fun xy => (fst xy - mx) * (snd xy - my)) (combine x y)).

Definition linregress_slope (x y : list Q) : Q :=
  covariance x y / covariance x x.

Definition linregress_r_squared (x y : list Q) : Q :=
  let ssxm := covariance x x in
  let ssym := covariance y y in
  if Qeq_bool ssxm 0 || Qeq_bool ssym 0 then 0
  else (covariance x y * covariance x y) / (ssxm * ssym).

Section DetectTrend.

(** The two-sided p-value that [scipy.stats.linregress] computes from
    the t distribution; it is not a rational function and is kept
    abstract. *)
Variable linregress_p_value : list Q -> list Q -> Q.

(** [dates] is accepted and not used, as in the source. *)
Definition detect_trend (values : list Q) (dates : list Z)
  : Direction * Q * Q :=
  if (List.length values <? 7)%nat then (insufficient_data, 0, 0)
  else
    let x := arange (List.length values) in
    let slope := linregress_slope x values in
    let r_squared := linregress_r_squared x values in
    let p_value := linregress_p_value x values in
    if is_cyclical values then (cyclical, slope, r_squared)
    else if Qgtb p_value (5 # 100) then (stable, slope, r_squared)
    else if Qgtb slope (1 # 100) then (increasing, slope, r_squared)
    else if Qltb slope (- (1 # 100)) then (decreasing, slope, r_squared)
    else (stable, slope, r_squared).

End DetectTrend.

Definition direction_of (r : Direction * Q * Q) : Direction := fst (fst r).
Definition slope_of (r : Direction * Q * Q) : Q := snd (fst r).
Definition r_squared_of (r : Direction * Q * Q) : Q := snd r.

(** The 14-point alternating series of the scenario. *)
Definition alternating_series : list Q :=
  [5#10; 1#10; 5#10; 1#10; 5#10; 1#10; 5#10;
   1#10; 5#10; 1#10; 5#10; 1#10; 5#10; 1#10].

(** Normalised autocorrelation at a lag, as [is_cyclical] computes it. *)
Definition normalized_autocorr (values : list Q) (lag : nat) : Q :=
  let centered := map (fun v => v - mean values) values in
  let autocorr := correlate_full centered centered in
  let autocorr := skipn (Nat.div (List.length autocorr) 2) autocorr in
  nth lag (map (fun c => c / nth 0 autocorr 0) autocorr) 0.

End Trend.

(** ** Linguistic analyzer ([docs/ml-pipeline.md], "Certainty Scoring") *)

Module Certainty.

Definition HEDGING_WORDS : list string :=
  [ "might"; "maybe"; "perhaps"; "possibly"; "probably";
    "could"; "would"; "should"; "seem"; "appear";
    "guess"; "think"; "believe"; "feel"; "suppose" ]%string.

Definition CERTAINTY_WORDS : list string :=
  [ "definitely"; "certainly"; "absolutely"; "always"; "never";
    "must"; "will"; "know"; "sure"; "certain" ]%string.

(** A text is a sequence of code points below 256. *)

(** [str.lower] on one code point: A-Z and the upper-case letters of
    Latin-1 move up by 32. *)
Definition lower_char (c : ascii) : ascii :=
  let n := nat_of_ascii c in
  if ((65 <=? n) && (n <=? 90)
      || (192 <=? n) && (n <=? 222) && negb (n =? 215))%nat
  then ascii_of_nat (n + 32)
  else c.

Fixpoint lower (s : string) : string :=
  match s with
  | EmptyString => EmptyString
  | String c s' => String (lower_char c) (lower s')
  end.

(** The separators of [str.split()] without argument. *)
Definition is_space (c : ascii) : bool :=
  let n := nat_of_ascii c in
  ((9 <=? n) && (n <=? 13) || (28 <=? n) && (n <=? 32)
   || (n =? 133) || (n =? 160))%nat.

Definition flush (cur : string) (words : list string) : list string :=
  match cur with
  | EmptyString => words
  | _ => words ++ [cur]
  end.

Fixpoint split_from (s cur : string) (words : list string) : list string :=
  match s with
  | EmptyString => flush cur words
  | String c s' =>
      if is_space c then split_from s' EmptyString (flush cur words)
      else split_from s' (cur ++ String c EmptyString)%string words
  end.

(** [text.split()]. *)
Definition split (s : string) : list string := split_from s EmptyString [].

(** [w in LEXICON]. *)
Definition member (w : string) (lexicon : list string) : bool :=
  existsb (String.eqb w) lexicon.

(** [sum(1 for w in words if w in LEXICON)]. *)
Definition count_in (lexicon words : list string) : nat :=
  List.length (filter (fun w => member w lexicon) words).

(** [a / b] on Python integers: [None] stands for [ZeroDivisionError]. *)
Definition py_truediv (a b : nat) : option Q :=
  match b with
  | O => None
  | S _ => Some (Z.of_nat a # Pos.of_nat b)
  end.

Definition calculate_certainty (text : string) : option Q :=
  let words := split (lower text) in
  let hedging := count_in HEDGING_WORDS words in
  let certain := count_in CERTAINTY_WORDS words in
  let total := (hedging + certain)%nat in
  if (total =? 0)%nat then Some (5 # 10)
  else py_truediv certain total.

End Certainty.

(** ** Registration page (the [RegisterPage] component) *)

Module Register.

(** A JavaScript string: its UTF-16 code units. *)
Definition jsstring := list N.

Definition js (s : string) : jsstring :=
  map N_of_ascii (list_ascii_of_string s).

Definition jsstring_eqb (a b : jsstring) : bool :=
  if list_eq_dec N.eq_dec a b then true else false.

(** The component's state ([useState] cells). *)
Record State := {
  email : jsstring;
  password : jsstring;
  confirmPassword : jsstring;
  showPassword : bool;
  isLoading : bool;
  error : jsstring
}.

(** [/[lo-hi]/.test(s)]: some code unit of [s] lies in the class. *)
Definition test_class (lo hi : N) (s : jsstring) : bool :=
  existsb (fun c => (lo <=? c)%N && (c <=? hi)%N) s.

Record PasswordChecks := {
  length_check : bool;
  lowercase : bool;
  uppercase : bool;
  number : bool;
  match_check : bool
}.

Definition passwordChecks (st : State) : PasswordChecks :=
  {| length_check := (8 <=? List.length (password st))%nat;
     lowercase := test_class 97 122 (password st);
     uppercase := test_class 65 90 (password st);
     number := test_class 48 57 (password st);
     match_check := jsstring_eqb (password st) (confirmPassword st)
                    && (0 <? List.length (confirmPassword st))%nat |}.

(** [Object.values(passwordChecks).every(Boolean)]. *)
Definition isPasswordValid (st : State) : bool :=
  let c := passwordChecks st in
  forallb (fun b => b)
    [length_check c; lowercase c; uppercase c; number c; match_check c].

(** What the handler does to the outside world, in order. *)
Inductive Effect :=
| PreventDefault
| ApiRegister (email password : jsstring)
| ApiLogin (email password : jsstring)
| RouterPush (path : jsstring).

(** A call of the API client resolves, or rejects with an error object
    whose [detail] may be missing. *)
Inductive ApiResult :=
| Resolved
| Thrown (detail : option jsstring).

Definition set_error (msg : jsstring) (st : State) : State :=
  {| email := email st; password := password st;
     confirmPassword := confirmPassword st; showPassword := showPassword st;
     isLoading := isLoading st; error := msg |}.

Definition set_isLoading (b : bool) (st : State) : State :=
  {| email := email st; password := password st;
     confirmPassword := confirmPassword st; showPassword := showPassword st;
     isLoading := b; error := error st |}.

(** [err.detail || 'Failed to create account. Please try again.']: a
    missing or empty [detail] is falsy. *)
Definition error_message (detail : option jsstring) : jsstring :=
  match detail with
  | Some (c :: d) => c :: d
  | _ => js "Failed to create account. Please try again."
  end.

Section Handler.

(** The server's answers to the two calls. *)
Variable register_result : jsstring -> jsstring -> ApiResult.
Variable login_result : jsstring -> jsstring -> ApiResult.

Definition handleSubmit (st : State) : State * list Effect :=
  let fx := [PreventDefault] in
  let st1 := set_error (js "") st in
  if negb (isPasswordValid st) then
    (set_error (js "Please meet all password requirements") st1, fx)
  else
    let st2 := set_isLoading true st1 in
    let fx := fx ++ [ApiRegister (email st) (password st)] in
    match register_result (email st) (password st) with
    | Thrown detail =>
        (set_isLoading false (set_error (error_message detail) st2), fx)
    | Resolved =>
        let fx := fx ++ [ApiLogin (email st) (password st)] in
        match login_result (email st) (password st) with
        | Thrown detail =>
            (set_isLoading false (set_error (error_message detail) st2), fx)
        | Resolved =>
            (set_isLoading false st2, fx ++ [RouterPush (js "/")])
        end
    end.

End Handler.

Definition is_api_call (e : Effect) : bool :=
  match e with
  | ApiRegister _ _ | ApiLogin _ _ => true
  | _ => false
  end.

(** The five requirements, as the page lists them. *)
Definition meets_requirements (pw confirm : jsstring) : Prop :=
  (8 <= List.length pw)%nat
  /\ (exists c, In c pw /\ (97 <= c <= 122)%N)
  /\ (exists c, In c pw /\ (65 <= c <= 90)%N)
  /\ (exists c, In c pw /\ (48 <= c <= 57)%N)
  /\ confirm <> [] /\ confirm = pw.

End Register.

(** ** Database constraints ([schemas/schema.sql]) *)

Module Schema.

(** [array_length(entry_ids, 1)]: NULL for an empty array. *)
Definition array_length (entry_ids : list N) : option nat :=
  match entry_ids with
  | [] => None
  | _ => Some (List.length entry_ids)
  end.

(** [CONSTRAINT min_entries CHECK (array_length(entry_ids, 1) >= 3)]:
    a CHECK rejects a row only when its condition is false, so a NULL
    condition passes. *)
Definition min_entries_check (entry_ids : list N) : bool :=
  match array_length entry_ids with
  | None => true
  | Some n => (3 <=? n)%nat
  end.

End Schema.

(** ** Reflection synthesis *)

Module Synth.

(** Modelled from the spec: the entities of its data model (section 3)
    and the rejection reasons of its error taxonomy (section 7).  The
    fields follow the [reflections], [concepts] and [audit_log] tables
    of [schemas/schema.sql] where the tables have them.  Identifiers
    are numbers, timestamps are seconds, embeddings are rational
    vectors. *)
Inductive RejectionReason :=
| insufficient_evidence | rate_limited | no_grounding | policy_violation.

Inductive Category := psychology | philosophy | research.

Definition Category_eqb (a b : Category) : bool :=
  match a, b with
  | psychology, psychology | philosophy, philosophy | research, research => true
  | _, _ => false
  end.

Record Concept := {
  c_id : N;
  c_name : string;
  c_category : Category;
  c_citation : string;
  c_embedding : list Q
}.

(** What one analysis run has collected for its user and window. *)
Record Candidate := {
  entry_ids : list N;
  span_days : nat;
  raw_confidence : Q;
  query_embedding : list Q;
  category_filter : option Category
}.

Record Reflection := {
  r_user : N;
  r_content : string;
  r_entry_ids : list N;
  r_concepts_used : list (N * Q);
  r_confidence_score : Q;
  r_created_at : Z;
  r_dismissed_at : option Z
}.

Record AuditTrace := {
  a_generation_params : list (string * Q);
  a_reasoning_steps : list string;
  a_model_versions : list (string * string)
}.

(** The persisted reflections and audit traces, both keyed by
    reflection id. *)
Record Store := {
  reflections : gmap N Reflection;
  audit_traces : gmap N AuditTrace
}.

(** *** Policy engine *)

(** Modelled from the spec: the eligibility rule of the Policy Engine
    (section 4.4, step 1: at least 3 contributing entries spanning at
    least 7 days); the backend that evaluates it is not among the
    sources. *)
Definition eligible (c : Candidate) : bool :=
  (3 <=? List.length (entry_ids c))%nat && (7 <=? span_days c)%nat.

(** The rolling window is 7 days long, in seconds. *)
Definition WINDOW : Z := 7 * 86400.
Definition MAX_ACCEPTED : nat := 2.

(** Reflection [r] belongs to user [u] and was created in [(lo, hi]]. *)
Definition in_window (u : N) (lo hi : Z) (r : Reflection) : bool :=
  (r_user r =? u)%N && (lo <? r_created_at r)%Z && (r_created_at r <=? hi)%Z.

(** The accepted reflections of user [u] created in [(lo, hi]];
    [r_dismissed_at] is not looked at. *)
Definition accepted_in (u : N) (lo hi : Z) (m : gmap N Reflection) : nat :=
  size (base.filter (fun kv : N * Reflection => in_window u lo hi (snd kv) = true) m).

(** Modelled from the spec: the rate-limit rule of the Policy Engine
    (section 4.4, step 2: at most 2 accepted reflections per rolling
    7-day window per user); the backend that evaluates it is not among
    the sources. *)
Definition rate_limit_ok (u : N) (now : Z) (m : gmap N Reflection) : bool :=
  (accepted_in u (now - WINDOW) now m <? MAX_ACCEPTED)%nat.

Inductive PolicyResult :=
| Accept (final_confidence : Q)
| Reject (reason : RejectionReason).

Section Pipeline.

(** Cosine similarity of two embeddings, the similarity floor, the
    fixed concept corpus and the number of concepts asked for. *)
Variable similarity : list Q -> list Q -> Q.
Variable min_similarity : Q.
Variable corpus : list Concept.
Variable top_k : nat.

(** The language-form check of generated prose, the template that
    composes it, and the audit trace written for a run. *)
Variable language_ok : string -> bool.
Variable compose : Candidate -> list (N * Q) -> string.
Variable trace_of : Candidate -> list (N * Q) -> Q -> AuditTrace.

(** Modelled from the spec: steps 2 to 4 of the Policy Engine (section
    4.4), in the order given there; step 3 is [constrain_confidence]. *)
Definition policy_steps_2_4 (u : N) (now : Z) (history : gmap N Reflection)
    (c : Candidate) (content : string) : PolicyResult :=
  if negb (rate_limit_ok u now history) then Reject rate_limited
  else
    let final_confidence := constrain_confidence (raw_confidence c) in
    if negb (language_ok content) then Reject policy_violation
    else Accept final_confidence.

(** Modelled from the spec: the whole Policy Engine on a candidate. *)
Definition policy_evaluate (u : N) (now : Z) (history : gmap N Reflection)
    (c : Candidate) (content : string) : PolicyResult :=
  if negb (eligible c) then Reject insufficient_evidence
  else policy_steps_2_4 u now history c content.

(** *** Concept retriever *)

Definition matches_filter (f : option Category) (c : Concept) : bool :=
  match f with
  | None => true
  | Some cat => Category_eqb (c_category c) cat
  end.

Definition clears_floor (sc : N * Q) : bool := Qle_bool min_similarity (snd sc).

(** Descending by score; a new element goes before the first element
    that does not beat it, so equal scores keep corpus order. *)
Fixpoint insert_desc (x : N * Q) (l : list (N * Q)) : list (N * Q) :=
  match l with
  | [] => [x]
  | y :: t => if Qle_bool (snd y) (snd x) then x :: y :: t
              else y :: insert_desc x t
  end.

Definition sort_desc (l : list (N * Q)) : list (N * Q) :=
  fold_right insert_desc [] l.

Fixpoint dedup_by_id (l : list (N * Q)) : list (N * Q) :=
  match l with
  | [] => []
  | x :: t => x :: filter (fun y => negb (fst y =? fst x)%N) (dedup_by_id t)
  end.

(** Modelled from the spec: the Concept Retriever (section 4.3):
    similarity search over the corpus, concepts below the floor
    dropped, best first, ties in corpus order, one result per concept
    id, at most [top_k] results.  The retriever is not among the
    sources. *)
Definition retrieve (query : list Q) (category : option Category)
  : list (N * Q) :=
  let scored :=
    map (fun c => (c_id c, similarity query (c_embedding c)))
        (filter (matches_filter category) corpus) in
  firstn top_k (dedup_by_id (sort_desc (filter clears_floor scored))).

(** *** Synthesizer *)

Inductive Phase :=
| Collecting
| Eligible
| Ineligible
| Retrieving
| Composing (concepts : list (N * Q))
| PolicyChecked (content : string) (concepts : list (N * Q))
| Emitted (id : N)
| Rejected (reason : RejectionReason).

Record Run := { run_input : Candidate; run_phase : Phase }.

Definition persist (id : N) (r : Reflection) (a : AuditTrace) (s : Store) : Store :=
  {| reflections := <[id := r]> (reflections s);
     audit_traces := <[id := a]> (audit_traces s) |}.

(** Modelled from the spec: one transition of the per-run state
    machine of the Reflection Synthesizer (section 4.5).  Only the
    transition into [Emitted] writes, and it writes the reflection and
    its audit trace together. *)
Definition step (u : N) (now : Z) (s : Store) (r : Run) : Store * Run :=
  let c := run_input r in
  let goto p := (s, {| run_input := c; run_phase := p |}) in
  match run_phase r with
  | Collecting => if eligible c then goto Eligible else goto Ineligible
  | Eligible => goto Retrieving
  | Retrieving =>
      match retrieve (query_embedding c) (category_filter c) with
      | [] => goto (Rejected no_grounding)
      | concepts => goto (Composing concepts)
      end
  | Composing concepts => goto (PolicyChecked (compose c concepts) concepts)
  | PolicyChecked content concepts =>
      match policy_steps_2_4 u now (reflections s) c content with
      | Reject reason => goto (Rejected reason)
      | Accept final_confidence =>
          let id := fresh (dom (reflections s) ∪ dom (audit_traces s)) in
          let reflection :=
            {| r_user := u; r_content := content; r_entry_ids := entry_ids c;
               r_concepts_used := concepts;
               r_confidence_score := final_confidence;
               r_created_at := now; r_dismissed_at := None |} in
          (persist id reflection (trace_of c concepts final_confidence) s,
           {| run_input := c; run_phase := Emitted id |})
      end
  | Ineligible | Emitted _ | Rejected _ => (s, r)
  end.

Definition terminal (p : Phase) : bool :=
  match p with
  | Ineligible | Emitted _ | Rejected _ => true
  | _ => false
  end.

(** The whole service: the persisted store, the clock, and at most one
    run in flight per user. *)
Record System := {
  store : Store;
  clock : Z;
  runs : gmap N Run
}.

Inductive Event :=
| Start (u : N) (c : Candidate)
| Advance (u : N)
| Cancel (u : N)
| Dismiss (u : N) (id : N)
| Tick (seconds : N).

(** Modelled from the spec: [dismissReflection] (sections 4.5 and 6).
    It stamps [dismissed_at] on a reflection the caller owns and that
    is not yet dismissed; nothing is deleted, and an unknown or foreign
    id changes nothing. *)
Definition dismiss (u id : N) (now : Z) (s : Store) : Store :=
  match reflections s !! id with
  | Some r =>
      if (r_user r =? u)%N && negb (bool_decide (is_Some (r_dismissed_at r))) then
        {| reflections :=
             <[id := {| r_user := r_user r; r_content := r_content r;
                        r_entry_ids := r_entry_ids r;
                        r_concepts_used := r_concepts_used r;
                        r_confidence_score := r_confidence_score r;
                        r_created_at := r_created_at r;
                        r_dismissed_at := Some now |}]> (reflections s);
           audit_traces := audit_traces s |}
      else s
  | None => s
  end.

(** Modelled from the spec: how the service reacts to an event.  A new
    run starts only when the user has none in flight; a cancelled run
    is dropped from memory. *)
Definition apply_event (sys : System) (e : Event) : System :=
  match e with
  | Start u c =>
      match runs sys !! u with
      | Some r =>
          if terminal (run_phase r) then
            {| store := store sys; clock := clock sys;
               runs := <[u := {| run_input := c; run_phase := Collecting |}]> (runs sys) |}
          else sys
      | None =>
          {| store := store sys; clock := clock sys;
             runs := <[u := {| run_input := c; run_phase := Collecting |}]> (runs sys) |}
      end
  | Advance u =>
      match runs sys !! u with
      | Some r =>
          let '(s', r') := step u (clock sys) (store sys) r in
          {| store := s'; clock := clock sys; runs := <[u := r']> (runs sys) |}
      | None => sys
      end
  | Cancel u =>
      {| store := store sys; clock := clock sys; runs := delete u (runs sys) |}
  | Dismiss u id =>
      {| store := dismiss u id (clock sys) (store sys); clock := clock sys;
         runs := runs sys |}
  | Tick seconds =>
      {| store := store sys; clock := clock sys + Z.of_N seconds;
         runs := runs sys |}
  end.

Definition initial (t0 : Z) : System :=
  {| store := {| reflections := ∅; audit_traces := ∅ |};
     clock := t0; runs := ∅ |}.

Definition run_events (sys : System) (evs : list Event) : System :=
  fold_left apply_event evs sys.

Definition phase_of (sys : System) (u : N) : option Phase :=
  run_phase <$> (runs sys !! u).

End Pipeline.

(** What every reachable state of the service satisfies: reflections
    and audit traces are keyed by the same ids, nothing is stamped in
    the future, no user has more than [MAX_ACCEPTED] reflections in any
    window of length [WINDOW], and every stored confidence score is
    within the cap. *)
Definition consistent (sys : System) : Prop :=
  dom (reflections (store sys)) = dom (audit_traces (store sys))
  /\ (forall id r, reflections (store sys) !! id = Some r ->
                   (r_created_at r <= clock sys)%Z)
  /\ (forall u lo,
        (accepted_in u lo (lo + WINDOW) (reflections (store sys))
         <= MAX_ACCEPTED)%nat)
  /\ (forall id r, reflections (store sys) !! id = Some r ->
                   r_confidence_score r <= MAX_CONFIDENCE).

End Synth.

(** ** A concrete service, for examples *)

Module Scenario.

Import Synth.

(** Dot product; on unit vectors it is the cosine similarity. *)
Definition dot (a b : list Q) : Q :=
  Qsum (map (fun xy => fst xy * snd xy) (combine a b)).

Definition corpus : list Concept :=
  [ {| c_id := 1; c_name := "Intolerance of Uncertainty";
       c_category := psychology; c_citation := "Carleton et al. (2012)";
       c_embedding := [1; 0] |};
    {| c_id := 2; c_name := "Stoic Philosophy";
       c_category := philosophy; c_citation := "Marcus Aurelius";
       c_embedding := [3 # 5; 4 # 5] |} ].

Definition floor : Q := 7 # 10.

Definition language_ok (content : string) : bool := true.

Definition compose (c : Candidate) (concepts : list (N * Q)) : string :=
  "This pattern may suggest a recurring theme."%string.

Definition trace_of (c : Candidate) (concepts : list (N * Q)) (conf : Q)
  : AuditTrace :=
  {| a_generation_params := [("confidence"%string, conf)];
     a_reasoning_steps := ["eligibility"; "retrieval"; "composition"; "policy"]%string;
     a_model_versions := [("temporal", "temporal-v1.0.0")]%string |}.

Definition service (sys : System) (evs : list Event) : System :=
  run_events dot floor corpus 3 language_ok compose trace_of sys evs.

(** A candidate whose query is close to the first concept, and one
    whose query is orthogonal to the whole corpus. *)
Definition grounded : Candidate :=
  {| entry_ids := [1; 2; 3]%N; span_days := 7; raw_confidence := 95 # 100;
     query_embedding := [1; 0]; category_filter := None |}.

Definition ungrounded : Candidate :=
  {| entry_ids := [1; 2; 3]%N; span_days := 7; raw_confidence := 95 # 100;
     query_embedding := [4 # 5; - (3 # 5)]; category_filter := Some philosophy |}.

(** A whole run of user [u]: started and advanced five times. *)
Definition full_run (u : N) (c : Candidate) : list Event :=
  Start u c :: repeat (Advance u) 5.

Definition retrieving (u : N) (c : Candidate) : System :=
  {| store := {| reflections := ∅; audit_traces := ∅ |};
     clock := 0;
     runs := {[ u := {| run_input := c; run_phase := Retrieving |} ]} |}.

End Scenario.

(** ** JavaScript values *)

Module Js.

(** A value produced by [JSON.parse] (numbers are rationals; an
    object lists its fields, keys distinct). *)
#[local] Unset Elimination Schemes.
Inductive Json :=
| JNull
| JBool (b : bool)
| JNumber (q : Q)
| JString (s : list N)
| JArray (items : list Json)
| JObject (fields : list (list N * Json)).
#[local] Set Elimination Schemes.

(** [Boolean(v)]. *)
Definition truthy (v : Json) : bool :=
  match v with
  | JNull => false
  | JBool b => b
  | JNumber q => negb (Qeq_bool q 0)
  | JString s => match s with [] => false | _ => true end
  | JArray _ | JObject _ => true
  end.

(** What a variable of the page holds: [undefined] or a value ([null]
    is the value [JNull]). *)
Inductive Optional :=
| Absent
| Present (v : Json).

(** The result of reading a property: reading from [null] throws. *)
Inductive Access :=
| Undefined
| Value (v : Json)
| TypeError.

Fixpoint assoc (key : list N) (fields : list (list N * Json)) : option Json :=
  match fields with
  | [] => None
  | (k, v) :: rest => if Register.jsstring_eqb k key then Some v else assoc key rest
  end.

(** [data.key] for a key that is no built-in property. *)
Definition get_field (key : list N) (data : Json) : Access :=
  match data with
  | JNull => TypeError
  | JObject fields =>
      match assoc key fields with
      | Some v => Value v
      | None => Undefined
      end
  | _ => Undefined
  end.

(** The white space of [String.prototype.trim] and of the regular
    expression class [\s], by UTF-16 code unit. *)
Definition is_space (c : N) : bool :=
  ((9 <=? c) && (c <=? 13) || (c =? 32) || (c =? 160) || (c =? 5760)
   || (8192 <=? c) && (c <=? 8202) || (c =? 8232) || (c =? 8233)
   || (c =? 8239) || (c =? 8287) || (c =? 12288) || (c =? 65279))%N.

Definition nonspace (c : N) : bool := negb (is_space c).

Fixpoint trim_start (s : list N) : list N :=
  match s with
  | [] => []
  | c :: s' => if is_space c then trim_start s' else s
  end.

Definition trim_end (s : list N) : list N := rev (trim_start (rev s)).

(** [s.trim()]. *)
Definition trim (s : list N) : list N := trim_end (trim_start s).

(** [s.split(/\s+/)]: the pieces between maximal runs of white space;
    a run at either end leaves an empty piece there, and the empty
    string gives one empty piece.  [cur] is the piece being read and
    [in_run] tells that the previous code unit was white space. *)
Fixpoint split_spaces_from (s cur : list N) (in_run : bool) : list (list N) :=
  match s with
  | [] => [cur]
  | c :: s' =>
      if is_space c then
        if in_run then split_spaces_from s' [] true
        else cur :: split_spaces_from s' [] true
      else split_spaces_from s' (cur ++ [c]) false
  end.

Definition split_spaces (s : list N) : list (list N) :=
  split_spaces_from s [] false.

(** [Boolean(s)] on a string. *)
Definition nonempty (s : list N) : bool :=
  match s with [] => false | _ => true end.

(** [Math.round]: the nearest integer, halves upwards. *)
Definition math_round (q : Q) : Z := Qfloor (q + (1 # 2)).

(** [Math.ceil(a / b)] on non-negative integers, [b > 0]. *)
Definition ceil_div (a b : nat) : nat := Nat.div (a + b - 1) b.

End Js.

(** ** API client ([lib/api]) *)

Module Api.

Import Js.

Definition ACCESS_TOKEN : list N := Register.js "access_token".

(** Where the client runs: in a browser ([window] defined) with its
    [localStorage], or on the server. *)
Record Browser := {
  has_window : bool;
  localStorage : gmap (list N) (list N)
}.

Definition getToken (b : Browser) : option (list N) :=
  if negb (has_window b) then None
  else localStorage b !! ACCESS_TOKEN.

Definition setToken (token : list N) (b : Browser) : Browser :=
  if has_window b then
    {| has_window := has_window b;
       localStorage := <[ACCESS_TOKEN := token]> (localStorage b) |}
  else b.

Definition removeToken (b : Browser) : Browser :=
  if has_window b then
    {| has_window := has_window b;
       localStorage := delete ACCESS_TOKEN (localStorage b) |}
  else b.

(** [RequestInit] as the client uses it; [opt_body] is the value handed
    to [JSON.stringify]. *)
Record Options := {
  opt_method : option (list N);
  opt_headers : gmap (list N) (list N);
  opt_body : option Json
}.

Definition no_options : Options :=
  {| opt_method := None; opt_headers := ∅; opt_body := None |}.

Record Request := {
  req_url : list N;
  req_method : option (list N);
  req_headers : gmap (list N) (list N);
  req_body : option Json
}.

(** A response: its status, and what [response.json()] resolves to
    ([None] when the body is not JSON and the call rejects). *)
Record Response := {
  status : nat;
  json : option Json
}.

(** [response.ok]. *)
Definition ok (r : Response) : bool :=
  (200 <=? status r)%nat && (status r <=? 299)%nat.

Inductive FetchResult :=
| NetworkFailure
| Responded (r : Response).

(** How a call of the client ends: with a value, with the [ApiError]
    object it throws, or with another exception (a rejected [fetch], a
    body that does not parse, a property read from [null]). *)
Inductive Outcome :=
| Returned (data : Json)
| ThrownApiError (detail : Json) (error_status : nat)
| ThrownOther.

Definition DEFAULT_DETAIL : Json := JString (Register.js "An error occurred").

(** [data.detail || error.detail] inside the [try]; any exception
    leaves the default. *)
Definition error_detail (body : option Json) : Json :=
  match body with
  | Some data =>
      match get_field (Register.js "detail") data with
      | Value v => if truthy v then v else DEFAULT_DETAIL
      | Undefined | TypeError => DEFAULT_DETAIL
      end
  | None => DEFAULT_DETAIL
  end.

Section Client.

Variable baseUrl : list N.

(** The network and the server. *)
Variable fetch : Request -> FetchResult.

(** [String(v)] for a value that is not a string. *)
Variable to_string_other : Json -> list N.

Definition to_string (v : Access) : list N :=
  match v with
  | Value (JString s) => s
  | Value v => to_string_other v
  | Undefined | TypeError => Register.js "undefined"
  end.

Definition build_request (endpoint : list N) (options : Options) (b : Browser)
  : Request :=
  let token := getToken b in
  let headers :=
    opt_headers options
    ∪ {[ Register.js "Content-Type" := Register.js "application/json" ]} in
  let headers :=
    match token with
    | Some (c :: t) =>
        <[Register.js "Authorization" := Register.js "Bearer " ++ c :: t]> headers
    | _ => headers
    end in
  {| req_url := baseUrl ++ endpoint;
     req_method := opt_method options;
     req_headers := headers;
     req_body := opt_body options |}.

Definition request (endpoint : list N) (options : Options) (b : Browser)
  : Browser * Outcome :=
  match fetch (build_request endpoint options b) with
  | NetworkFailure => (b, ThrownOther)
  | Responded response =>
      if negb (ok response) then
        let detail := error_detail (json response) in
        let b := if (status response =? 401)%nat then removeToken b else b in
        (b, ThrownApiError detail (status response))
      else if (status response =? 204)%nat then (b, Returned (JObject []))
      else
        match json response with
        | Some data => (b, Returned data)
        | None => (b, ThrownOther)
        end
  end.

Definition credentials (email password : list N) : Json :=
  JObject [(Register.js "email", JString email);
           (Register.js "password", JString password)].

Definition post (body : option Json) : Options :=
  {| opt_method := Some (Register.js "POST"); opt_headers := ∅;
     opt_body := body |}.

Definition register (email password : list N) (b : Browser)
  : Browser * Outcome :=
  request (Register.js "/api/auth/register")
    (post (Some (credentials email password))) b.

Definition login (email password : list N) (b : Browser)
  : Browser * Outcome :=
  match request (Register.js "/api/auth/login")
          (post (Some (credentials email password))) b with
  | (b, Returned data) =>
      match get_field (Register.js "access_token") data with
      | TypeError => (b, ThrownOther)
      | token => (setToken (to_string token) b, Returned data)
      end
  | (b, thrown) => (b, thrown)
  end.

Definition dismissReflection (reflectionId : list N) (b : Browser)
  : Browser * Outcome :=
  request (Register.js "/api/reflections/" ++ reflectionId
           ++ Register.js "/dismiss")
    (post None) b.

End Client.

Definition logout (b : Browser) : Browser := removeToken b.

(** [!!this.getToken()]. *)
Definition isAuthenticated (b : Browser) : bool :=
  match getToken b with
  | Some (_ :: _) => true
  | _ => false
  end.

End Api.

(** ** Global state store ([lib/store]) *)

Module Store.

Record User := { user_id : list N; user_email : list N }.

(** The auth store.  Its persisted copy in [localStorage] is a copy of
    an earlier state of the store and is not modelled. *)
Record AuthState := { user : option User; isAuthenticated : bool }.

Definition auth_initial : AuthState :=
  {| user := None; isAuthenticated := false |}.

(** [!!user]. *)
Definition setUser (u : option User) (st : AuthState) : AuthState :=
  {| user := u;
     isAuthenticated := match u with Some _ => true | None => false end |}.

Definition login (u : User) (st : AuthState) : AuthState :=
  {| user := Some u; isAuthenticated := true |}.

(** [logout] also drops the access token from [localStorage] when
    there is a [window]. *)
Definition logout (b : Api.Browser) (st : AuthState)
  : Api.Browser * AuthState :=
  let b :=
    if Api.has_window b then
      {| Api.has_window := Api.has_window b;
         Api.localStorage := delete Api.ACCESS_TOKEN (Api.localStorage b) |}
    else b in
  (b, {| user := None; isAuthenticated := false |}).

Inductive AuthAction :=
| SetUser (u : option User)
| Login (u : User)
| Logout.

Definition auth_dispatch (s : Api.Browser * AuthState) (a : AuthAction)
  : Api.Browser * AuthState :=
  match a with
  | SetUser u => (fst s, setUser u (snd s))
  | Login u => (fst s, login u (snd s))
  | Logout => logout (fst s) (snd s)
  end.

(** An entry as the client holds it; [word_count] may be missing. *)
Record Entry := {
  entry_id : list N;
  entry_content : list N;
  entry_date : list N;
  word_count : option nat;
  entry_created_at : list N
}.

Record JournalState := {
  entries : list Entry;
  currentEntryId : option (list N);
  currentContent : list N;
  isSaving : bool;
  lastSaved : option Z
}.

Definition setEntries (l : list Entry) (st : JournalState) : JournalState :=
  {| entries := l; currentEntryId := currentEntryId st;
     currentContent := currentContent st; isSaving := isSaving st;
     lastSaved := lastSaved st |}.

(** [[entry, ...state.entries.filter(e => e.id !== entry.id)]]. *)
Definition addEntry (entry : Entry) (st : JournalState) : JournalState :=
  setEntries
    (entry :: filter (fun e => negb (Register.jsstring_eqb (entry_id e)
                                       (entry_id entry)))
                     (entries st))
    st.

Definition clearJournal (st : JournalState) : JournalState :=
  {| entries := []; currentEntryId := None; currentContent := [];
     isSaving := false; lastSaved := None |}.

Record Concept := {
  concept_id : list N;
  concept_name : list N;
  concept_description : list N;
  concept_source : list N;
  relevance_score : Q
}.

Record Reflection := {
  reflection_id : list N;
  content : list N;
  entries_analyzed : nat;
  date_range : list N;
  concepts : list Concept;
  confidence : list N;
  confidence_score : Q;
  disclaimer : list N;
  created_at : list N
}.

Record ReflectionState := {
  reflections : list Reflection;
  isLoading : bool
}.

Definition addReflection (r : Reflection) (st : ReflectionState)
  : ReflectionState :=
  {| reflections := r :: reflections st; isLoading := isLoading st |}.

(** [state.reflections.filter(r => r.id !== id)]; the pages filter
    their own lists the same way. *)
Definition without (id : list N) (l : list Reflection) : list Reflection :=
  filter (fun r => negb (Register.jsstring_eqb (reflection_id r) id)) l.

Definition removeReflection (id : list N) (st : ReflectionState)
  : ReflectionState :=
  {| reflections := without id (reflections st); isLoading := isLoading st |}.

End Store.

(** ** Reflections page ([ReflectionsPage]) *)

Module ReflectionsPage.

Record State := {
  reflections : list Store.Reflection;
  isLoading : bool;
  page : nat;
  total : nat
}.

Definition initial : State :=
  {| reflections := []; isLoading := true; page := 1; total := 0 |}.

Definition setReflections (l : list Store.Reflection) (st : State) : State :=
  {| reflections := l; isLoading := isLoading st; page := page st;
     total := total st |}.

Definition setPage (p : nat) (st : State) : State :=
  {| reflections := reflections st; isLoading := isLoading st; page := p;
     total := total st |}.

Section Handlers.

Variable baseUrl : list N.
Variable fetch : Api.Request -> Api.FetchResult.

(** The [catch] only logs. *)
Definition handleDismiss (reflectionId : list N) (b : Api.Browser) (st : State)
  : Api.Browser * State :=
  match Api.dismissReflection baseUrl fetch reflectionId b with
  | (b, Api.Returned _) =>
      (b, setReflections (Store.without reflectionId (reflections st)) st)
  | (b, _) => (b, st)
  end.

End Handlers.

(** What [api.getReflections(page, 10)] came back with: the body as
    the client types it ([reflections], and [total], a count), or a
    thrown error. *)
Inductive Fetched :=
| Resolved (reflections : list Store.Reflection) (total : nat)
| Failed.

(** [fetchReflections], the body of the effect: the list and the total
    are replaced by those of the answer, the [catch] only logs, and
    [finally] clears [isLoading].  The page number is not touched. *)
Definition fetchReflections (answer : Fetched) (st : State) : State :=
  match answer with
  | Resolved l t =>
      {| reflections := l; isLoading := false; page := page st; total := t |}
  | Failed =>
      {| reflections := reflections st; isLoading := false; page := page st;
         total := total st |}
  end.

(** The two buttons of the pagination bar.  The bar is rendered when
    [total > 10]; a button that is not rendered or is disabled does not
    fire.  [click] is what the [onClick] handlers do to the state the
    page was last rendered with (React renders again after every
    click); the request that follows a change of page is answered
    later, by [fetchReflections]. *)
Inductive Click := Previous | Next.

Definition page_count (st : State) : nat := Js.ceil_div (total st) 10.

Definition click (st : State) (c : Click) : State :=
  if negb (10 <? total st)%nat then st
  else
    match c with
    | Previous =>
        if (page st =? 1)%nat then st
        else setPage (Nat.max 1 (page st - 1)) st
    | Next =>
        if (page_count st <=? page st)%nat then st
        else setPage (page st + 1) st
    end.

(** The effect has [page] as its only dependency: it runs on mount and
    again after a press that changed the page, asking for that page. *)
Definition refetches (st : State) (c : Click) : option nat :=
  if (page (click st c) =? page st)%nat then None else Some (page (click st c)).

(** What happens to the page after it is mounted: a button is pressed,
    or a request of the effect (the one made on mount, or one made
    after a change of page) is answered.  Answers may come at any time
    and in any order. *)
Inductive Event :=
| Press (c : Click)
| Answer (answer : Fetched).

Definition apply_event (st : State) (e : Event) : State :=
  match e with
  | Press c => click st c
  | Answer a => fetchReflections a st
  end.

Definition run (st : State) (evs : list Event) : State :=
  fold_left apply_event evs st.

End ReflectionsPage.

(** ** Journal page ([JournalPage], [app/page.tsx]) *)

Module JournalPage.

Inductive SaveStatus := idle | saving | saved.

Record State := {
  content : list N;
  entryId : Js.Optional;
  saveStatus : SaveStatus;
  reflections : list Store.Reflection;
  entryCount : nat;
  isFirstVisit : bool
}.

Definition initial : State :=
  {| content := []; entryId := Js.Present Js.JNull; saveStatus := idle;
     reflections := []; entryCount := 0; isFirstVisit := true |}.

(** [content.trim().split(/\s+/).filter(Boolean)]. *)
Definition words (content : list N) : list (list N) :=
  filter Js.nonempty (Js.split_spaces (Js.trim content)).

Definition wordCount (content : list N) : nat := List.length (words content).

(** What the word count is meant to count: [ws] lists, in order, the
    maximal runs of code units of [s] that are not white space.  [s] is
    white space only and has no run, or it is white space, then a
    non-empty run [w] free of white space that lasts until [s] ends or
    white space follows, then the rest with its own runs. *)
Inductive maximal_runs : list N -> list (list N) -> Prop :=
| runs_none (sp : list N) :
    forallb Js.is_space sp = true -> maximal_runs sp []
| runs_next (sp w rest : list N) (ws : list (list N)) :
    forallb Js.is_space sp = true ->
    w <> [] ->
    forallb Js.nonspace w = true ->
    (forall c t, rest = c :: t -> Js.is_space c = true) ->
    maximal_runs rest ws ->
    maximal_runs (sp ++ w ++ rest) (w :: ws).

(** [!content.trim()]. *)
Definition is_blank (content : list N) : bool :=
  negb (Js.nonempty (Js.trim content)).

Section Handlers.

(** The page calls the global [fetch] directly. *)
Variable fetch : Api.Request -> Api.FetchResult.

Definition autosave_request (st : State) : Api.Request :=
  {| Api.req_url := Register.js "/api/entries/autosave";
     Api.req_method := Some (Register.js "POST");
     Api.req_headers :=
       {[ Register.js "Content-Type" := Register.js "application/json" ]};
     Api.req_body :=
       Some (Js.JObject
               ((Register.js "content", Js.JString (content st))
                :: match entryId st with
                   | Js.Present v => [(Register.js "entry_id", v)]
                   | Js.Absent => []
                   end)) |}.

Definition set_saveStatus (s : SaveStatus) (st : State) : State :=
  {| content := content st; entryId := entryId st; saveStatus := s;
     reflections := reflections st; entryCount := entryCount st;
     isFirstVisit := isFirstVisit st |}.

(** The body of [autosave], up to the timer that later returns the
    indicator from [saved] to [idle].  The result lists the requests
    sent; [JSON.stringify] leaves an [undefined] [entry_id] out of the
    body.  An exception inside the [try] (rejected [fetch], body that
    does not parse, [data] being [null]) resets the status to [idle];
    a response that is not [ok] is not handled at all. *)
Definition autosave (st : State) : State * list Api.Request :=
  if is_blank (content st) then (st, [])
  else
    let st := set_saveStatus saving st in
    let sent := [autosave_request st] in
    match fetch (autosave_request st) with
    | Api.NetworkFailure => (set_saveStatus idle st, sent)
    | Api.Responded response =>
        if Api.ok response then
          match Api.json response with
          | None => (set_saveStatus idle st, sent)
          | Some data =>
              match Js.get_field (Register.js "entry_id") data with
              | Js.TypeError => (set_saveStatus idle st, sent)
              | Js.Undefined =>
                  ({| content := content st; entryId := Js.Absent;
                      saveStatus := saved; reflections := reflections st;
                      entryCount := entryCount st + 1;
                      isFirstVisit := false |}, sent)
              | Js.Value v =>
                  ({| content := content st; entryId := Js.Present v;
                      saveStatus := saved; reflections := reflections st;
                      entryCount := entryCount st + 1;
                      isFirstVisit := false |}, sent)
              end
          end
        else (st, sent)
    end.

Definition dismiss_request (reflectionId : list N) : Api.Request :=
  {| Api.req_url := Register.js "/api/reflections/" ++ reflectionId
                    ++ Register.js "/dismiss";
     Api.req_method := Some (Register.js "POST");
     Api.req_headers := ∅;
     Api.req_body := None |}.

(** [response.ok] is not looked at. *)
Definition handleDismissReflection (reflectionId : list N) (st : State)
  : State :=
  match fetch (dismiss_request reflectionId) with
  | Api.NetworkFailure => st
  | Api.Responded _ =>
      {| content := content st; entryId := entryId st;
         saveStatus := saveStatus st;
         reflections := Store.without reflectionId (reflections st);
         entryCount := entryCount st; isFirstVisit := isFirstVisit st |}
  end.

End Handlers.

(** Whether a fetch result makes [autosave] reach [setEntryCount]. *)
Definition save_succeeds (result : Api.FetchResult) : bool :=
  match result with
  | Api.Responded response =>
      Api.ok response
      && match Api.json response with
         | Some Js.JNull | None => false
         | Some _ => true
         end
  | Api.NetworkFailure => false
  end.

(** Successive runs of [autosave], each with the result its request
    meets. *)
Definition autosaves (results : list Api.FetchResult) (st : State) : State :=
  fold_left (fun st result => fst (autosave (fun _ => result) st)) results st.

(** [fetchReflections] returns at once when [entryCount < 3]. *)
Definition requests_reflections (st : State) : bool :=
  negb (entryCount st <? 3)%nat.

(** The condition under which the "building" hint is rendered. *)
Definition shows_building_hint (st : State) : bool :=
  (0 <? entryCount st)%nat && (entryCount st <? 3)%nat
  && (List.length (reflections st) =? 0)%nat.

End JournalPage.

(** ** Patterns page ([PatternsPage]) *)

Module PatternsPage.

Record DayData := {
  date : Z;
  hasEntry : bool;
  wordCount : nat
}.

(** [w || 0]. *)
Definition or_zero (w : option nat) : nat :=
  match w with Some n => n | None => 0 end.

Section Days.

(** [isSameDay(new Date(e.entry_date), date)], from [date-fns]. *)
Variable isSameDay : list N -> Z -> bool.

Definition day_data (entries : list Store.Entry) (d : Z) : DayData :=
  match find (fun e => isSameDay (Store.entry_date e) d) entries with
  | Some entry =>
      {| date := d; hasEntry := true;
         wordCount := or_zero (Store.word_count entry) |}
  | None => {| date := d; hasEntry := false; wordCount := 0 |}
  end.

(** [days] is what [eachDayOfInterval] returns. *)
Definition last30Days (entries : list Store.Entry) (days : list Z)
  : list DayData :=
  map (day_data entries) days.

End Days.

Definition totalEntries (entries : list Store.Entry) : nat :=
  List.length entries.

Definition totalWords (entries : list Store.Entry) : nat :=
  fold_left (fun sum e => (sum + or_zero (Store.word_count e))%nat) entries 0%nat.

Definition avgWords (entries : list Store.Entry) : Z :=
  if (0 <? totalEntries entries)%nat then
    Js.math_round (Z.of_nat (totalWords entries)
                   # Pos.of_nat (totalEntries entries))
  else 0%Z.

(** The loop over the reversed list stops at the first day without an
    entry. *)
Fixpoint streak_from (reversed : list DayData) (streak : nat) : nat :=
  match reversed with
  | [] => streak
  | day :: rest =>
      if hasEntry day then streak_from rest (streak + 1) else streak
  end.

Definition calculateStreak (days : list DayData) : nat :=
  streak_from (rev days) 0.

(** [Math.max(...days.map(d => d.wordCount), 1)]. *)
Definition maxWordCount (days : list DayData) : nat :=
  fold_right Nat.max 1%nat (map wordCount days).

(** The bar of a day in the word-count chart, in percent of the chart
    height ([None] is the 4px stub of a day without words). *)
Definition bar_height (days : list DayData) (day : DayData) : option Q :=
  if (0 <? wordCount day)%nat then
    Some ((Z.of_nat (wordCount day) # Pos.of_nat (maxWordCount days)) * 100)
  else None.

(** The opacity of a day in the activity heat map. *)
Definition heat_opacity (days : list DayData) (day : DayData) : Q :=
  if hasEntry day then
    (4 # 10)
    + (Z.of_nat (wordCount day) # Pos.of_nat (maxWordCount days)) * (6 # 10)
  else 1.

End PatternsPage.

(** ** Navigation bar ([Navigation]) *)

Module Navigation.

(** [api.logout(); logout(); router.push('/auth/login')]. *)
Definition handleLogout (b : Api.Browser) (st : Store.AuthState)
  : Api.Browser * Store.AuthState * list N :=
  let b := Api.logout b in
  let '(b, st) := Store.logout b st in
  (b, st, Register.js "/auth/login").

End Navigation.

(** ** Foreign keys of the schema ([schemas/schema.sql]) *)

Module Database.

(** The rows of each table, by primary key, with the [user_id] column
    the foreign keys read.  [audit_log.user_id] is nullable; the primary
    key of [user_preferences] is the user id itself. *)
Record Tables := {
  users : gset N;
  entries : gmap N N;
  pattern_metadata : gmap N N;
  reflections : gmap N N;
  audit_log : gmap N (option N);
  sessions : gmap N N;
  user_preferences : gset N
}.

(** [ON DELETE CASCADE]. *)
Definition cascade (u : N) (rows : gmap N N) : gmap N N :=
  base.filter (fun kv : N * N => snd kv <> u) rows.

(** [ON DELETE SET NULL]. *)
Definition set_null (u : N) (rows : gmap N (option N)) : gmap N (option N) :=
  (fun owner => if decide (owner = Some u) then None else owner) <$> rows.

(** [DELETE FROM users WHERE id = u]. *)
Definition delete_user (u : N) (db : Tables) : Tables :=
  {| users := users db ∖ {[ u ]};
     entries := cascade u (entries db);
     pattern_metadata := cascade u (pattern_metadata db);
     reflections := cascade u (reflections db);
     audit_log := set_null u (audit_log db);
     sessions := cascade u (sessions db);
     user_preferences := user_preferences db ∖ {[ u ]} |}.


End Database.

(** ** Deleting a user ([schemas/schema.sql]) *)

Module Account.

Import Synth.

(** [DELETE FROM users WHERE id = u], as the store of the synthesizer
    sees it.  [reflections.user_id] is declared [ON DELETE CASCADE], so
    the reflections of [u] go; [audit_log.user_id] is declared
    [ON DELETE SET NULL] and [audit_log.entity_id], the reflection a
    row is about, is no foreign key, so every audit row stays. *)
Definition delete_user (u : N) (s : Store) : Store :=
  {| reflections :=
       base.filter (fun kv : N * Reflection => r_user (snd kv) <> u) (reflections s);
     audit_traces := audit_traces s |}.

(** What can happen to the persisted state: an event of the
    synthesizer, or the deletion of a user row. *)
Inductive Op :=
| Core (e : Event)
| DeleteUser (u : N).

Section Service.

Variable similarity : list Q -> list Q -> Q.
Variable min_similarity : Q.
Variable corpus : list Concept.
Variable top_k : nat.
Variable language_ok : string -> bool.
Variable compose : Candidate -> list (N * Q) -> string.
Variable trace_of : Candidate -> list (N * Q) -> Q -> AuditTrace.

Definition apply_op (sys : System) (o : Op) : System :=
  match o with
  | Core e =>
      apply_event similarity min_similarity corpus top_k language_ok compose
        trace_of sys e
  | DeleteUser u =>
      {| store := delete_user u (store sys); clock := clock sys;
         runs := runs sys |}
  end.

Definition run_ops (sys : System) (ops : list Op) : System :=
  fold_left apply_op ops sys.

End Service.

(** A run that is [Emitted] has its reflection, owned by the user of
    the run, and its audit trace in the store. *)
Definition emitted_stored (sys : System) : Prop :=
  forall (u : N) (r : Run) (id : N),
    runs sys !! u = Some r -> run_phase r = Emitted id ->
    (exists reflection, reflections (store sys) !! id = Some reflection
                        /\ r_user reflection = u)
    /\ is_Some (audit_traces (store sys) !! id).

(** Every reflection has its audit trace. *)
Definition reflections_audited (s : Store) : Prop :=
  forall id : N, is_Some (reflections s !! id) -> is_Some (audit_traces s !! id).

End Account.

(** ** Lemmas on the rational helpers *)

Ltac cmp_hyps :=
  repeat match goal with
  | H : Qcompare _ _ = Eq |- _ => apply Qeq_alt in H
  | H : Qcompare _ _ = Lt |- _ => apply Qlt_alt in H
  | H : Qcompare _ _ = Gt |- _ => apply Qgt_alt in H
  end.

Section NumFacts.

Lemma Qltb_lt (a b : Q) : Qltb a b = true <-> a < b.
Proof.
  unfold Qltb. rewrite Qlt_alt. destruct (Qcompare a b); split; congruence.
Qed.

Lemma Qltb_ge (a b : Q) : Qltb a b = false <-> b <= a.
Proof.
  split; intros H.
  - apply Qnot_lt_le. intros Hlt. apply Qltb_lt in Hlt. congruence.
  - destruct (Qltb a b) eqn:E; [|reflexivity].
    apply Qltb_lt in E. exfalso. exact (Qlt_not_le _ _ E H).
Qed.

Lemma py_min_Qmin (a b : Q) : py_min a b == Qmin a b.
Proof.
  unfold py_min. destruct (Qltb b a) eqn:E.
  - apply Qltb_lt in E. symmetry. apply Q.min_r. apply Qlt_le_weak, E.
  - apply Qltb_ge in E. symmetry. apply Q.min_l. exact E.
Qed.

Lemma py_min_le_r (a b : Q) : py_min a b <= b.
Proof. rewrite py_min_Qmin. apply Q.le_min_r. Qed.

Lemma round_half_even_bounds (q : Q) :
  (Qfloor q <= round_half_even q <= Qfloor q + 1)%Z.
Proof.
  unfold round_half_even.
  destruct (Qcompare (q - inject_Z (Qfloor q)) (1 # 2)); [destruct (Z.even _)| |]; lia.
Qed.

Lemma round_half_even_mono (p q : Q) :
  p <= q -> (round_half_even p <= round_half_even q)%Z.
Proof.
  intros Hpq.
  pose proof (Qfloor_resp_le _ _ Hpq) as Hf.
  destruct (Z.eq_dec (Qfloor p) (Qfloor q)) as [Heq|Hne].
  - assert (Hr : p - inject_Z (Qfloor p) <= q - inject_Z (Qfloor q)).
    { rewrite Heq. apply Qplus_le_l. exact Hpq. }
    unfold round_half_even. rewrite <- Heq in *.
    destruct (Qcompare (p - inject_Z (Qfloor p)) (1 # 2)) eqn:Ep;
      destruct (Qcompare (q - inject_Z (Qfloor p)) (1 # 2)) eqn:Eq';
      try (destruct (Z.even (Qfloor p))); try lia; exfalso;
      cmp_hyps; lra.
  - pose proof (round_half_even_bounds p). pose proof (round_half_even_bounds q).
    lia.
Qed.

Lemma round_half_even_inject (z : Z) : round_half_even (inject_Z z) = z.
Proof.
  unfold round_half_even. rewrite Qfloor_Z.
  assert (E : Qcompare (inject_Z z - inject_Z z) (1 # 2) = Lt).
  { rewrite <- Qlt_alt. lra. }
  rewrite E. reflexivity.
Qed.

Lemma py_round_mono (x y : Q) (n : nat) : x <= y -> py_round x n <= py_round y n.
Proof.
  intros Hxy. unfold py_round.
  assert (Hm : 0 < inject_Z (10 ^ Z.of_nat n)).
  { change 0 with (inject_Z 0). rewrite <- Zlt_Qlt.
    apply Z.pow_pos_nonneg; lia. }
  apply Qmult_le_compat_r.
  - rewrite <- Zle_Qle. apply round_half_even_mono.
    apply Qmult_le_compat_r; [exact Hxy | apply Qlt_le_weak, Hm].
  - apply Qlt_le_weak, Qinv_lt_0_compat, Hm.
Qed.

Lemma py_round_compat (x y : Q) (n : nat) : x == y -> py_round x n == py_round y n.
Proof.
  intros Hxy. apply Qle_antisym; apply py_round_mono; lra.
Qed.

Lemma py_round_le_cap (x : Q) : x <= 80 # 100 -> py_round x 2 <= 80 # 100.
Proof.
  intros Hx. apply (py_round_mono _ _ 2%nat) in Hx.
  eapply Qle_trans; [exact Hx|]. vm_compute. discriminate.
Qed.

Lemma round_half_even_compat (p q : Q) :
  p == q -> round_half_even p = round_half_even q.
Proof.
  intros H. apply Z.le_antisymm; apply round_half_even_mono; lra.
Qed.

Lemma round_half_even_near (q : Q) :
  q - (1 # 2) <= inject_Z (round_half_even q)
  /\ inject_Z (round_half_even q) <= q + (1 # 2).
Proof.
  pose proof (Qfloor_le q) as Hl. pose proof (Qlt_floor q) as Hu.
  rewrite inject_Z_plus in Hu. change (inject_Z 1) with 1 in Hu.
  unfold round_half_even.
  destruct (Qcompare (q - inject_Z (Qfloor q)) (1 # 2)) eqn:E; cmp_hyps.
  - destruct (Z.even (Qfloor q)).
    + split; lra.
    + rewrite inject_Z_plus. change (inject_Z 1) with 1. split; lra.
  - split; lra.
  - rewrite inject_Z_plus. change (inject_Z 1) with 1. split; lra.
Qed.

Lemma round_half_even_upper (q : Q) (j : Z) :
  q < inject_Z j + (1 # 2) -> (round_half_even q <= j)%Z.
Proof.
  intros H. pose proof (round_half_even_near q) as [_ Hn].
  assert (H1 : inject_Z (round_half_even q) < inject_Z (j + 1)).
  { rewrite inject_Z_plus. change (inject_Z 1) with 1. lra. }
  rewrite <- Zlt_Qlt in H1. lia.
Qed.

Lemma round_half_even_lower (q : Q) (j : Z) :
  inject_Z j - (1 # 2) < q -> (j <= round_half_even q)%Z.
Proof.
  intros H. pose proof (round_half_even_near q) as [Hn _].
  assert (H1 : inject_Z (j - 1) < inject_Z (round_half_even q)).
  { unfold Z.sub. rewrite inject_Z_plus. change (inject_Z (- (1))) with (- (1)).
    lra. }
  rewrite <- Zlt_Qlt in H1. lia.
Qed.

End NumFacts.


(** ** Confidence constraints *)

Section ConfidenceFacts.

Lemma py_min_below (x c : Q) : x <= c -> py_min x c = x.
Proof.
  intros H. unfold py_min. apply Qltb_ge in H. rewrite H. reflexivity.
Qed.

Lemma py_min_above (x c : Q) : c < x -> py_min x c = c.
Proof.
  intros H. unfold py_min. apply Qltb_lt in H. rewrite H. reflexivity.
Qed.

Lemma constrain_confidence_low (raw : Q) :
  raw <= 90 # 100 ->
  constrain_confidence raw = py_round (py_min raw MAX_CONFIDENCE) 2.
Proof.
  intros H. unfold constrain_confidence, Qgtb.
  apply Qltb_ge in H. rewrite H. reflexivity.
Qed.

Lemma constrain_confidence_high (raw : Q) :
  90 # 100 < raw ->
  constrain_confidence raw = py_round (MAX_CONFIDENCE * (95 # 100)) 2.
Proof.
  intros H. unfold constrain_confidence, Qgtb.
  rewrite py_min_above by (unfold MAX_CONFIDENCE; lra).
  apply Qltb_lt in H. rewrite H. reflexivity.
Qed.

Lemma constrain_confidence_le_cap (raw : Q) :
  constrain_confidence raw <= 80 # 100.
Proof.
  destruct (Qlt_le_dec (90 # 100) raw) as [H|H].
  - rewrite constrain_confidence_high by exact H. vm_compute. discriminate.
  - rewrite constrain_confidence_low by exact H.
    apply py_round_le_cap. apply (py_min_le_r raw MAX_CONFIDENCE).
Qed.

(** Above the cap the transform is not monotone: 0.85 gives 0.80 and
    0.95 gives 0.76. *)
Example constrain_confidence_drop :
  constrain_confidence (85 # 100) == 80 # 100
  /\ constrain_confidence (95 # 100) == 76 # 100.
Proof. split; reflexivity. Qed.

(** Ties go to the even hundredth, as with Python's [round]. *)
Example constrain_confidence_half_even :
  constrain_confidence (125 # 1000) == 12 # 100
  /\ constrain_confidence (135 # 1000) == 14 # 100.
Proof. split; reflexivity. Qed.

(** C8: the transform never exceeds 0.80, and it is monotone
    non-decreasing on inputs below 0.80. *)
Theorem constrain_confidence_bounded_monotone :
  (forall raw : Q, constrain_confidence raw <= 80 # 100)
  /\ (forall x y : Q,
        x <= y -> y < 80 # 100 ->
        constrain_confidence x <= constrain_confidence y).
Proof.
  split.
  - exact constrain_confidence_le_cap.
  - intros x y Hxy Hy.
    rewrite !constrain_confidence_low by lra.
    unfold MAX_CONFIDENCE. rewrite !py_min_below by lra.
    apply py_round_mono. exact Hxy.
Qed.

End ConfidenceFacts.

(** ** Binary64 rounding *)

Section FloatFacts.

Lemma pow2_pos (e : Z) : 0 < 2 ^ e.
Proof. apply Qpower_0_lt. reflexivity. Qed.

Lemma pow2_succ (e : Z) : 2 ^ (e + 1) == 2 * 2 ^ e.
Proof. rewrite Qpower_plus by discriminate. simpl (2 ^ 1). ring. Qed.

Lemma pow2_lt_inv (a b : Z) : 2 ^ a < 2 ^ b -> (a < b)%Z.
Proof. intros H. apply (Qpower_lt_compat_l_inv 2); [exact H | reflexivity]. Qed.

Lemma pow2_cancel (a e : Z) : 2 ^ (a - e) * 2 ^ e == 2 ^ a.
Proof.
  rewrite <- Qpower_plus by discriminate.
  replace (a - e + e)%Z with a by ring. reflexivity.
Qed.

Lemma pow2_inject (a : Z) : (0 <= a)%Z -> inject_Z (2 ^ a) == 2 ^ a.
Proof. intros H. rewrite Zpower_Qpower by exact H. reflexivity. Qed.

Lemma pow2_log2 (n : Z) :
  (0 < n)%Z -> 2 ^ Z.log2 n <= inject_Z n /\ inject_Z n < 2 ^ (Z.log2 n + 1).
Proof.
  intros Hn. destruct (Z.log2_spec n Hn) as [H1 H2].
  pose proof (Z.log2_nonneg n) as H0.
  rewrite <- !pow2_inject by lia. rewrite <- Zle_Qle, <- Zlt_Qlt.
  split; [exact H1 | exact H2].
Qed.

Lemma Qabs_num_den (q : Q) :
  Qabs q * inject_Z (Zpos (Qden q)) == inject_Z (Z.abs (Qnum q)).
Proof.
  destruct q as [n d]. unfold Qabs, Qeq. simpl. rewrite Pos.mul_1_r. ring.
Qed.

Lemma ilog2_spec (q : Q) :
  ~ q == 0 -> 2 ^ F64.ilog2 q <= Qabs q /\ Qabs q < 2 ^ (F64.ilog2 q + 1).
Proof.
  intros Hq.
  assert (Hn : (0 < Z.abs (Qnum q))%Z).
  { destruct q as [n d]. unfold Qeq in Hq. simpl in *. lia. }
  pose proof (pow2_log2 _ Hn) as [Hn1 Hn2].
  pose proof (pow2_log2 (Zpos (Qden q)) eq_refl) as [Hd1 Hd2].
  pose proof (Qabs_num_den q) as Hx.
  set (a := Z.log2 (Z.abs (Qnum q))) in *.
  set (b := Z.log2 (Zpos (Qden q))) in *.
  set (x := Qabs q) in *. set (D := inject_Z (Zpos (Qden q))) in *.
  set (Nn := inject_Z (Z.abs (Qnum q))) in *.
  assert (Hx0 : 0 <= x) by apply Qabs_nonneg.
  pose proof (pow2_pos (a - b)) as Hp0.
  pose proof (pow2_pos b) as Hb0.
  pose proof (pow2_cancel a b) as Ha.
  assert (Ha1 : 2 ^ (a + 1) == 2 * 2 ^ a) by apply pow2_succ.
  assert (Hb1 : 2 ^ (b + 1) == 2 * 2 ^ b) by apply pow2_succ.
  assert (Hup : x < 2 * 2 ^ (a - b)).
  { apply Qnot_le_lt. intros Hc.
    assert (2 * 2 ^ (a - b) * 2 ^ b <= x * D) by nra. lra. }
  assert (Hlo : 2 ^ (a - b) < 2 * x).
  { apply Qnot_le_lt. intros Hc.
    assert (2 * x * D <= 2 ^ (a - b) * (2 * 2 ^ b)) by nra. nra. }
  unfold F64.ilog2. fold a b x.
  destruct (Qle_bool (2 ^ (a - b)) x) eqn:E.
  - apply Qle_bool_iff in E. split; [exact E|]. rewrite pow2_succ. exact Hup.
  - assert (Hlt : x < 2 ^ (a - b)).
    { apply Qnot_le_lt. intros Hc. apply Qle_bool_iff in Hc. congruence. }
    replace (a - b - 1 + 1)%Z with (a - b)%Z by ring.
    split; [|exact Hlt].
    assert (He : 2 ^ (a - b) == 2 * 2 ^ (a - b - 1)).
    { rewrite <- pow2_succ. replace (a - b - 1 + 1)%Z with (a - b)%Z by ring.
      reflexivity. }
    lra.
Qed.

Lemma ilog2_unique (q : Q) (l : Z) :
  2 ^ l <= Qabs q -> Qabs q < 2 ^ (l + 1) -> F64.ilog2 q = l.
Proof.
  intros H1 H2.
  assert (Hq : ~ q == 0).
  { intros E. assert (E0 : Qabs q == 0) by (rewrite E; reflexivity).
    pose proof (pow2_pos l). lra. }
  destruct (ilog2_spec q Hq) as [S1 S2].
  assert ((F64.ilog2 q < l + 1)%Z) by (apply pow2_lt_inv; lra).
  assert ((l < F64.ilog2 q + 1)%Z) by (apply pow2_lt_inv; lra).
  lia.
Qed.

Lemma round_half_even_le_int (x : Q) (n : Z) :
  x <= inject_Z n -> (round_half_even x <= n)%Z.
Proof.
  intros H. rewrite <- (round_half_even_inject n).
  apply round_half_even_mono. exact H.
Qed.

Lemma round_half_even_ge_int (x : Q) (n : Z) :
  inject_Z n <= x -> (n <= round_half_even x)%Z.
Proof.
  intros H. rewrite <- (round_half_even_inject n) at 1.
  apply round_half_even_mono. exact H.
Qed.

Lemma pow2_1024 : 1 < 2 ^ 1024.
Proof. apply (Qpower_1_lt 2 1024); reflexivity. Qed.

(** The three ways [rne] can end. *)
Lemma rne_cases (q : Q) :
  (q == 0 /\ F64.rne q = F64.Finite 0)
  \/ (~ q == 0
      /\ exists (e m : Z),
           e = Z.max (F64.ilog2 q - 52) (-1074)
           /\ m = round_half_even (q / 2 ^ e)
           /\ ((2 ^ 1024 <= Qabs (inject_Z m * 2 ^ e)
                /\ F64.rne q = if (0 <? m)%Z then F64.PosInf else F64.NegInf)
               \/ (Qabs (inject_Z m * 2 ^ e) < 2 ^ 1024
                   /\ F64.rne q = F64.Finite (Qred (inject_Z m * 2 ^ e))))).
Proof.
  unfold F64.rne. destruct (Qeq_bool q 0) eqn:E0.
  - left. apply Qeq_bool_iff in E0. auto.
  - right. split; [intros H; apply Qeq_bool_iff in H; congruence|].
    exists (Z.max (F64.ilog2 q - 52) (-1074)),
           (round_half_even (q / 2 ^ Z.max (F64.ilog2 q - 52) (-1074))).
    split; [reflexivity|]. split; [reflexivity|].
    cbv zeta.
    destruct (Qle_bool _ _) eqn:E.
    + left. apply Qle_bool_iff in E. auto.
    + right. split; [|reflexivity].
      apply Qnot_le_lt. intros Hc. apply Qle_bool_iff in Hc. congruence.
Qed.

Lemma rne_not_nan (q : Q) : F64.rne q <> F64.NaN.
Proof.
  destruct (rne_cases q) as [[_ ->]|(_ & e & m & _ & _ & [[_ ->]|[_ ->]])];
    [discriminate | destruct (0 <? m)%Z; discriminate | discriminate].
Qed.

Lemma le_finite (p q : Q) : p <= q -> F64.le (F64.Finite p) (F64.Finite q) = true.
Proof.
  intros H. simpl. apply negb_true_iff. apply Qltb_ge. exact H.
Qed.

Lemma le_finite_inv (p q : Q) : F64.le (F64.Finite p) (F64.Finite q) = true -> p <= q.
Proof.
  simpl. intros H. apply negb_true_iff in H. apply Qltb_ge in H. exact H.
Qed.

(** Division by the unit in the last place, as a product. *)
Lemma scaled (q : Q) (e : Z) : q / 2 ^ e * 2 ^ e == q.
Proof. field. pose proof (pow2_pos e). lra. Qed.

(** A number of [[1/2, 1)] is rounded on the grid of step [2 ^ -53]. *)
Lemma rne_binade (q : Q) :
  1 # 2 <= q -> q < 1 ->
  F64.rne q
  = F64.Finite (Qred (inject_Z (round_half_even (q / 2 ^ (-53))) * 2 ^ (-53)))
  /\ 1 # 2 <= inject_Z (round_half_even (q / 2 ^ (-53))) * 2 ^ (-53)
  /\ inject_Z (round_half_even (q / 2 ^ (-53))) * 2 ^ (-53) <= 1.
Proof.
  intros Hl Hu.
  assert (Habs : Qabs q == q) by (apply Qabs_pos; lra).
  assert (Hlog : F64.ilog2 q = (-1)%Z).
  { apply ilog2_unique; rewrite Habs.
    - change (2 ^ (-1)) with (1 # 2). exact Hl.
    - change (2 ^ (-1 + 1)) with 1. exact Hu. }
  pose proof (pow2_pos (-53)) as Hp.
  pose proof (scaled q (-53)) as Hs.
  set (x := q / 2 ^ (-53)) in *.
  assert (H52 : inject_Z (2 ^ 52) * 2 ^ (-53) == 1 # 2) by reflexivity.
  assert (H53 : inject_Z (2 ^ 53) * 2 ^ (-53) == 1) by reflexivity.
  assert (Hm1 : (2 ^ 52 <= round_half_even x)%Z).
  { apply round_half_even_ge_int. nra. }
  assert (Hm2 : (round_half_even x <= 2 ^ 53)%Z).
  { apply round_half_even_le_int. nra. }
  rewrite Zle_Qle in Hm1, Hm2.
  assert (B1 : 1 # 2 <= inject_Z (round_half_even x) * 2 ^ (-53)) by nra.
  assert (B2 : inject_Z (round_half_even x) * 2 ^ (-53) <= 1) by nra.
  split; [|split; [exact B1 | exact B2]].
  destruct (rne_cases q) as [[E0 _]|(_ & e & m & He & Hm & Hcase)]; [lra|].
  rewrite Hlog in He. change (Z.max (-1 - 52) (-1074)) with (-53)%Z in He.
  subst e. fold x in Hm. subst m.
  pose proof pow2_1024 as Hbig.
  destruct Hcase as [[Hov _]|[_ ->]]; [|reflexivity].
  exfalso. rewrite Qabs_pos in Hov by lra. lra.
Qed.

(** Rounding does not carry a smaller number over the float of a
    number of [[1/2, 1)]. *)
Lemma rne_le_binade (q c : Q) :
  1 # 2 <= c -> c < 1 -> q <= c -> F64.le (F64.rne q) (F64.rne c) = true.
Proof.
  intros Hc1 Hc2 Hqc.
  destruct (rne_binade c Hc1 Hc2) as (-> & Bc1 & Bc2).
  set (vc := inject_Z (round_half_even (c / 2 ^ (-53))) * 2 ^ (-53)) in *.
  pose proof (Qred_correct vc) as Evc.
  pose proof pow2_1024 as Hbig.
  destruct (Qlt_le_dec q (1 # 2)) as [Hsmall|Hlarge].
  - destruct (rne_cases q) as [[_ ->]|(Hq0 & e & m & He & Hm & Hcase)].
    + apply le_finite. lra.
    + pose proof (pow2_pos e) as Hp. pose proof (scaled q e) as Hs.
      destruct (Qlt_le_dec q 0) as [Hneg|Hpos].
      * (* negative *)
        assert (Hm0 : (m <= 0)%Z).
        { rewrite Hm. apply round_half_even_le_int. change (inject_Z 0) with 0.
          set (x := q / 2 ^ e) in *. nra. }
        assert (Hv : inject_Z m * 2 ^ e <= 0).
        { rewrite Zle_Qle in Hm0. change (inject_Z 0) with 0 in Hm0. nra. }
        destruct Hcase as [[_ ->]|[_ ->]].
        -- replace (0 <? m)%Z with false by (symmetry; apply Z.ltb_ge; exact Hm0).
           reflexivity.
        -- apply le_finite. rewrite Qred_correct. lra.
      * (* between 0 and 1/2 *)
        assert (Hq : 0 < q).
        { destruct (Qlt_le_dec 0 q) as [H|H]; [exact H|].
          exfalso. apply Hq0. lra. }
        assert (Habs : Qabs q == q) by (apply Qabs_pos; lra).
        destruct (ilog2_spec q Hq0) as [S1 _]. rewrite Habs in S1.
        assert (Hl : (F64.ilog2 q < -1)%Z).
        { apply pow2_lt_inv. change (2 ^ (-1)) with (1 # 2). lra. }
        assert (He' : (e <= -1)%Z) by lia.
        pose proof (pow2_cancel (-1) e) as Hc.
        change (2 ^ (-1)) with (1 # 2) in Hc.
        pose proof (pow2_inject (-1 - e) ltac:(lia)) as Hi.
        set (x := q / 2 ^ e) in *.
        assert (Hm1 : (0 <= m)%Z).
        { rewrite Hm. apply round_half_even_ge_int. change (inject_Z 0) with 0. nra. }
        assert (Hm2 : (m <= 2 ^ (-1 - e))%Z).
        { rewrite Hm. apply round_half_even_le_int. rewrite Hi. nra. }
        rewrite Zle_Qle in Hm1, Hm2. change (inject_Z 0) with 0 in Hm1.
        rewrite Hi in Hm2.
        assert (Hv1 : 0 <= inject_Z m * 2 ^ e) by nra.
        assert (Hv2 : inject_Z m * 2 ^ e <= 1 # 2) by nra.
        destruct Hcase as [[Hov _]|[_ ->]].
        -- exfalso. rewrite Qabs_pos in Hov by exact Hv1. lra.
        -- apply le_finite. rewrite Qred_correct. lra.
  - destruct (rne_binade q Hlarge ltac:(lra)) as (-> & Bq1 & Bq2).
    apply le_finite. rewrite !Qred_correct. unfold vc.
    pose proof (pow2_pos (-53)) as Hp.
    assert (Hm : (round_half_even (q / 2 ^ (-53))
                  <= round_half_even (c / 2 ^ (-53)))%Z).
    { apply round_half_even_mono.
      pose proof (scaled q (-53)). pose proof (scaled c (-53)).
      set (x := q / 2 ^ (-53)) in *. set (y := c / 2 ^ (-53)) in *. nra. }
    rewrite Zle_Qle in Hm. nra.
Qed.

(** *** The confidence constraint on floats *)

Lemma float_literals :
  F64.MAX_CONFIDENCE = F64.Finite (3602879701896397 # 4503599627370496)
  /\ F64.rne (90 # 100) = F64.Finite (8106479329266893 # 9007199254740992)
  /\ F64.py_round (F64.mul F64.MAX_CONFIDENCE (F64.rne (95 # 100))) 2
     = F64.rne (76 # 100).
Proof. split; [|split]; vm_compute; reflexivity. Qed.

Lemma le_not_gt (a b : F64.float) : F64.le a b = true -> F64.gt a b = false.
Proof.
  unfold F64.le, F64.gt. destruct a, b; try discriminate;
    intros H; apply negb_true_iff in H; exact H.
Qed.

Lemma py_min_float (raw : F64.float) :
  (F64.py_min raw F64.MAX_CONFIDENCE = raw
   \/ F64.py_min raw F64.MAX_CONFIDENCE = F64.MAX_CONFIDENCE)
  /\ (raw <> F64.NaN ->
      F64.le (F64.py_min raw F64.MAX_CONFIDENCE) raw = true
      /\ F64.le (F64.py_min raw F64.MAX_CONFIDENCE) F64.MAX_CONFIDENCE = true).
Proof.
  destruct float_literals as (EM & _). rewrite EM.
  unfold F64.py_min.
  destruct raw as [q| | |]; unfold F64.lt.
  - destruct (Qltb _ q) eqn:E.
    + split; [right; reflexivity|]. intros _. apply Qltb_lt in E.
      split; apply le_finite; lra.
    + split; [left; reflexivity|]. intros _. apply Qltb_ge in E.
      split; apply le_finite; lra.
  - split; [right; reflexivity|]. intros _. split; reflexivity.
  - split; [left; reflexivity|]. intros _. split; reflexivity.
  - split; [left; reflexivity|]. intros H. contradiction.
Qed.

Lemma py_min_high (raw : F64.float) :
  F64.gt raw (F64.rne (90 # 100)) = true ->
  F64.py_min raw F64.MAX_CONFIDENCE = F64.MAX_CONFIDENCE.
Proof.
  destruct float_literals as (EM & E90 & _). rewrite EM, E90.
  destruct raw as [q| | |]; cbv beta iota delta [F64.gt F64.lt F64.py_min];
    intros H.
  - apply Qltb_lt in H.
    replace (Qltb (3602879701896397 # 4503599627370496) q) with true; [reflexivity|].
    symmetry. apply Qltb_lt. lra.
  - reflexivity.
  - discriminate H.
  - discriminate H.
Qed.

Lemma constrain_confidence_float_high (raw : F64.float) :
  F64.gt raw (F64.rne (90 # 100)) = true ->
  F64.constrain_confidence raw
  = F64.py_round (F64.mul (F64.py_min raw F64.MAX_CONFIDENCE) (F64.rne (95 # 100))) 2
  /\ F64.constrain_confidence raw = F64.rne (76 # 100).
Proof.
  intros H. destruct float_literals as (_ & _ & E76).
  unfold F64.constrain_confidence. rewrite H.
  split; [reflexivity|]. rewrite (py_min_high raw H). exact E76.
Qed.

Lemma constrain_confidence_float_low (raw : F64.float) :
  F64.gt raw (F64.rne (90 # 100)) = false ->
  F64.constrain_confidence raw
  = F64.py_round (F64.py_min raw F64.MAX_CONFIDENCE) 2.
Proof. intros H. unfold F64.constrain_confidence. rewrite H. reflexivity. Qed.

Lemma round_half_even_tie (q : Q) :
  inject_Z (round_half_even q) - q == 1 # 2
  \/ q - inject_Z (round_half_even q) == 1 # 2 ->
  Z.even (round_half_even q) = true.
Proof.
  pose proof (Qfloor_le q) as Hl. pose proof (Qlt_floor q) as Hu.
  rewrite inject_Z_plus in Hu. change (inject_Z 1) with 1 in Hu.
  unfold round_half_even.
  destruct (Qcompare (q - inject_Z (Qfloor q)) (1 # 2)) eqn:E; cmp_hyps.
  - destruct (Z.even (Qfloor q)) eqn:Ev; [intros _; exact Ev|].
    intros _. rewrite Z.add_1_r, Z.even_succ, <- Z.negb_even, Ev. reflexivity.
  - intros [H|H]; exfalso; lra.
  - rewrite inject_Z_plus. change (inject_Z 1) with 1.
    intros [H|H]; exfalso; lra.
Qed.

(** Below the threshold and for a finite cap [c], the result is the
    float of the hundredth nearest to [c], the even one at a tie. *)
Lemma constrain_confidence_float_rounds (raw : F64.float) (c : Q) :
  F64.gt raw (F64.rne (90 # 100)) = false ->
  F64.py_min raw F64.MAX_CONFIDENCE = F64.Finite c ->
  exists k : Z,
    F64.constrain_confidence raw = F64.rne (inject_Z k / 100)
    /\ c * 100 - (1 # 2) <= inject_Z k
    /\ inject_Z k <= c * 100 + (1 # 2)
    /\ (inject_Z k - c * 100 == 1 # 2 \/ c * 100 - inject_Z k == 1 # 2 ->
        Z.even k = true)
    /\ (k <= 80)%Z.
Proof.
  intros Hgt Hc. exists (round_half_even (c * 100)).
  rewrite (constrain_confidence_float_low raw Hgt), Hc.
  destruct (round_half_even_near (c * 100)) as [N1 N2].
  split; [reflexivity|]. split; [exact N1|]. split; [exact N2|].
  split; [apply round_half_even_tie|].
  assert (Hle : c <= 3602879701896397 # 4503599627370496).
  { assert (Hn : raw <> F64.NaN).
    { intros ->. destruct float_literals as (EM & _). rewrite EM in Hc.
      cbv beta iota delta [F64.py_min F64.lt] in Hc. discriminate Hc. }
    destruct (py_min_float raw) as [_ H]. destruct (H Hn) as [_ H2].
    rewrite Hc in H2. destruct float_literals as (EM & _). rewrite EM in H2.
    apply le_finite_inv in H2. exact H2. }
  apply round_half_even_upper. change (inject_Z 80) with 80. lra.
Qed.

Lemma hundredth_le_cap (k : Z) :
  (k <= 80)%Z -> F64.le (F64.rne (inject_Z k / 100)) F64.MAX_CONFIDENCE = true.
Proof.
  intros Hk. unfold F64.MAX_CONFIDENCE.
  apply rne_le_binade; [lra | lra |].
  rewrite Zle_Qle in Hk. change (inject_Z 80) with 80 in Hk.
  unfold Qdiv. change (/ 100) with (1 # 100). lra.
Qed.

Lemma constrain_confidence_float_nan (raw : F64.float) :
  F64.constrain_confidence raw = F64.NaN <-> raw = F64.NaN.
Proof.
  split.
  - intros H. destruct (F64.gt raw (F64.rne (90 # 100))) eqn:Hgt.
    + destruct (constrain_confidence_float_high raw Hgt) as [_ E].
      rewrite E in H. exfalso. exact (rne_not_nan _ H).
    + rewrite (constrain_confidence_float_low raw Hgt) in H.
      destruct (py_min_float raw) as [[E|E] _]; rewrite E in H.
      * destruct raw as [q| | |]; try discriminate H; [|reflexivity].
        exfalso. exact (rne_not_nan _ H).
      * exfalso. unfold F64.MAX_CONFIDENCE, F64.py_round in H.
        destruct (F64.rne (80 # 100)) eqn:E80; try discriminate H.
        -- exact (rne_not_nan _ H).
        -- exact (rne_not_nan _ E80).
  - intros ->. vm_compute. reflexivity.
Qed.

Lemma constrain_confidence_float_le_cap (raw : F64.float) :
  raw <> F64.NaN ->
  F64.le (F64.constrain_confidence raw) F64.MAX_CONFIDENCE = true.
Proof.
  intros Hn. destruct (F64.gt raw (F64.rne (90 # 100))) eqn:Hgt.
  - destruct (constrain_confidence_float_high raw Hgt) as [_ ->].
    vm_compute. reflexivity.
  - destruct (F64.py_min raw F64.MAX_CONFIDENCE) as [c| | |] eqn:Ec.
    + destruct (constrain_confidence_float_rounds raw c Hgt Ec)
        as (k & -> & _ & _ & _ & Hk).
      apply hundredth_le_cap. exact Hk.
    + exfalso. destruct (py_min_float raw) as [_ H]. destruct (H Hn) as [_ H2].
      rewrite Ec in H2. destruct float_literals as (EM & _). rewrite EM in H2.
      discriminate H2.
    + rewrite (constrain_confidence_float_low raw Hgt), Ec.
      destruct float_literals as (EM & _). rewrite EM. reflexivity.
    + exfalso. destruct (py_min_float raw) as [[E|E] _]; rewrite E in Ec.
      * contradiction.
      * destruct float_literals as (EM & _). rewrite EM in Ec. discriminate Ec.
Qed.

(** The real-number reading and the floats agree, up to the last
    conversion to a float, except between 9/10 and the float 0.90,
    which is a little above 9/10: there the float is not above the
    threshold of the code and the real number is. *)
Lemma constrain_confidence_float_real (q : Q) :
  q <= 90 # 100 \/ F64.gt (F64.Finite q) (F64.rne (90 # 100)) = true ->
  F64.constrain_confidence (F64.Finite q) = F64.rne (constrain_confidence q).
Proof.
  destruct float_literals as (EM & E90 & _).
  intros [Hlow|Hhigh].
  - assert (Hgt : F64.gt (F64.Finite q) (F64.rne (90 # 100)) = false).
    { rewrite E90. unfold F64.gt, F64.lt. apply Qltb_ge. lra. }
    rewrite (constrain_confidence_float_low _ Hgt).
    rewrite (constrain_confidence_low q Hlow).
    rewrite EM. unfold F64.py_min, F64.lt, MAX_CONFIDENCE.
    assert (E80 : round_half_even ((80 # 100) * inject_Z (10 ^ Z.of_nat 2)) = 80%Z)
      by reflexivity.
    destruct (Qltb _ q) eqn:E; unfold F64.py_round; f_equal.
    + apply Qltb_lt in E. rewrite py_min_above by lra.
      unfold py_round. rewrite E80. reflexivity.
    + apply Qltb_ge in E. destruct (Qlt_le_dec (80 # 100) q) as [Hq|Hq].
      * rewrite py_min_above by exact Hq. unfold py_round. rewrite E80.
        f_equal. f_equal. change (inject_Z (10 ^ Z.of_nat 2)) with 100.
        apply Z.le_antisymm.
        -- apply round_half_even_upper. change (inject_Z 80) with 80. lra.
        -- apply round_half_even_lower. change (inject_Z 80) with 80. lra.
      * rewrite py_min_below by exact Hq. reflexivity.
  - destruct (constrain_confidence_float_high _ Hhigh) as [_ ->].
    rewrite E90 in Hhigh. unfold F64.gt, F64.lt in Hhigh. apply Qltb_lt in Hhigh.
    rewrite constrain_confidence_high by lra. vm_compute. reflexivity.
Qed.

End FloatFacts.


(** ** Trend detection *)

Section TrendFacts.

Import Trend.

Variable linregress_p_value : list Q -> list Q -> Q.

(** The example of numpy's documentation:
    [np.correlate([1, 2, 3], [0, 1, 0.5], "full")] is
    [[0.5, 2., 3.5, 3., 0.]]. *)
Example correlate_full_numpy :
  map Qred (correlate_full [1; 2; 3] [0; 1; 1 # 2])
  = [1 # 2; 2; 7 # 2; 3; 0].
Proof. reflexivity. Qed.

(** The other scenario of the specification: seven strictly increasing
    points with a significant fit are reported as [increasing]. *)
Example detect_trend_increasing (dates : list Z) :
  let series := [20 # 100; 25 # 100; 30 # 100; 35 # 100; 40 # 100; 45 # 100; 50 # 100] in
  linregress_p_value (arange 7) series <= 5 # 100 ->
  direction_of (detect_trend linregress_p_value series dates) = increasing.
Proof.
  intros series Hp. unfold detect_trend.
  change (List.length series <? 7)%nat with false.
  change (is_cyclical series) with false.
  cbv iota.
  apply Qltb_ge in Hp. unfold Qgtb at 1.
  change (List.length series) with 7%nat. rewrite Hp.
  assert (Hs : Qgtb (linregress_slope (arange 7) series) (1 # 100) = true)
    by (vm_compute; reflexivity).
  rewrite Hs. reflexivity.
Qed.

Lemma detect_trend_flat (values : list Q) (dates : list Z) :
  (List.length values <? 7)%nat = false ->
  is_cyclical values = false ->
  Qgtb (linregress_slope (arange (List.length values)) values) (1 # 100) = false ->
  Qltb (linregress_slope (arange (List.length values)) values) (- (1 # 100)) = false ->
  direction_of (detect_trend linregress_p_value values dates) = stable
  /\ slope_of (detect_trend linregress_p_value values dates)
     = linregress_slope (arange (List.length values)) values.
Proof.
  intros Hlen Hcyc Hup Hdown. unfold detect_trend.
  rewrite Hlen, Hcyc, Hup, Hdown. clear.
  destruct (Qgtb (linregress_p_value _ _) _); split; reflexivity.
Qed.

(** C2: a series of fewer than 7 observations is reported as
    [insufficient_data] with slope 0 and confidence (r squared) 0,
    whatever its values. *)
Theorem detect_trend_short (values : list Q) (dates : list Z) :
  (List.length values < 7)%nat ->
  detect_trend linregress_p_value values dates = (insufficient_data, 0, 0)
  /\ direction_of (detect_trend linregress_p_value values dates)
     = insufficient_data
  /\ r_squared_of (detect_trend linregress_p_value values dates) = 0.
Proof.
  intros H. unfold detect_trend.
  apply Nat.ltb_lt in H. rewrite H. repeat split.
Qed.

Lemma alternating_series_stable (dates : list Z) :
  is_cyclical alternating_series = false
  /\ direction_of (detect_trend linregress_p_value alternating_series dates) = stable
  /\ slope_of (detect_trend linregress_p_value alternating_series dates) == - (2 # 325).
Proof.
  assert (Hl : (List.length alternating_series <? 7)%nat = false) by reflexivity.
  assert (Hc : is_cyclical alternating_series = false)
    by (vm_compute; reflexivity).
  assert (Hup : Qgtb (linregress_slope (arange (List.length alternating_series))
                        alternating_series) (1 # 100) = false)
    by (vm_compute; reflexivity).
  assert (Hdown : Qltb (linregress_slope (arange (List.length alternating_series))
                          alternating_series) (- (1 # 100)) = false)
    by (vm_compute; reflexivity).
  destruct (detect_trend_flat alternating_series dates Hl Hc Hup Hdown) as [Hd Hs].
  split; [|split].
  - exact Hc.
  - exact Hd.
  - revert Hs.
    generalize (slope_of (detect_trend linregress_p_value alternating_series dates)).
    intros q ->. vm_compute. reflexivity.
Qed.

(** C5, as the code has it: on the 14-point alternating series the
    normalised autocorrelation at lag 7 is -1/2, so [is_cyclical] is
    false; the fitted slope is -2/325, inside the +-0.01 band, so the
    series is reported as [stable] whatever the p-value. *)
Theorem detect_trend_alternating (dates : list Z) :
  normalized_autocorr alternating_series 7 == - (1 # 2)
  /\ is_cyclical alternating_series = false
  /\ direction_of (detect_trend linregress_p_value alternating_series dates) = stable
  /\ slope_of (detect_trend linregress_p_value alternating_series dates) == - (2 # 325).
Proof.
  split; [vm_compute; reflexivity | apply alternating_series_stable].
Qed.

End TrendFacts.

(** Six observations, however steep, are not enough. *)
Lemma detect_trend_short_witness :
  Trend.detect_trend (fun _ _ => 0) [0; 1; 2; 3; 4; 5] [1; 2; 3; 4; 5; 6]%Z
  = (Trend.insufficient_data, 0, 0)
  /\ Trend.direction_of
       (Trend.detect_trend (fun _ _ => 0) [0; 1; 2; 3; 4; 5] [1; 2; 3; 4; 5; 6]%Z)
     = Trend.insufficient_data
  /\ Trend.r_squared_of
       (Trend.detect_trend (fun _ _ => 0) [0; 1; 2; 3; 4; 5] [1; 2; 3; 4; 5; 6]%Z)
     = 0.
Proof.
  apply (detect_trend_short (fun _ _ => 0) [0; 1; 2; 3; 4; 5] [1; 2; 3; 4; 5; 6]%Z).
  simpl. lia.
Defined.

(** C5, as stated, fails: no p-value makes the alternating series
    [cyclical]. *)
Lemma alternating_not_cyclical :
  ~ (exists (p : list Q -> list Q -> Q) (dates : list Z),
       Trend.direction_of (Trend.detect_trend p Trend.alternating_series dates)
       = Trend.cyclical).
Proof.
  intros (p & dates & H).
  pose proof (alternating_series_stable p dates) as Ha.
  apply proj2, proj1 in Ha.
  pose proof (eq_trans (eq_sym Ha) H) as E. discriminate E.
Qed.

(** ** Certainty scoring *)

Section CertaintyFacts.

Import Certainty.

Lemma member_In (w : string) (lexicon : list string) :
  member w lexicon = true <-> In w lexicon.
Proof.
  unfold member. rewrite existsb_exists. split.
  - intros (x & Hx & E). apply String.eqb_eq in E. subst. exact Hx.
  - intros H. exists w. split; [exact H | apply String.eqb_refl].
Qed.

Lemma count_in_none (lexicon words : list string) :
  (forall w, In w words -> ~ In w lexicon) -> count_in lexicon words = 0%nat.
Proof.
  unfold count_in. induction words as [|w ws IH]; intros H; simpl.
  - reflexivity.
  - destruct (member w lexicon) eqn:E.
    + apply member_In in E. exfalso. apply (H w); [left; reflexivity | exact E].
    + apply IH. intros v Hv. apply H. right. exact Hv.
Qed.

Lemma count_in_some (lexicon words : list string) (w : string) :
  In w words -> In w lexicon -> (0 < count_in lexicon words)%nat.
Proof.
  unfold count_in. intros Hw Hl.
  assert (Hin : In w (filter (fun v => member v lexicon) words)).
  { apply filter_In. split; [exact Hw | apply member_In, Hl]. }
  destruct (filter _ words); [destruct Hin | simpl; lia].
Qed.

Lemma py_truediv_defined (a b : nat) :
  (0 < b)%nat -> (a <= b)%nat ->
  exists q, py_truediv a b = Some q /\ 0 <= q <= 1.
Proof.
  intros Hb Hab. destruct b as [|b']; [lia|].
  exists (Z.of_nat a # Pos.of_nat (S b')). split; [reflexivity|].
  unfold Qle. simpl Qnum. simpl Qden.
  rewrite !Z.mul_1_r, Z.mul_1_l.
  replace (Z.pos (Pos.of_nat (S b'))) with (Z.of_nat (S b')).
  - lia.
  - rewrite <- Pos.of_nat_succ. rewrite Zpos_P_of_succ_nat. lia.
Qed.

(** C9: [calculate_certainty] returns a value for every text (the
    division is never by zero), the value lies in [0, 1], and it is the
    neutral 0.5 whenever no word of the text is in either lexicon. *)
Theorem calculate_certainty_total (text : string) :
  exists q : Q,
    calculate_certainty text = Some q
    /\ 0 <= q <= 1
    /\ ((forall w, In w (split (lower text)) ->
           ~ In w HEDGING_WORDS /\ ~ In w CERTAINTY_WORDS) ->
        q = 5 # 10).
Proof.
  unfold calculate_certainty.
  set (words := split (lower text)).
  destruct (count_in HEDGING_WORDS words + count_in CERTAINTY_WORDS words =? 0)%nat
    eqn:E.
  - exists (5 # 10). split; [reflexivity|]. split; [|reflexivity].
    split; unfold Qle; simpl; lia.
  - apply Nat.eqb_neq in E.
    destruct (py_truediv_defined (count_in CERTAINTY_WORDS words)
                (count_in HEDGING_WORDS words + count_in CERTAINTY_WORDS words))
      as (q & Hq & Hb); [lia | lia |].
    exists q. split; [exact Hq|]. split; [exact Hb|].
    intros Hnone. exfalso. apply E.
    rewrite !count_in_none; [reflexivity | |]; intros w Hw; apply (Hnone w Hw).
Qed.

(** The neutral branch is taken only by such texts: one lexicon word
    is enough to leave it. *)
Lemma calculate_certainty_nonneutral_branch (text w : string) :
  In w (split (lower text)) ->
  In w HEDGING_WORDS \/ In w CERTAINTY_WORDS ->
  calculate_certainty text
  = py_truediv (count_in CERTAINTY_WORDS (split (lower text)))
      (count_in HEDGING_WORDS (split (lower text))
       + count_in CERTAINTY_WORDS (split (lower text))).
Proof.
  intros Hw Hl. unfold calculate_certainty.
  destruct (_ =? 0)%nat eqn:E; [|reflexivity].
  apply Nat.eqb_eq in E. exfalso.
  destruct Hl as [Hl|Hl]; pose proof (count_in_some _ _ _ Hw Hl); lia.
Qed.

Example calculate_certainty_examples :
  calculate_certainty "I Might be SURE never know" = Some (3 # 4)
  /\ calculate_certainty "went for a walk today" = Some (5 # 10)
  /\ calculate_certainty "" = Some (5 # 10)
  /\ calculate_certainty "maybe, perhaps." = Some (5 # 10).
Proof. repeat split. Qed.

End CertaintyFacts.

(** ** Registration page *)

Section RegisterFacts.

Import Register.

Variable register_result : jsstring -> jsstring -> ApiResult.
Variable login_result : jsstring -> jsstring -> ApiResult.

Lemma test_class_spec (lo hi : N) (s : jsstring) :
  test_class lo hi s = true <-> exists c, In c s /\ (lo <= c <= hi)%N.
Proof.
  unfold test_class. rewrite existsb_exists.
  split; intros (c & Hc & H); exists c; (split; [exact Hc|]).
  - apply andb_true_iff in H. destruct H as [H1 H2].
    apply N.leb_le in H1. apply N.leb_le in H2. lia.
  - apply andb_true_iff. split; apply N.leb_le; lia.
Qed.

Lemma jsstring_eqb_eq (a b : jsstring) : jsstring_eqb a b = true <-> a = b.
Proof.
  unfold jsstring_eqb. destruct (list_eq_dec N.eq_dec a b); split; congruence.
Qed.

Lemma isPasswordValid_spec (st : State) :
  isPasswordValid st = true
  <-> meets_requirements (password st) (confirmPassword st).
Proof.
  unfold isPasswordValid, passwordChecks, meets_requirements, forallb.
  cbn [length_check lowercase uppercase number match_check].
  rewrite !andb_true_iff, !test_class_spec, jsstring_eqb_eq.
  rewrite Nat.leb_le, Nat.ltb_lt.
  split.
  - intros (Hlen & Hlo & Hup & Hnum & (Heq & Hne) & _).
    repeat (split; [assumption|]). split; [|congruence].
    destruct (confirmPassword st); [simpl in Hne; lia | discriminate].
  - intros (Hlen & Hlo & Hup & Hnum & Hne & Heq).
    repeat (split; [assumption|]). split; [|reflexivity].
    split; [congruence|].
    destruct (confirmPassword st); [congruence | simpl; lia].
Qed.

Lemma handleSubmit_invalid (st : State) :
  isPasswordValid st = false ->
  handleSubmit register_result login_result st
  = (set_error (js "Please meet all password requirements")
       (set_error (js "") st), [PreventDefault]).
Proof.
  intros H. unfold handleSubmit. rewrite H. reflexivity.
Qed.

Lemma handleSubmit_valid (st : State) :
  isPasswordValid st = true ->
  exists rest,
    snd (handleSubmit register_result login_result st)
    = PreventDefault :: ApiRegister (email st) (password st) :: rest.
Proof.
  intros H. unfold handleSubmit. rewrite H. simpl.
  destruct (register_result _ _); [destruct (login_result _ _)|]; simpl;
    eexists; reflexivity.
Qed.

(** C10: the submit handler calls [api.register] exactly when the
    password is at least 8 long, has a lower-case letter, an upper-case
    letter and a digit, and the confirmation is non-empty and equal to
    it; otherwise it sets the error message and calls no API. *)
Theorem handleSubmit_gate (st : State) :
  ((exists e p,
      In (ApiRegister e p) (snd (handleSubmit register_result login_result st)))
   <-> meets_requirements (password st) (confirmPassword st))
  /\ (~ meets_requirements (password st) (confirmPassword st) ->
      error (fst (handleSubmit register_result login_result st))
      = js "Please meet all password requirements"
      /\ filter is_api_call (snd (handleSubmit register_result login_result st))
         = []).
Proof.
  destruct (isPasswordValid st) eqn:E.
  - pose proof (proj1 (isPasswordValid_spec st) E) as Hm.
    destruct (handleSubmit_valid st E) as (rest & Hfx).
    split.
    + split; [intros _; exact Hm|]. intros _.
      exists (email st), (password st). rewrite Hfx. right. left. reflexivity.
    + intros Hn. contradiction.
  - assert (Hn : ~ meets_requirements (password st) (confirmPassword st)).
    { intros Hm. apply isPasswordValid_spec in Hm. congruence. }
    rewrite (handleSubmit_invalid st E). simpl.
    split.
    + split; [|intros Hm; contradiction].
      intros (e & p & [H|[]]). discriminate H.
    + intros _. split; reflexivity.
Qed.

End RegisterFacts.

(** ** Reflection synthesis *)

Section SynthFacts.

Import Synth.

Variable similarity : list Q -> list Q -> Q.
Variable min_similarity : Q.
Variable corpus : list Concept.
Variable top_k : nat.
Variable language_ok : string -> bool.
Variable compose : Candidate -> list (N * Q) -> string.
Variable trace_of : Candidate -> list (N * Q) -> Q -> AuditTrace.

Local Abbreviation retrieve' := (retrieve similarity min_similarity corpus top_k).
Local Abbreviation step' :=
  (step similarity min_similarity corpus top_k language_ok compose trace_of).
Local Abbreviation apply' :=
  (apply_event similarity min_similarity corpus top_k language_ok compose trace_of).
Local Abbreviation run' :=
  (run_events similarity min_similarity corpus top_k language_ok compose trace_of).
Local Abbreviation apply_op' :=
  (Account.apply_op similarity min_similarity corpus top_k language_ok compose
     trace_of).
Local Abbreviation run_ops' :=
  (Account.run_ops similarity min_similarity corpus top_k language_ok compose
     trace_of).

(** *** Counting accepted reflections *)

Lemma in_window_spec (u : N) (lo hi : Z) (r : Reflection) :
  in_window u lo hi r = true
  <-> r_user r = u /\ (lo < r_created_at r <= hi)%Z.
Proof.
  unfold in_window. rewrite !andb_true_iff, N.eqb_eq, Z.ltb_lt, Z.leb_le. tauto.
Qed.

Lemma accepted_in_insert_fresh (u : N) (lo hi : Z) (id : N) (r : Reflection)
    (m : gmap N Reflection) :
  m !! id = None ->
  accepted_in u lo hi (<[id := r]> m)
  = (accepted_in u lo hi m + (if in_window u lo hi r then 1 else 0))%nat.
Proof.
  intros Hid. unfold accepted_in. destruct (in_window u lo hi r) eqn:E.
  - rewrite map_filter_insert_True by exact E.
    rewrite map_size_insert_None; [lia|].
    apply map_lookup_filter_None_2. left. exact Hid.
  - rewrite map_filter_insert_False by (simpl; congruence).
    rewrite delete_id by exact Hid. lia.
Qed.

Lemma accepted_in_insert_same (u : N) (lo hi : Z) (id : N) (r r' : Reflection)
    (m : gmap N Reflection) :
  m !! id = Some r ->
  in_window u lo hi r' = in_window u lo hi r ->
  accepted_in u lo hi (<[id := r']> m) = accepted_in u lo hi m.
Proof.
  intros Hr Hw.
  transitivity (accepted_in u lo hi (<[id := r]> (delete id m))).
  - rewrite <- (insert_delete_eq m id r').
    rewrite !accepted_in_insert_fresh by apply lookup_delete_eq.
    rewrite Hw. reflexivity.
  - f_equal. apply insert_delete_id. exact Hr.
Qed.

Lemma accepted_in_mono (u : N) (lo hi lo' hi' : Z) (m : gmap N Reflection) :
  (forall id r, m !! id = Some r ->
                in_window u lo hi r = true -> in_window u lo' hi' r = true) ->
  (accepted_in u lo hi m <= accepted_in u lo' hi' m)%nat.
Proof.
  intros H. unfold accepted_in. apply map_subseteq_size.
  apply map_filter_subseteq_ext. intros i x Hx HP. simpl in *.
  exact (H i x Hx HP).
Qed.

Lemma accepted_in_empty (u : N) (lo hi : Z) : accepted_in u lo hi ∅ = 0%nat.
Proof. unfold accepted_in. rewrite map_filter_empty. apply map_size_empty. Qed.

(** *** Dismissal *)

Lemma dismiss_audit (u id : N) (now : Z) (s : Store) :
  audit_traces (dismiss u id now s) = audit_traces s.
Proof.
  unfold dismiss. destruct (reflections s !! id); [|reflexivity].
  destruct (_ && _); reflexivity.
Qed.

Lemma dismiss_dom (u id : N) (now : Z) (s : Store) :
  dom (reflections (dismiss u id now s)) = dom (reflections s).
Proof.
  unfold dismiss. destruct (reflections s !! id) eqn:E; [|reflexivity].
  destruct (_ && _); [|reflexivity]. simpl.
  apply dom_insert_lookup_L. rewrite E. eexists. reflexivity.
Qed.

Lemma dismiss_lookup (u id : N) (now : Z) (s : Store) (j : N) (r' : Reflection) :
  reflections (dismiss u id now s) !! j = Some r' ->
  exists r, reflections s !! j = Some r
            /\ r_confidence_score r' = r_confidence_score r
            /\ r_created_at r' = r_created_at r.
Proof.
  unfold dismiss. destruct (reflections s !! id) as [r|] eqn:E.
  - destruct (_ && _); simpl.
    + destruct (decide (id = j)) as [->|Hne].
      * rewrite lookup_insert_eq. intros [= <-]. exists r. simpl. auto.
      * rewrite lookup_insert_ne by exact Hne. intros H. exists r'. auto.
    + intros H. exists r'. auto.
  - intros H. exists r'. auto.
Qed.

Lemma dismiss_accepted_in (u id : N) (now : Z) (s : Store) (v : N) (lo hi : Z) :
  accepted_in v lo hi (reflections (dismiss u id now s))
  = accepted_in v lo hi (reflections s).
Proof.
  unfold dismiss. destruct (reflections s !! id) as [r|] eqn:E; [|reflexivity].
  destruct (_ && _); [|reflexivity]. simpl.
  apply (accepted_in_insert_same v lo hi id r); [exact E | reflexivity].
Qed.

(** *** One transition of a run *)

Lemma step_store (u : N) (now : Z) (s : Store) (r : Run) :
  step' u now s r = (s, snd (step' u now s r))
  \/ exists content concepts final_confidence,
       run_phase r = PolicyChecked content concepts
       /\ policy_steps_2_4 language_ok u now (reflections s) (run_input r) content
          = Accept final_confidence
       /\ step' u now s r
          = (persist (fresh (dom (reflections s) ∪ dom (audit_traces s)))
               {| r_user := u; r_content := content;
                  r_entry_ids := entry_ids (run_input r);
                  r_concepts_used := concepts;
                  r_confidence_score := final_confidence;
                  r_created_at := now; r_dismissed_at := None |}
               (trace_of (run_input r) concepts final_confidence) s,
             {| run_input := run_input r;
                run_phase :=
                  Emitted (fresh (dom (reflections s) ∪ dom (audit_traces s))) |}).
Proof.
  destruct r as [c p]. destruct p; unfold step; simpl;
    try (left; reflexivity).
  - left. destruct (eligible c); reflexivity.
  - left. destruct (retrieve' _ _); reflexivity.
  - destruct (policy_steps_2_4 _ _ _ _ _ _) as [conf|reason] eqn:E.
    + right. exists content, concepts, conf. auto.
    + left. reflexivity.
Qed.

Lemma step_rejected_unchanged (u : N) (now : Z) (s : Store) (r : Run) :
  (forall id, run_phase (snd (step' u now s r)) <> Emitted id) ->
  fst (step' u now s r) = s.
Proof.
  intros H. destruct (step_store u now s r) as [E|(ct & cs & cf & _ & _ & E)].
  - rewrite E. reflexivity.
  - exfalso. rewrite E in H. simpl in H. eapply H. reflexivity.
Qed.

Lemma policy_accept_rate_ok (u : N) (now : Z) (m : gmap N Reflection)
    (c : Candidate) (content : string) (conf : Q) :
  policy_steps_2_4 language_ok u now m c content = Accept conf ->
  (accepted_in u (now - WINDOW) now m < MAX_ACCEPTED)%nat
  /\ conf = constrain_confidence (raw_confidence c)
  /\ language_ok content = true.
Proof.
  unfold policy_steps_2_4, rate_limit_ok.
  destruct (_ <? _)%nat eqn:E; simpl; [|discriminate].
  destruct (language_ok content); simpl; [|discriminate].
  intros [= <-]. apply Nat.ltb_lt in E. auto.
Qed.

Lemma policy_rate_limited (u : N) (now : Z) (m : gmap N Reflection)
    (c : Candidate) (content : string) :
  (MAX_ACCEPTED <= accepted_in u (now - WINDOW) now m)%nat ->
  policy_steps_2_4 language_ok u now m c content = Reject rate_limited.
Proof.
  intros H. unfold policy_steps_2_4, rate_limit_ok.
  apply Nat.ltb_ge in H. rewrite H. reflexivity.
Qed.

(** *** The invariant of the service *)

Lemma fresh_id_unused (s : Store) :
  reflections s !! fresh (dom (reflections s) ∪ dom (audit_traces s)) = None
  /\ audit_traces s !! fresh (dom (reflections s) ∪ dom (audit_traces s)) = None.
Proof.
  pose proof (is_fresh (dom (reflections s) ∪ dom (audit_traces s))) as H.
  apply not_elem_of_union in H. destruct H as [H1 H2].
  split; apply not_elem_of_dom; assumption.
Qed.

Lemma consistent_initial (t0 : Z) : consistent (initial t0).
Proof.
  unfold consistent, initial. simpl. split; [|split; [|split]].
  - rewrite !dom_empty_L. reflexivity.
  - intros id r H. rewrite lookup_empty in H. discriminate.
  - intros u lo. rewrite accepted_in_empty. unfold MAX_ACCEPTED. lia.
  - intros id r H. rewrite lookup_empty in H. discriminate.
Qed.

Lemma consistent_same (sys sys' : System) :
  store sys' = store sys -> clock sys' = clock sys ->
  consistent sys -> consistent sys'.
Proof. unfold consistent. intros -> ->. tauto. Qed.

Lemma consistent_persist (sys : System) (u : N) (r : Reflection)
    (a : AuditTrace) (rs : gmap N Run) :
  consistent sys ->
  r_user r = u -> r_created_at r = clock sys ->
  r_confidence_score r <= MAX_CONFIDENCE ->
  (accepted_in u (clock sys - WINDOW) (clock sys) (reflections (store sys))
   < MAX_ACCEPTED)%nat ->
  consistent
    {| store := persist (fresh (dom (reflections (store sys))
                                ∪ dom (audit_traces (store sys)))) r a (store sys);
       clock := clock sys; runs := rs |}.
Proof.
  intros (Hdom & Hpast & Hcount & Hconf) Hu Ht Hcap Hrate.
  destruct (fresh_id_unused (store sys)) as [Hfr _].
  unfold consistent, persist. simpl. split; [|split; [|split]].
  - rewrite !dom_insert_L, Hdom. reflexivity.
  - intros j r' Hj.
    destruct (decide (fresh (dom (reflections (store sys))
                             ∪ dom (audit_traces (store sys))) = j)) as [E|E].
    + rewrite E in Hj. rewrite lookup_insert_eq in Hj.
      injection Hj as <-. lia.
    + rewrite lookup_insert_ne in Hj by exact E. exact (Hpast j r' Hj).
  - intros v lo. rewrite accepted_in_insert_fresh by exact Hfr.
    destruct (in_window v lo (lo + WINDOW) r) eqn:Ew.
    + apply in_window_spec in Ew. destruct Ew as [Ev Hin].
      assert (v = u) as -> by congruence.
      assert (Hle : (accepted_in u lo (lo + WINDOW) (reflections (store sys))
                     <= accepted_in u (clock sys - WINDOW) (clock sys)
                          (reflections (store sys)))%nat).
      { apply accepted_in_mono. intros j r' Hj Hw.
        apply in_window_spec in Hw. apply in_window_spec.
        pose proof (Hpast j r' Hj). split; [tauto | lia]. }
      unfold MAX_ACCEPTED in *. lia.
    + specialize (Hcount v lo). lia.
  - intros j r' Hj.
    destruct (decide (fresh (dom (reflections (store sys))
                             ∪ dom (audit_traces (store sys))) = j)) as [E|E].
    + rewrite E in Hj. rewrite lookup_insert_eq in Hj.
      injection Hj as <-. exact Hcap.
    + rewrite lookup_insert_ne in Hj by exact E. exact (Hconf j r' Hj).
Qed.

Lemma consistent_apply (sys : System) (e : Event) :
  consistent sys -> consistent (apply' sys e).
Proof.
  intros Hc. destruct e as [u c|u|u|u id|dt]; simpl.
  - destruct (runs sys !! u) as [r|]; [destruct (terminal (run_phase r))|];
      first [exact Hc | apply (consistent_same sys); [reflexivity..|exact Hc]].
  - destruct (runs sys !! u) as [r|]; [|exact Hc].
    destruct (step_store u (clock sys) (store sys) r)
      as [E|(ct & cs & cf & _ & Hpol & E)]; rewrite E.
    + apply (consistent_same sys); [reflexivity..|exact Hc].
    + apply policy_accept_rate_ok in Hpol. destruct Hpol as (Hrate & -> & _).
      apply (consistent_persist sys u);
        [exact Hc | reflexivity | reflexivity | | exact Hrate].
      apply constrain_confidence_le_cap.
  - apply (consistent_same sys); [reflexivity..|exact Hc].
  - destruct Hc as (Hdom & Hpast & Hcount & Hconf).
    unfold consistent. simpl. split; [|split; [|split]].
    + rewrite dismiss_dom, dismiss_audit. exact Hdom.
    + intros j r' Hj. apply dismiss_lookup in Hj.
      destruct Hj as (r & Hr & _ & Ht). rewrite Ht. exact (Hpast j r Hr).
    + intros v lo. rewrite dismiss_accepted_in. apply Hcount.
    + intros j r' Hj. apply dismiss_lookup in Hj.
      destruct Hj as (r & Hr & Hs & _). rewrite Hs. exact (Hconf j r Hr).
  - destruct Hc as (Hdom & Hpast & Hcount & Hconf).
    unfold consistent. simpl.
    split; [exact Hdom | split; [|split; [exact Hcount | exact Hconf]]].
    intros j r Hj. specialize (Hpast j r Hj). lia.
Qed.

Lemma consistent_run (evs : list Event) (sys : System) :
  consistent sys -> consistent (run' sys evs).
Proof.
  revert sys. induction evs as [|e evs IH]; intros sys Hc; simpl.
  - exact Hc.
  - apply IH. apply consistent_apply. exact Hc.
Qed.

(** Every reflection the service has stored carries a confidence
    score within the cap, so the CHECK of the table accepts it. *)
Lemma stored_confidence_capped (t0 : Z) (evs : list Event) (id : N)
    (r : Reflection) :
  reflections (store (run' (initial t0) evs)) !! id = Some r ->
  r_confidence_score r <= 80 # 100
  /\ reflections_confidence_check (r_confidence_score r) = true.
Proof.
  intros H.
  destruct (consistent_run evs (initial t0) (consistent_initial t0))
    as (_ & _ & _ & Hconf).
  specialize (Hconf id r H).
  split; [exact Hconf|]. apply Qle_bool_iff. exact Hconf.
Qed.

(** *** Eligibility *)

Lemma eligible_spec (c : Candidate) :
  eligible c = true
  <-> (3 <= List.length (entry_ids c))%nat /\ (7 <= span_days c)%nat.
Proof.
  unfold eligible. rewrite andb_true_iff, !Nat.leb_le. tauto.
Qed.

(** C3: the eligibility gate accepts a candidate exactly when it has
    at least 3 contributing entries spanning at least 7 days; 2 entries
    over 10 days and 3 entries over 6 days are ineligible, 3 entries
    over 7 days are eligible.  The synthesizer's first transition and
    the Policy Engine follow the gate, and an eligible candidate meets
    the [min_entries] CHECK of the [reflections] table. *)
Theorem eligibility_gate :
  (forall c : Candidate,
     eligible c = true
     <-> (3 <= List.length (entry_ids c))%nat /\ (7 <= span_days c)%nat)
  /\ (forall c : Candidate,
        List.length (entry_ids c) = 2%nat -> span_days c = 10%nat ->
        eligible c = false)
  /\ (forall c : Candidate,
        List.length (entry_ids c) = 3%nat -> span_days c = 6%nat ->
        eligible c = false)
  /\ (forall c : Candidate,
        List.length (entry_ids c) = 3%nat -> span_days c = 7%nat ->
        eligible c = true)
  /\ (forall (u : N) (now : Z) (s : Store) (c : Candidate),
        step' u now s {| run_input := c; run_phase := Collecting |}
        = (s, {| run_input := c;
                 run_phase := if eligible c then Eligible else Ineligible |}))
  /\ (forall (u : N) (now : Z) (m : gmap N Reflection) (c : Candidate)
             (content : string),
        eligible c = false ->
        policy_evaluate language_ok u now m c content
        = Reject insufficient_evidence)
  /\ (forall c : Candidate,
        eligible c = true -> Schema.min_entries_check (entry_ids c) = true).
Proof.
  split; [exact eligible_spec|].
  split; [intros c H1 H2; unfold eligible; rewrite H1, H2; reflexivity|].
  split; [intros c H1 H2; unfold eligible; rewrite H1, H2; reflexivity|].
  split; [intros c H1 H2; unfold eligible; rewrite H1, H2; reflexivity|].
  split; [intros u now s c; unfold step; simpl; destruct (eligible c); reflexivity|].
  split; [intros u now m c content H; unfold policy_evaluate; rewrite H; reflexivity|].
  intros c H. apply eligible_spec in H. destruct H as [H _].
  unfold Schema.min_entries_check, Schema.array_length.
  destruct (entry_ids c); [reflexivity|]. apply Nat.leb_le. exact H.
Qed.

(** C4: in every reachable state no user has more than 2 accepted
    reflections in any window of 7 days; a composed candidate that
    arrives when the window already holds 2 is rejected as
    [rate_limited] whatever its confidence, concepts and content; and
    dismissing a reflection changes no count. *)
Theorem rate_limit_invariant :
  (forall (t0 : Z) (evs : list Event) (u : N) (lo : Z),
     (accepted_in u lo (lo + WINDOW)
        (reflections (store (run' (initial t0) evs))) <= 2)%nat)
  /\ (forall (u : N) (now : Z) (s : Store) (c : Candidate)
             (content : string) (concepts : list (N * Q)),
        (2 <= accepted_in u (now - WINDOW) now (reflections s))%nat ->
        step' u now s {| run_input := c;
                         run_phase := PolicyChecked content concepts |}
        = (s, {| run_input := c; run_phase := Rejected rate_limited |}))
  /\ (forall (sys : System) (u id v : N) (lo hi : Z),
        accepted_in v lo hi (reflections (store (apply' sys (Dismiss u id))))
        = accepted_in v lo hi (reflections (store sys))).
Proof.
  split; [|split].
  - intros t0 evs u lo.
    destruct (consistent_run evs (initial t0) (consistent_initial t0))
      as (_ & _ & H & _).
    exact (H u lo).
  - intros u now s c content concepts H. unfold step. simpl.
    rewrite policy_rate_limited by exact H. reflexivity.
  - intros sys u id v lo hi. simpl. apply dismiss_accepted_in.
Qed.

(** *** Emission and the deletion of users *)

Lemma step_into_emitted (u : N) (now : Z) (s : Store) (r : Run) (id : N) :
  run_phase (snd (step' u now s r)) = Emitted id ->
  (run_phase r = Emitted id /\ step' u now s r = (s, r))
  \/ exists content concepts final_confidence,
       run_phase r = PolicyChecked content concepts
       /\ policy_steps_2_4 language_ok u now (reflections s) (run_input r) content
          = Accept final_confidence
       /\ id = fresh (dom (reflections s) ∪ dom (audit_traces s))
       /\ step' u now s r
          = (persist id
               {| r_user := u; r_content := content;
                  r_entry_ids := entry_ids (run_input r);
                  r_concepts_used := concepts;
                  r_confidence_score := final_confidence;
                  r_created_at := now; r_dismissed_at := None |}
               (trace_of (run_input r) concepts final_confidence) s,
             {| run_input := run_input r; run_phase := Emitted id |}).
Proof.
  destruct r as [c p]. destruct p; unfold step; simpl.
  - destruct (eligible c); discriminate.
  - discriminate.
  - discriminate.
  - destruct (retrieve' _ _); discriminate.
  - discriminate.
  - destruct (policy_steps_2_4 _ _ _ _ _ _) as [conf|reason] eqn:E; simpl.
    + intros [= <-]. right. exists content, concepts, conf. auto.
    + discriminate.
  - intros H. left. auto.
  - discriminate.
Qed.

Lemma persist_lookup (id : N) (r : Reflection) (a : AuditTrace) (s : Store) :
  reflections (persist id r a s) !! id = Some r
  /\ audit_traces (persist id r a s) !! id = Some a
  /\ forall j, j <> id ->
       reflections (persist id r a s) !! j = reflections s !! j
       /\ audit_traces (persist id r a s) !! j = audit_traces s !! j.
Proof.
  unfold persist. simpl. split; [apply lookup_insert_eq|].
  split; [apply lookup_insert_eq|].
  intros j Hj. split; apply lookup_insert_ne; congruence.
Qed.

Lemma dismiss_keeps (u id : N) (now : Z) (s : Store) (j : N) (r : Reflection) :
  reflections s !! j = Some r ->
  exists r', reflections (dismiss u id now s) !! j = Some r'
             /\ r_user r' = r_user r.
Proof.
  intros Hj. unfold dismiss. destruct (reflections s !! id) as [r0|] eqn:E.
  - destruct (_ && _); simpl.
    + destruct (decide (id = j)) as [->|Hne].
      * rewrite lookup_insert_eq. eexists. split; [reflexivity|]. simpl. congruence.
      * rewrite lookup_insert_ne by exact Hne. exists r. auto.
    + exists r. auto.
  - exists r. auto.
Qed.

Lemma step_keeps_stored (u : N) (now : Z) (s : Store) (r : Run) (j : N)
    (x : Reflection) :
  reflections s !! j = Some x ->
  is_Some (audit_traces s !! j) ->
  reflections (fst (step' u now s r)) !! j = Some x
  /\ is_Some (audit_traces (fst (step' u now s r)) !! j).
Proof.
  intros Hj Ha.
  destruct (step_store u now s r) as [E|(ct & cs & cf & _ & _ & E)]; rewrite E; simpl.
  - auto.
  - destruct (fresh_id_unused s) as [Hfr _].
    assert (Hne : fresh (dom (reflections s) ∪ dom (audit_traces s)) <> j)
      by congruence.
    rewrite !lookup_insert_ne by exact Hne. auto.
Qed.

Lemma emitted_stored_initial (t0 : Z) : Account.emitted_stored (initial t0).
Proof.
  intros u r id H. simpl in H. rewrite lookup_empty in H. discriminate.
Qed.

Lemma emitted_stored_apply (sys : System) (e : Event) :
  Account.emitted_stored sys -> Account.emitted_stored (apply' sys e).
Proof.
  intros Hinv. destruct e as [u c|u|u|u id|dt].
  - assert (Hnew : Account.emitted_stored
                     {| store := store sys; clock := clock sys;
                        runs := <[u := {| run_input := c; run_phase := Collecting |}]>
                                  (runs sys) |}).
    { intros v r id. simpl. destruct (decide (u = v)) as [->|Hne].
      - rewrite lookup_insert_eq. intros [= <-]. discriminate.
      - rewrite lookup_insert_ne by exact Hne. apply Hinv. }
    simpl. destruct (runs sys !! u) as [r|]; [|exact Hnew].
    destruct (terminal (run_phase r)); [exact Hnew | exact Hinv].
  - unfold apply_event. destruct (runs sys !! u) as [r|] eqn:Hr; [|exact Hinv].
    remember (step' u (clock sys) (store sys) r) as p eqn:Es.
    symmetry in Es. destruct p as [s' r'].
    intros v rv id. simpl. destruct (decide (u = v)) as [->|Hne].
    + rewrite lookup_insert_eq. intros [= <-] Hph.
      pose proof (step_into_emitted v (clock sys) (store sys) r id) as H.
      rewrite Es in H. simpl in H.
      destruct (H Hph) as [[Hold [= -> _]]|(ct & cs & cf & _ & _ & _ & [= -> _])].
      * exact (Hinv v r id Hr Hold).
      * simpl. rewrite !lookup_insert_eq. split; [|eexists; reflexivity].
        eexists. split; [reflexivity|]. reflexivity.
    + rewrite lookup_insert_ne by exact Hne. intros Hv Hph.
      destruct (Hinv v rv id Hv Hph) as [(x & Hx & Hu) Ha].
      pose proof (step_keeps_stored u (clock sys) (store sys) r id x Hx Ha) as H.
      rewrite Es in H. simpl in H. destruct H as [H1 H2].
      split; [exists x; auto | exact H2].
  - intros v r id. simpl. destruct (decide (u = v)) as [->|Hne].
    + rewrite lookup_delete_eq. discriminate.
    + rewrite lookup_delete_ne by exact Hne. apply Hinv.
  - intros v r j Hr Hph. simpl in *.
    destruct (Hinv v r j Hr Hph) as [(x & Hx & Hu) Ha].
    rewrite dismiss_audit. split; [|exact Ha].
    destruct (dismiss_keeps u id (clock sys) (store sys) j x Hx) as (x' & Hx' & Hu').
    exists x'. split; [exact Hx' | congruence].
  - exact Hinv.
Qed.

Lemma emitted_stored_run (evs : list Event) (sys : System) :
  Account.emitted_stored sys -> Account.emitted_stored (run' sys evs).
Proof.
  revert sys. induction evs as [|e evs IH]; intros sys H; simpl.
  - exact H.
  - apply IH. apply emitted_stored_apply. exact H.
Qed.

Lemma delete_user_lookup (u : N) (s : Store) (id : N) (r : Reflection) :
  reflections (Account.delete_user u s) !! id = Some r
  <-> reflections s !! id = Some r /\ r_user r <> u.
Proof. unfold Account.delete_user. simpl. apply map_lookup_filter_Some. Qed.

Lemma delete_user_cascade (u : N) (s : Store) :
  r_user <$> reflections (Account.delete_user u s)
  = Database.cascade u (r_user <$> reflections s).
Proof.
  apply map_eq. intros id. apply option_eq. intros v.
  unfold Database.cascade.
  rewrite map_lookup_filter_Some, !lookup_fmap, !fmap_Some. simpl. split.
  - intros (r & Hr & ->). apply delete_user_lookup in Hr. destruct Hr as [Hr Hu].
    split; [exists r; auto | exact Hu].
  - intros [(r & Hr & ->) Hu]. exists r. split; [|reflexivity].
    apply delete_user_lookup. auto.
Qed.

Lemma audited_apply_op (sys : System) (o : Account.Op) :
  Account.reflections_audited (store sys) ->
  Account.reflections_audited (store (apply_op' sys o)).
Proof.
  intros Hinv. destruct o as [e|u].
  - destruct e as [u c|u|u|u id|dt]; simpl.
    + destruct (runs sys !! u) as [r|]; [destruct (terminal (run_phase r))|];
        exact Hinv.
    + destruct (runs sys !! u) as [r|]; [|exact Hinv].
      destruct (step_store u (clock sys) (store sys) r)
        as [E|(ct & cs & cf & _ & _ & E)]; rewrite E; simpl.
      * exact Hinv.
      * intros j. simpl.
        destruct (decide (fresh (dom (reflections (store sys))
                                 ∪ dom (audit_traces (store sys))) = j)) as [Ej|Ej].
        -- rewrite Ej, !lookup_insert_eq. intros _. eexists. reflexivity.
        -- rewrite !lookup_insert_ne by exact Ej. apply Hinv.
    + exact Hinv.
    + intros j [r' Hj]. rewrite dismiss_audit.
      apply dismiss_lookup in Hj. destruct Hj as (r & Hr & _).
      apply Hinv. exists r. exact Hr.
    + exact Hinv.
  - intros j [r Hj]. simpl in *. apply delete_user_lookup in Hj.
    destruct Hj as [Hj _]. apply Hinv. exists r. exact Hj.
Qed.

Lemma audited_run_ops (ops : list Account.Op) (sys : System) :
  Account.reflections_audited (store sys) ->
  Account.reflections_audited (store (run_ops' sys ops)).
Proof.
  revert sys. induction ops as [|o ops IH]; intros sys H; simpl.
  - exact H.
  - apply IH. apply audited_apply_op. exact H.
Qed.

(** C6: in every state reached through the synthesizer's own events a
    reflection is stored under an id exactly when an audit trace is.
    The two are written by the transition into [Emitted] and by no
    other: that transition finds the id unused, stores under it the
    reflection of the run's user, stamped with the current time and
    not dismissed, and the audit trace of the same run, and touches no
    other record; in every such state a run that is [Emitted] has both
    records stored.  A transition that does not end in [Emitted]
    (rejection, ineligibility, any intermediate phase) writes nothing,
    and neither does cancelling a run.  Deleting a user removes that
    user's reflections, as the cascade of the schema does, and keeps
    every audit trace: with deletions among the operations every
    reflection still has its audit trace. *)
Theorem persistence_atomic :
  (forall (t0 : Z) (evs : list Event) (id : N),
     is_Some (reflections (store (run' (initial t0) evs)) !! id)
     <-> is_Some (audit_traces (store (run' (initial t0) evs)) !! id))
  /\ (forall (u : N) (now : Z) (s : Store) (r : Run),
        fst (step' u now s r) = s
        \/ exists (id : N) (reflection : Reflection) (trace : AuditTrace),
             reflections s !! id = None /\ audit_traces s !! id = None
             /\ step' u now s r
                = (persist id reflection trace s,
                   {| run_input := run_input r; run_phase := Emitted id |}))
  /\ (forall (u : N) (now : Z) (s : Store) (r : Run) (id : N),
        run_phase r <> Emitted id ->
        run_phase (snd (step' u now s r)) = Emitted id ->
        reflections s !! id = None /\ audit_traces s !! id = None
        /\ (exists reflection,
              reflections (fst (step' u now s r)) !! id = Some reflection
              /\ r_user reflection = u
              /\ r_entry_ids reflection = entry_ids (run_input r)
              /\ r_created_at reflection = now
              /\ r_dismissed_at reflection = None
              /\ audit_traces (fst (step' u now s r)) !! id
                 = Some (trace_of (run_input r) (r_concepts_used reflection)
                           (r_confidence_score reflection)))
        /\ (forall j, j <> id ->
              reflections (fst (step' u now s r)) !! j = reflections s !! j
              /\ audit_traces (fst (step' u now s r)) !! j = audit_traces s !! j))
  /\ (forall (t0 : Z) (evs : list Event) (u id : N),
        phase_of (run' (initial t0) evs) u = Some (Emitted id) ->
        (exists reflection,
           reflections (store (run' (initial t0) evs)) !! id = Some reflection
           /\ r_user reflection = u)
        /\ is_Some (audit_traces (store (run' (initial t0) evs)) !! id))
  /\ (forall (u : N) (now : Z) (s : Store) (r : Run),
        (forall id, run_phase (snd (step' u now s r)) <> Emitted id) ->
        fst (step' u now s r) = s)
  /\ (forall (sys : System) (u : N),
        store (apply' sys (Cancel u)) = store sys
        /\ runs (apply' sys (Cancel u)) !! u = None)
  /\ (forall (u : N) (s : Store),
        audit_traces (Account.delete_user u s) = audit_traces s
        /\ (forall id r,
              reflections (Account.delete_user u s) !! id = Some r
              <-> reflections s !! id = Some r /\ r_user r <> u)
        /\ r_user <$> reflections (Account.delete_user u s)
           = Database.cascade u (r_user <$> reflections s))
  /\ (forall (t0 : Z) (ops : list Account.Op) (id : N),
        is_Some (reflections (store (run_ops' (initial t0) ops)) !! id) ->
        is_Some (audit_traces (store (run_ops' (initial t0) ops)) !! id)).
Proof.
  split; [|split; [|split; [|split; [|split; [|split; [|split]]]]]].
  - intros t0 evs id.
    destruct (consistent_run evs (initial t0) (consistent_initial t0))
      as (Hdom & _).
    rewrite <- !elem_of_dom, Hdom. reflexivity.
  - intros u now s r.
    destruct (step_store u now s r) as [E|(ct & cs & cf & _ & _ & E)].
    + left. rewrite E. reflexivity.
    + right. destruct (fresh_id_unused s) as [H1 H2].
      eexists _, _, _. split; [exact H1|]. split; [exact H2|]. exact E.
  - intros u now s r id Hnot Hinto.
    destruct (step_into_emitted u now s r id Hinto)
      as [[Hold _]|(ct & cs & cf & _ & _ & Hid & E)]; [contradiction|].
    destruct (fresh_id_unused s) as [H1 H2]. rewrite <- Hid in H1, H2.
    rewrite E. simpl fst.
    match goal with
    | |- context [persist id ?x ?a s] =>
        destruct (persist_lookup id x a s) as (P1 & P2 & P3)
    end.
    split; [exact H1|]. split; [exact H2|]. split; [|exact P3].
    eexists. split; [exact P1|]. simpl.
    split; [reflexivity|]. split; [reflexivity|]. split; [reflexivity|].
    split; [reflexivity|]. exact P2.
  - intros t0 evs u id Hph. unfold phase_of in Hph.
    destruct (runs (run' (initial t0) evs) !! u) as [r|] eqn:Hr; [|discriminate].
    simpl in Hph. injection Hph as Hph.
    exact (emitted_stored_run evs (initial t0) (emitted_stored_initial t0)
             u r id Hr Hph).
  - exact step_rejected_unchanged.
  - intros sys u. simpl. split; [reflexivity|]. apply lookup_delete_eq.
  - intros u s. split; [reflexivity|].
    split; [apply delete_user_lookup | apply delete_user_cascade].
  - intros t0 ops id. apply (audited_run_ops ops (initial t0)).
    intros j [r Hj]. simpl in Hj. rewrite lookup_empty in Hj. discriminate.
Qed.

(** *** Retrieval *)

Lemma filter_none {A : Type} (f : A -> bool) (l : list A) :
  (forall x, In x l -> f x = false) -> filter f l = [].
Proof.
  induction l as [|x l IH]; intros H; simpl.
  - reflexivity.
  - rewrite (H x) by (left; reflexivity).
    apply IH. intros y Hy. apply H. right. exact Hy.
Qed.

Lemma retrieve_below_floor (query : list Q) (category : option Category) :
  (forall c, In c corpus -> matches_filter category c = true ->
             similarity query (c_embedding c) < min_similarity) ->
  retrieve' query category = [].
Proof.
  intros H. unfold retrieve. rewrite filter_none.
  - simpl. destruct top_k; reflexivity.
  - intros sc Hsc. apply in_map_iff in Hsc. destruct Hsc as (c & <- & Hc).
    apply filter_In in Hc. destruct Hc as [Hc Hm].
    unfold clears_floor. simpl.
    destruct (Qle_bool min_similarity (similarity query (c_embedding c))) eqn:E;
      [|reflexivity].
    apply Qle_bool_iff in E. specialize (H c Hc Hm). lra.
Qed.

Lemma advance_terminal (sys : System) (u : N) (r : Run) :
  runs sys !! u = Some r -> terminal (run_phase r) = true ->
  store (apply' sys (Advance u)) = store sys
  /\ runs (apply' sys (Advance u)) !! u = Some r.
Proof.
  intros Hr Ht. simpl. rewrite Hr.
  destruct r as [c p]. destruct p; try discriminate Ht; simpl;
    (split; [reflexivity | apply lookup_insert_eq]).
Qed.

Lemma advance_terminal_many (n : nat) (sys : System) (u : N) (r : Run) :
  runs sys !! u = Some r -> terminal (run_phase r) = true ->
  store (run' sys (repeat (Advance u) n)) = store sys
  /\ runs (run' sys (repeat (Advance u) n)) !! u = Some r.
Proof.
  revert sys. induction n as [|n IH]; intros sys Hr Ht.
  - split; [reflexivity | exact Hr].
  - destruct (advance_terminal sys u r Hr Ht) as [Hs Hr'].
    change (run' sys (repeat (Advance u) (S n)))
      with (run' (apply' sys (Advance u)) (repeat (Advance u) n)).
    destruct (IH _ Hr' Ht) as [Hs' Hr''].
    split; [rewrite Hs'; exact Hs | exact Hr''].
Qed.

Lemma empty_retrieval_rejected (sys : System) (u : N) (c : Candidate) (n : nat) :
  runs sys !! u = Some {| run_input := c; run_phase := Retrieving |} ->
  retrieve' (query_embedding c) (category_filter c) = [] ->
  store (run' sys (repeat (Advance u) (S n))) = store sys
  /\ phase_of (run' sys (repeat (Advance u) (S n))) u
     = Some (Rejected no_grounding).
Proof.
  intros Hr He.
  change (run' sys (repeat (Advance u) (S n)))
    with (run' (apply' sys (Advance u)) (repeat (Advance u) n)).
  assert (Hs : store (apply' sys (Advance u)) = store sys
               /\ runs (apply' sys (Advance u)) !! u
                  = Some {| run_input := c; run_phase := Rejected no_grounding |}).
  { simpl. rewrite Hr. unfold step. simpl. rewrite He. simpl.
    split; [reflexivity | apply lookup_insert_eq]. }
  destruct Hs as [Hs Hr'].
  destruct (advance_terminal_many n _ u _ Hr' eq_refl) as [Hs' Hr''].
  split; [rewrite Hs'; exact Hs|].
  unfold phase_of. rewrite Hr''. reflexivity.
Qed.

(** C7: when no concept of the corpus (among those the category filter
    lets through) reaches the similarity floor the retriever returns
    the empty list, and a run that is retrieving for
    such a query ends as [Rejected no_grounding] and stays there, the
    store being left as it was. *)
Theorem retrieval_fails_closed (query : list Q) (category : option Category) :
  (forall c, In c corpus -> matches_filter category c = true ->
             similarity query (c_embedding c) < min_similarity) ->
  retrieve' query category = []
  /\ forall (sys : System) (u : N) (c : Candidate) (n : nat),
       runs sys !! u = Some {| run_input := c; run_phase := Retrieving |} ->
       query_embedding c = query -> category_filter c = category ->
       store (run' sys (repeat (Advance u) (S n))) = store sys
       /\ phase_of (run' sys (repeat (Advance u) (S n))) u
          = Some (Rejected no_grounding).
Proof.
  intros H. pose proof (retrieve_below_floor query category H) as He.
  split; [exact He|].
  intros sys u c n Hr Hq Hc. apply (empty_retrieval_rejected sys u c n Hr).
  rewrite Hq, Hc. exact He.
Qed.

(** *** The confidence of emitted reflections *)

(** C1: on every float the capping step takes the smaller of the raw
    confidence and 0.80 and, when the raw confidence is above 0.90,
    multiplies it by 0.95, which gives 0.76 after rounding; the
    rounding to two decimals returns the float of the hundredth nearest
    to the capped value, the even one at a tie.  The result is at most
    0.80 for every raw confidence that is a number, and it passes the
    CHECK of the [reflections] table; NaN is handed through, is not
    above 0.80 either, and is refused by the CHECK.  Read on real
    numbers the constraint yields the same hundredths, and every
    reflection the synthesizer has stored carries a confidence of at
    most 0.80, which the CHECK accepts. *)
Theorem constrain_confidence_capped (raw : F64.float) :
  let capped := F64.py_min raw F64.MAX_CONFIDENCE in
  (capped = raw \/ capped = F64.MAX_CONFIDENCE)
  /\ (raw <> F64.NaN ->
      F64.le capped raw = true /\ F64.le capped F64.MAX_CONFIDENCE = true)
  /\ (F64.gt raw (F64.rne (90 # 100)) = false ->
      F64.constrain_confidence raw = F64.py_round capped 2)
  /\ (F64.gt raw (F64.rne (90 # 100)) = true ->
      capped = F64.MAX_CONFIDENCE
      /\ F64.constrain_confidence raw
         = F64.py_round (F64.mul capped (F64.rne (95 # 100))) 2
      /\ F64.constrain_confidence raw = F64.rne (76 # 100))
  /\ (forall c : Q,
        F64.gt raw (F64.rne (90 # 100)) = false -> capped = F64.Finite c ->
        exists k : Z,
          F64.constrain_confidence raw = F64.rne (inject_Z k / 100)
          /\ c * 100 - (1 # 2) <= inject_Z k
          /\ inject_Z k <= c * 100 + (1 # 2)
          /\ (inject_Z k - c * 100 == 1 # 2 \/ c * 100 - inject_Z k == 1 # 2 ->
              Z.even k = true)
          /\ (k <= 80)%Z)
  /\ F64.gt (F64.constrain_confidence raw) F64.MAX_CONFIDENCE = false
  /\ (raw <> F64.NaN ->
      F64.le (F64.constrain_confidence raw) F64.MAX_CONFIDENCE = true)
  /\ (F64.constrain_confidence raw = F64.NaN <-> raw = F64.NaN)
  /\ (F64.reflections_confidence_check (F64.constrain_confidence raw) = true
      <-> raw <> F64.NaN)
  /\ (forall q : Q,
        raw = F64.Finite q ->
        q <= 90 # 100 \/ F64.gt raw (F64.rne (90 # 100)) = true ->
        F64.constrain_confidence raw = F64.rne (constrain_confidence q))
  /\ (forall (t0 : Z) (evs : list Event) (id : N) (r : Reflection),
        reflections (store (run' (initial t0) evs)) !! id = Some r ->
        r_confidence_score r <= 80 # 100
        /\ F64.le (F64.rne (r_confidence_score r)) F64.MAX_CONFIDENCE = true
        /\ F64.reflections_confidence_check (F64.rne (r_confidence_score r))
           = true).
Proof.
  cbv zeta.
  assert (Hcheck : forall x : F64.float,
             x <> F64.NaN -> F64.le x F64.MAX_CONFIDENCE = true ->
             F64.reflections_confidence_check x = true).
  { intros x Hx Hle. unfold F64.MAX_CONFIDENCE in Hle.
    unfold F64.reflections_confidence_check.
    destruct x; [exact Hle | exact Hle | exact Hle | contradiction]. }
  destruct (py_min_float raw) as [Hmin1 Hmin2].
  split; [exact Hmin1|]. split; [exact Hmin2|].
  split; [apply constrain_confidence_float_low|].
  split.
  { intros H. split; [apply py_min_high; exact H|].
    apply constrain_confidence_float_high. exact H. }
  split.
  { intros c Hgt Hc. apply (constrain_confidence_float_rounds raw c Hgt Hc). }
  split.
  { destruct raw as [q| | |];
      try (apply le_not_gt, constrain_confidence_float_le_cap; discriminate).
    vm_compute. reflexivity. }
  split; [apply constrain_confidence_float_le_cap|].
  split; [apply constrain_confidence_float_nan|].
  split.
  { split.
    - intros H ->. vm_compute in H. discriminate H.
    - intros Hn. apply Hcheck.
      + intros E. exact (Hn (proj1 (constrain_confidence_float_nan raw) E)).
      + apply constrain_confidence_float_le_cap. exact Hn. }
  split.
  { intros q -> H. apply constrain_confidence_float_real. exact H. }
  intros t0 evs id r Hr.
  destruct (stored_confidence_capped t0 evs id r Hr) as [Hcap _].
  split; [exact Hcap|].
  assert (Hle : F64.le (F64.rne (r_confidence_score r)) F64.MAX_CONFIDENCE = true).
  { unfold F64.MAX_CONFIDENCE. apply rne_le_binade; [lra | lra | exact Hcap]. }
  split; [exact Hle|]. apply Hcheck; [apply rne_not_nan | exact Hle].
Qed.

End SynthFacts.

(** ** Instances *)

(** A query orthogonal to the only concept the category filter lets
    through: nothing is retrieved and the run is rejected. *)
Lemma retrieval_fails_closed_witness :
  Synth.retrieve Scenario.dot Scenario.floor Scenario.corpus 3
    [4 # 5; - (3 # 5)] (Some Synth.philosophy) = []
  /\ Synth.phase_of
       (Scenario.service (Scenario.retrieving 1 Scenario.ungrounded)
          [Synth.Advance 1; Synth.Advance 1]) 1
     = Some (Synth.Rejected Synth.no_grounding).
Proof.
  destruct (retrieval_fails_closed Scenario.dot Scenario.floor Scenario.corpus 3
              Scenario.language_ok Scenario.compose Scenario.trace_of
              [4 # 5; - (3 # 5)] (Some Synth.philosophy)) as [Hempty Hrun].
  - intros c [<-|[<-|[]]] Hm; [discriminate Hm | vm_compute; reflexivity].
  - split; [exact Hempty|].
    apply (Hrun (Scenario.retrieving 1 Scenario.ungrounded) 1%N
             Scenario.ungrounded 1%nat); reflexivity.
Defined.

(** A run of user 1 is emitted, reflection 0 and its audit trace are
    stored; then the row of user 1 is deleted.  The reflection is gone
    and its audit trace is still there: with the deletion of users
    among the operations, "a reflection exists exactly when its audit
    trace exists" does not hold in every reachable state. *)
Lemma audit_trace_outlives_reflection :
  let emitted :=
    Scenario.service (Synth.initial 0) (Scenario.full_run 1 Scenario.grounded) in
  let deleted :=
    Account.run_ops Scenario.dot Scenario.floor Scenario.corpus 3
      Scenario.language_ok Scenario.compose Scenario.trace_of (Synth.initial 0)
      (map Account.Core (Scenario.full_run 1 Scenario.grounded)
       ++ [Account.DeleteUser 1]) in
  Synth.phase_of emitted 1 = Some (Synth.Emitted 0)
  /\ is_Some (Synth.reflections (Synth.store emitted) !! 0%N)
  /\ is_Some (Synth.audit_traces (Synth.store emitted) !! 0%N)
  /\ Synth.reflections (Synth.store deleted) !! 0%N = None
  /\ is_Some (Synth.audit_traces (Synth.store deleted) !! 0%N)
  /\ ~ (forall id : N,
          is_Some (Synth.reflections (Synth.store deleted) !! id)
          <-> is_Some (Synth.audit_traces (Synth.store deleted) !! id)).
Proof.
  cbv zeta.
  assert (Hgone : Synth.reflections
                    (Synth.store
                       (Account.run_ops Scenario.dot Scenario.floor Scenario.corpus 3
                          Scenario.language_ok Scenario.compose Scenario.trace_of
                          (Synth.initial 0)
                          (map Account.Core (Scenario.full_run 1 Scenario.grounded)
                           ++ [Account.DeleteUser 1]))) !! 0%N = None)
    by (vm_compute; reflexivity).
  assert (Hkept : is_Some
                    (Synth.audit_traces
                       (Synth.store
                          (Account.run_ops Scenario.dot Scenario.floor Scenario.corpus 3
                             Scenario.language_ok Scenario.compose Scenario.trace_of
                             (Synth.initial 0)
                             (map Account.Core (Scenario.full_run 1 Scenario.grounded)
                              ++ [Account.DeleteUser 1]))) !! 0%N))
    by (eexists; vm_compute; reflexivity).
  split; [vm_compute; reflexivity|].
  split; [eexists; vm_compute; reflexivity|].
  split; [eexists; vm_compute; reflexivity|].
  split; [exact Hgone|]. split; [exact Hkept|].
  intros H. apply (H 0%N) in Hkept. rewrite Hgone in Hkept.
  destruct Hkept as [r Hr]. discriminate Hr.
Qed.

(** The scenario of the specification: two reflections accepted within
    a week, a third eligible candidate in the same week is rejected as
    [rate_limited]; dismissing the first does not give the quota back,
    and a week after the first the user is served again. *)
Example third_candidate_rate_limited :
  let week1 :=
    Scenario.full_run 1 Scenario.grounded ++ [Synth.Tick 86400]
    ++ Scenario.full_run 1 Scenario.grounded ++ [Synth.Tick 86400] in
  Synth.phase_of
    (Scenario.service (Synth.initial 0)
       (week1 ++ Scenario.full_run 1 Scenario.grounded)) 1
  = Some (Synth.Rejected Synth.rate_limited)
  /\ Synth.phase_of
       (Scenario.service (Synth.initial 0)
          (week1 ++ [Synth.Dismiss 1 0] ++ Scenario.full_run 1 Scenario.grounded)) 1
     = Some (Synth.Rejected Synth.rate_limited)
  /\ Synth.phase_of
       (Scenario.service (Synth.initial 0)
          (week1 ++ [Synth.Tick (5 * 86400)]
           ++ Scenario.full_run 1 Scenario.grounded)) 1
     = Some (Synth.Emitted 2)
  /\ Synth.phase_of
       (Scenario.service (Synth.initial 0)
          (week1 ++ Scenario.full_run 2 Scenario.grounded)) 2
     = Some (Synth.Emitted 2).
Proof. vm_compute. repeat split. Qed.

(** * Further properties of the code *)

(** ** Confidence constraints, continued *)

Section ConfidenceMore.





Lemma py_round_2_value (x : Q) (k : Z) :
  round_half_even (x * 100) = k -> py_round x 2 == inject_Z k / 100.
Proof.
  intros <-. unfold py_round. change (inject_Z (10 ^ Z.of_nat 2)) with 100.
  reflexivity.
Qed.

(** X3: the cap value 0.80 is returned exactly for the floats whose
    value is at least 0.795 and that are not above the float 0.90, the
    floats written 0.795 and 0.90 among them; every float above 0.90,
    the infinity included, gives 0.76, so a more confident input can
    get a lower score. *)
Theorem constrain_confidence_plateaus :
  (forall q : Q,
     F64.constrain_confidence (F64.Finite q) = F64.MAX_CONFIDENCE
     <-> 795 # 1000 <= q /\ F64.gt (F64.Finite q) (F64.rne (90 # 100)) = false)
  /\ (forall raw : F64.float,
        F64.gt raw (F64.rne (90 # 100)) = true ->
        F64.constrain_confidence raw = F64.rne (76 # 100))
  /\ F64.constrain_confidence (F64.rne (795 # 1000)) = F64.MAX_CONFIDENCE
  /\ F64.constrain_confidence (F64.rne (90 # 100)) = F64.MAX_CONFIDENCE
  /\ F64.constrain_confidence F64.PosInf = F64.rne (76 # 100)
  /\ F64.lt (F64.constrain_confidence (F64.rne (95 # 100)))
            (F64.constrain_confidence (F64.rne (85 # 100))) = true.
Proof.
  destruct float_literals as (EM & E90 & _).
  assert (Hhigh : forall raw : F64.float,
             F64.gt raw (F64.rne (90 # 100)) = true ->
             F64.constrain_confidence raw = F64.rne (76 # 100)).
  { intros raw H. apply constrain_confidence_float_high. exact H. }
  split; [|split; [exact Hhigh|]].
  - intros q. split.
    + intros E. destruct (F64.gt (F64.Finite q) (F64.rne (90 # 100))) eqn:Hgt.
      { rewrite (Hhigh _ Hgt) in E. vm_compute in E. discriminate E. }
      split; [|reflexivity].
      apply Qnot_lt_le. intros Hlt.
      assert (Hc : F64.py_min (F64.Finite q) F64.MAX_CONFIDENCE = F64.Finite q).
      { rewrite EM. cbv beta iota delta [F64.py_min F64.lt].
        replace (Qltb (3602879701896397 # 4503599627370496) q) with false;
          [reflexivity|].
        symmetry. apply Qltb_ge. lra. }
      rewrite (constrain_confidence_float_low _ Hgt), Hc in E.
      assert (Hk : (round_half_even (q * 100) <= 79)%Z).
      { apply round_half_even_upper. change (inject_Z 79) with 79. lra. }
      assert (Hle : F64.le (F64.rne (py_round q 2)) (F64.rne (79 # 100)) = true).
      { apply rne_le_binade; [lra | lra |].
        unfold py_round. change (inject_Z (10 ^ Z.of_nat 2)) with 100.
        rewrite Zle_Qle in Hk. change (inject_Z 79) with 79 in Hk.
        unfold Qdiv. change (/ 100) with (1 # 100). lra. }
      unfold F64.py_round in E. rewrite E in Hle.
      vm_compute in Hle. discriminate Hle.
    + intros [Hl Hgt].
      rewrite (constrain_confidence_float_low _ Hgt).
      assert (Hk : forall c : Q,
                 795 # 1000 <= c -> c <= 3602879701896397 # 4503599627370496 ->
                 F64.py_round (F64.Finite c) 2 = F64.MAX_CONFIDENCE).
      { intros c H1 H2.
        assert (E : round_half_even (c * inject_Z (10 ^ Z.of_nat 2)) = 80%Z).
        { change (inject_Z (10 ^ Z.of_nat 2)) with 100.
          destruct (Qlt_le_dec (795 # 1000) c) as [Hin|Hedge].
          - apply Z.le_antisymm.
            + apply round_half_even_upper. change (inject_Z 80) with 80. lra.
            + apply round_half_even_lower. change (inject_Z 80) with 80. lra.
          - assert (Ec : c * 100 == (795 # 1000) * 100) by lra.
            rewrite (round_half_even_compat _ _ Ec). reflexivity. }
        unfold F64.py_round, py_round. rewrite E. vm_compute. reflexivity. }
      rewrite EM. cbv beta iota delta [F64.py_min F64.lt].
      destruct (Qltb _ q) eqn:E.
      * apply Hk; lra.
      * apply Qltb_ge in E. apply Hk; [exact Hl | exact E].
  - split; [vm_compute; reflexivity|]. split; [vm_compute; reflexivity|].
    split; [vm_compute; reflexivity|]. vm_compute. reflexivity.
Qed.

(** Decimals that look like ties are rounded on the value the float
    really has: the float written 0.155 lies below 0.155 and gives
    0.15, the float written 0.795 lies above 0.795 and gives 0.8; 0.125
    and 0.375 are floats and true ties, and go to the even
    hundredth. *)
Example constrain_confidence_decimal_ties :
  F64.constrain_confidence (F64.rne (155 # 1000)) = F64.rne (15 # 100)
  /\ F64.constrain_confidence (F64.rne (795 # 1000)) = F64.rne (80 # 100)
  /\ F64.constrain_confidence (F64.rne (125 # 1000)) = F64.rne (12 # 100)
  /\ F64.constrain_confidence (F64.rne (375 # 1000)) = F64.rne (38 # 100)
  /\ F64.lt (F64.rne (155 # 1000)) (F64.Finite (155 # 1000)) = true
  /\ F64.lt (F64.Finite (795 # 1000)) (F64.rne (795 # 1000)) = true.
Proof. repeat (split; [vm_compute; reflexivity|]). vm_compute. reflexivity. Qed.

End ConfidenceMore.


(** ** Trend detection, continued *)

Section TrendMore.

Import Trend.

Variable linregress_p_value : list Q -> list Q -> Q.

Lemma is_cyclical_short (values : list Q) :
  (List.length values < 14)%nat -> is_cyclical values = false.
Proof.
  intros H. unfold is_cyclical. apply Nat.ltb_lt in H. rewrite H. reflexivity.
Qed.

(** X4: a weekly cycle is never reported on fewer than 14 observations:
    [is_cyclical] is false and [detect_trend] does not answer
    [cyclical]. *)
Theorem cyclical_needs_two_weeks (values : list Q) (dates : list Z) :
  (List.length values < 14)%nat ->
  is_cyclical values = false
  /\ direction_of (detect_trend linregress_p_value values dates) <> cyclical.
Proof.
  intros H. pose proof (is_cyclical_short values H) as Hc.
  split; [exact Hc|].
  unfold detect_trend. rewrite Hc.
  destruct (List.length values <? 7)%nat; [discriminate|].
  destruct (Qgtb (linregress_p_value _ _) _); [discriminate|].
  destruct (Qgtb (linregress_slope _ _) _); [discriminate|].
  destruct (Qltb (linregress_slope _ _) _); discriminate.
Qed.

(** X5: the direction agrees with the numbers returned beside it:
    [insufficient_data] exactly on fewer than 7 observations;
    [increasing] only with a slope above 0.01 and [decreasing] only with
    a slope below -0.01, both only with a p-value of at most 0.05 and no
    cycle; [cyclical] only when [is_cyclical] holds; and from 7
    observations on the slope returned is the fitted one. *)
Theorem detect_trend_coherent (values : list Q) (dates : list Z) :
  let result := detect_trend linregress_p_value values dates in
  let x := arange (List.length values) in
  (direction_of result = insufficient_data <-> (List.length values < 7)%nat)
  /\ (direction_of result = increasing ->
      1 # 100 < slope_of result
      /\ linregress_p_value x values <= 5 # 100
      /\ is_cyclical values = false)
  /\ (direction_of result = decreasing ->
      slope_of result < - (1 # 100)
      /\ linregress_p_value x values <= 5 # 100
      /\ is_cyclical values = false)
  /\ (direction_of result = cyclical -> is_cyclical values = true)
  /\ ((7 <= List.length values)%nat ->
      slope_of result = linregress_slope x values
      /\ r_squared_of result = linregress_r_squared x values).
Proof.
  cbv zeta. unfold detect_trend.
  destruct (List.length values <? 7)%nat eqn:Hlen.
  - apply Nat.ltb_lt in Hlen. simpl.
    split; [tauto|]. repeat (split; [discriminate|]). lia.
  - apply Nat.ltb_ge in Hlen.
    destruct (is_cyclical values) eqn:Hc.
    { simpl. split; [split; [discriminate|lia]|].
      repeat (split; [discriminate|]). split; [reflexivity|]. auto. }
    destruct (Qgtb (linregress_p_value _ _) _) eqn:Hp.
    { simpl. split; [split; [discriminate|lia]|].
      repeat (split; [discriminate|]). auto. }
    apply Qltb_ge in Hp.
    destruct (Qgtb (linregress_slope _ _) _) eqn:Hup.
    { apply Qltb_lt in Hup. simpl. split; [split; [discriminate|lia]|].
      split; [auto|]. repeat (split; [discriminate|]). auto. }
    destruct (Qltb (linregress_slope _ _) _) eqn:Hdown.
    { apply Qltb_lt in Hdown. simpl. split; [split; [discriminate|lia]|].
      split; [discriminate|]. split; [auto|]. split; [discriminate|]. auto. }
    simpl. split; [split; [discriminate|lia]|].
    repeat (split; [discriminate|]). auto.
Qed.

End TrendMore.

(** Thirteen alternating observations: long enough to fit, too short
    for a cycle. *)
Lemma cyclical_needs_two_weeks_witness :
  Trend.is_cyclical (firstn 13 Trend.alternating_series) = false
  /\ Trend.direction_of
       (Trend.detect_trend (fun _ _ => 0) (firstn 13 Trend.alternating_series) [])
     <> Trend.cyclical.
Proof.
  apply (cyclical_needs_two_weeks (fun _ _ => 0)
           (firstn 13 Trend.alternating_series) []).
  simpl. lia.
Defined.

(** ** Certainty scoring, continued *)

Section CertaintyMore.

Import Certainty.

Lemma lower_char_idempotent (c : ascii) :
  lower_char (lower_char c) = lower_char c.
Proof.
  destruct c as [[] [] [] [] [] [] [] []]; reflexivity.
Qed.

Lemma lower_idempotent (s : string) : lower (lower s) = lower s.
Proof.
  induction s as [|c s IH]; simpl; [reflexivity|].
  rewrite lower_char_idempotent, IH. reflexivity.
Qed.

(** X6: the score does not depend on letter case: a text and its
    lower-cased form get the same score. *)
Theorem calculate_certainty_ignores_case (text : string) :
  calculate_certainty (lower text) = calculate_certainty text.
Proof.
  unfold calculate_certainty. rewrite lower_idempotent. reflexivity.
Qed.

(** X7: the score is 1 exactly when the text has certainty words and no
    hedging word, 0 exactly when it has hedging words and no certainty
    word, and the neutral 0.5 exactly when it has as many of the one as
    of the other (none of either included). *)
Theorem calculate_certainty_extremes (text : string) :
  let hedging := count_in HEDGING_WORDS (split (lower text)) in
  let certain := count_in CERTAINTY_WORDS (split (lower text)) in
  exists q : Q,
    calculate_certainty text = Some q
    /\ (q == 1 <-> hedging = 0%nat /\ (0 < certain)%nat)
    /\ (q == 0 <-> certain = 0%nat /\ (0 < hedging)%nat)
    /\ (q == 1 # 2 <-> hedging = certain).
Proof.
  cbv zeta. unfold calculate_certainty.
  set (h := count_in HEDGING_WORDS (split (lower text))).
  set (c := count_in CERTAINTY_WORDS (split (lower text))).
  destruct (h + c =? 0)%nat eqn:E.
  - apply Nat.eqb_eq in E. exists (5 # 10). split; [reflexivity|].
    split; [|split].
    + split; [discriminate | lia].
    + split; [discriminate | lia].
    + split; [lia | reflexivity].
  - apply Nat.eqb_neq in E.
    destruct (h + c)%nat as [|t] eqn:Et; [lia|].
    exists (Z.of_nat c # Pos.of_nat (S t)). split; [reflexivity|].
    assert (Hden : Z.pos (Pos.of_nat (S t)) = Z.of_nat (h + c)).
    { rewrite Et, <- Pos.of_nat_succ, Zpos_P_of_succ_nat. lia. }
    unfold Qeq. simpl Qnum. simpl Qden. rewrite Hden.
    split; [|split]; split; lia.
Qed.

End CertaintyMore.

(** ** Registration page, continued *)

Section RegisterMore.

Import Register.

Variable register_result : jsstring -> jsstring -> ApiResult.
Variable login_result : jsstring -> jsstring -> ApiResult.

Lemma error_message_nonempty (detail : option jsstring) :
  error_message detail <> [].
Proof. destruct detail as [[|c d]|]; discriminate. Qed.

(** X8: once the password checks pass, the submit handler calls
    [api.login] only after [api.register] resolved and navigates to "/"
    only after both resolved; it always ends with [isLoading] false;
    the error is empty exactly when it navigated, so every failure
    shows a message; and the email and passwords typed are left as they
    are. *)
Theorem handleSubmit_flow (st : State) :
  isPasswordValid st = true ->
  let st' := fst (handleSubmit register_result login_result st) in
  let fx := snd (handleSubmit register_result login_result st) in
  isLoading st' = false
  /\ ((exists e p, In (ApiLogin e p) fx)
      <-> register_result (email st) (password st) = Resolved)
  /\ ((exists path, In (RouterPush path) fx)
      <-> register_result (email st) (password st) = Resolved
          /\ login_result (email st) (password st) = Resolved)
  /\ (error st' = [] <-> In (RouterPush (js "/")) fx)
  /\ email st' = email st
  /\ password st' = password st
  /\ confirmPassword st' = confirmPassword st.
Proof.
  intros Hv. cbv zeta. unfold handleSubmit. rewrite Hv. simpl.
  destruct (register_result (email st) (password st)) as [|d1] eqn:Er; simpl.
  - destruct (login_result (email st) (password st)) as [|d2] eqn:El; simpl.
    + split; [reflexivity|]. split; [split; [reflexivity | eauto 6]|].
      split; [split; [auto | eauto 8]|].
      split; [split; [tauto | reflexivity]|]. auto.
    + split; [reflexivity|]. split; [split; [reflexivity | eauto 6]|].
      split.
      { split; [|intros [_ H]; discriminate].
        intros (path & [H|[H|[H|[]]]]); discriminate. }
      split; [|auto].
      split; [intros H; exfalso; exact (error_message_nonempty _ H)|].
      intros [H|[H|[H|[]]]]; discriminate.
  - split; [reflexivity|].
    split.
    { split; [|discriminate]. intros (e & p & [H|[H|[]]]); discriminate. }
    split.
    { split; [|intros [H _]; discriminate].
      intros (path & [H|[H|[]]]); discriminate. }
    split; [|auto].
    split; [intros H; exfalso; exact (error_message_nonempty _ H)|].
    intros [H|[H|[]]]; discriminate.
Qed.

End RegisterMore.

(** A valid form whose registration the server refuses without a
    detail: no login, no navigation, the default message. *)
Lemma handleSubmit_flow_witness :
  let st := {| Register.email := Register.js "a@b.c";
               Register.password := Register.js "Abcdefg1";
               Register.confirmPassword := Register.js "Abcdefg1";
               Register.showPassword := false;
               Register.isLoading := false;
               Register.error := [] |} in
  Register.isLoading
    (fst (Register.handleSubmit (fun _ _ => Register.Thrown None)
            (fun _ _ => Register.Resolved) st)) = false.
Proof.
  cbv zeta.
  destruct (handleSubmit_flow (fun _ _ => Register.Thrown None)
              (fun _ _ => Register.Resolved)
              {| Register.email := Register.js "a@b.c";
                 Register.password := Register.js "Abcdefg1";
                 Register.confirmPassword := Register.js "Abcdefg1";
                 Register.showPassword := false;
                 Register.isLoading := false;
                 Register.error := [] |}
              eq_refl) as [H _].
  exact H.
Defined.

(** ** Global state store *)

Section StoreFacts.

Import Store.

Lemma jsstring_eqb_refl (a : list N) : Register.jsstring_eqb a a = true.
Proof. apply jsstring_eqb_eq. reflexivity. Qed.

Lemma jsstring_eqb_neq (a b : list N) :
  Register.jsstring_eqb a b = false <-> a <> b.
Proof.
  unfold Register.jsstring_eqb.
  destruct (list_eq_dec N.eq_dec a b); split; congruence.
Qed.

Lemma auth_dispatch_consistent (s : Api.Browser * AuthState) (a : AuthAction) :
  isAuthenticated (snd (auth_dispatch s a))
  = match user (snd (auth_dispatch s a)) with Some _ => true | None => false end.
Proof. destruct a as [[u|]|u|]; reflexivity. Qed.

(** X9: in the auth store [isAuthenticated] is true exactly when a user
    is held, after any sequence of [setUser], [login] and [logout]. *)
Theorem auth_store_consistent (b : Api.Browser) (actions : list AuthAction) :
  let st := snd (fold_left auth_dispatch actions (b, auth_initial)) in
  isAuthenticated st = true <-> user st <> None.
Proof.
  cbv zeta.
  assert (H : forall s : Api.Browser * AuthState,
             (isAuthenticated (snd s) = true <-> user (snd s) <> None) ->
             isAuthenticated (snd (fold_left auth_dispatch actions s)) = true
             <-> user (snd (fold_left auth_dispatch actions s)) <> None).
  { induction actions as [|a actions IH]; intros s Hs; simpl; [exact Hs|].
    apply IH. rewrite auth_dispatch_consistent.
    destruct (user (snd (auth_dispatch s a))); split; congruence. }
  apply H. simpl. split; [discriminate | congruence].
Qed.

Lemma other_ids_spec (id : list N) (l : list Entry) (e : Entry) :
  In e (filter (fun e' => negb (Register.jsstring_eqb (entry_id e') id)) l)
  <-> In e l /\ entry_id e <> id.
Proof.
  rewrite filter_In, negb_true_iff, jsstring_eqb_neq. reflexivity.
Qed.

Lemma NoDup_map_filter {A B : Type} (f : A -> B) (p : A -> bool) (l : list A) :
  List.NoDup (map f l) -> List.NoDup (map f (filter p l)).
Proof.
  induction l as [|x l IH]; simpl; intros H; [exact H|].
  inversion H as [|? ? Hx Hl]; subst.
  destruct (p x); simpl; [|apply IH; exact Hl].
  constructor; [|apply IH; exact Hl].
  intros Hin. apply Hx. apply in_map_iff in Hin.
  destruct Hin as (y & Hy & Hyl). apply filter_In in Hyl.
  apply in_map_iff. exists y. tauto.
Qed.

(** X10: [addEntry] puts the entry first, keeps every entry with another
    id in its place, leaves exactly one entry with the new id, and keeps
    a list of distinct ids distinct. *)
Theorem addEntry_upserts (entry : Entry) (st : JournalState) :
  hd_error (entries (addEntry entry st)) = Some entry
  /\ (forall e, entry_id e <> entry_id entry ->
                (In e (entries (addEntry entry st)) <-> In e (entries st)))
  /\ List.length
       (filter (fun e => Register.jsstring_eqb (entry_id e) (entry_id entry))
               (entries (addEntry entry st))) = 1%nat
  /\ (List.NoDup (map entry_id (entries st)) ->
      List.NoDup (map entry_id (entries (addEntry entry st)))).
Proof.
  unfold addEntry, setEntries. simpl.
  split; [reflexivity|]. split; [|split].
  - intros e He. rewrite other_ids_spec. split.
    + intros [<-|[H _]]; [congruence | exact H].
    + intros H. right. tauto.
  - rewrite jsstring_eqb_refl. simpl. f_equal.
    induction (entries st) as [|x l IH]; simpl; [reflexivity|].
    destruct (Register.jsstring_eqb (entry_id x) (entry_id entry)) eqn:E; simpl.
    + exact IH.
    + rewrite E. exact IH.
  - intros H. constructor.
    + intros Hin. apply in_map_iff in Hin. destruct Hin as (e & He & Hin).
      apply other_ids_spec in Hin. tauto.
    + apply NoDup_map_filter. exact H.
Qed.

(** X11: adding an entry whose id is already first in the list replaces
    it: [addEntry e2] after [addEntry e1] is [addEntry e2] alone when the
    two share an id.  In particular adding the same entry twice is the
    same as adding it once. *)
Theorem addEntry_replaces (e1 e2 : Entry) (st : JournalState) :
  entry_id e1 = entry_id e2 ->
  addEntry e2 (addEntry e1 st) = addEntry e2 st.
Proof.
  intros Hid. unfold addEntry, setEntries. simpl. f_equal.
  rewrite Hid, jsstring_eqb_refl. simpl. f_equal.
  induction (entries st) as [|x l IH]; simpl; [reflexivity|].
  destruct (Register.jsstring_eqb (entry_id x) (entry_id e2)) eqn:E; simpl.
  - exact IH.
  - rewrite E. f_equal. exact IH.
Qed.

Lemma without_spec (id : list N) (l : list Reflection) (r : Reflection) :
  In r (without id l) <-> In r l /\ reflection_id r <> id.
Proof.
  unfold without. rewrite filter_In, negb_true_iff, jsstring_eqb_neq.
  reflexivity.
Qed.

Lemma without_absent (id : list N) (l : list Reflection) :
  (forall r, In r l -> reflection_id r <> id) -> without id l = l.
Proof.
  unfold without. induction l as [|x l IH]; intros H; simpl; [reflexivity|].
  assert (E : Register.jsstring_eqb (reflection_id x) id = false).
  { apply jsstring_eqb_neq. apply H. left. reflexivity. }
  rewrite E. simpl. f_equal. apply IH. intros r Hr. apply H. right. exact Hr.
Qed.

Lemma without_idempotent (id : list N) (l : list Reflection) :
  without id (without id l) = without id l.
Proof.
  apply without_absent. intros r Hr. apply without_spec in Hr. tauto.
Qed.

(** X12: after [removeReflection id] no reflection with that id is
    left and the others are all kept; removing twice is removing once;
    and removing a reflection just added gives the store back, provided
    its id was not in the store before. *)
Theorem removeReflection_spec (id : list N) (st : ReflectionState) :
  (forall r, In r (reflections (removeReflection id st))
             <-> In r (reflections st) /\ reflection_id r <> id)
  /\ removeReflection id (removeReflection id st) = removeReflection id st
  /\ (forall r,
        reflection_id r = id ->
        (forall r', In r' (reflections st) -> reflection_id r' <> id) ->
        removeReflection id (addReflection r st) = st).
Proof.
  split; [|split].
  - intros r. apply without_spec.
  - unfold removeReflection. simpl. rewrite without_idempotent. reflexivity.
  - intros r Hr Hfresh. destruct st as [l loading].
    unfold removeReflection, addReflection. simpl. f_equal.
    unfold without. simpl. rewrite Hr, jsstring_eqb_refl. simpl.
    apply without_absent. exact Hfresh.
Qed.

End StoreFacts.

(** A draft replaced by its final text under the same id. *)
Lemma addEntry_replaces_witness :
  let e1 := {| Store.entry_id := Register.js "e1";
               Store.entry_content := Register.js "draft";
               Store.entry_date := Register.js "2025-01-25";
               Store.word_count := Some 1%nat;
               Store.entry_created_at := Register.js "t1" |} in
  let e2 := {| Store.entry_id := Register.js "e1";
               Store.entry_content := Register.js "final text";
               Store.entry_date := Register.js "2025-01-25";
               Store.word_count := Some 2%nat;
               Store.entry_created_at := Register.js "t1" |} in
  let st := {| Store.entries := []; Store.currentEntryId := None;
               Store.currentContent := []; Store.isSaving := false;
               Store.lastSaved := None |} in
  Store.addEntry e2 (Store.addEntry e1 st) = Store.addEntry e2 st.
Proof.
  cbv zeta. apply addEntry_replaces. reflexivity.
Defined.

(** ** API client *)

Section ApiFacts.

Import Js Api.

Variable baseUrl : list N.
Variable fetch : Request -> FetchResult.
Variable to_string_other : Json -> list N.

Local Abbreviation request' := (request baseUrl fetch).
Local Abbreviation login' := (login baseUrl fetch to_string_other).

Lemma error_detail_truthy (body : option Json) :
  truthy (error_detail body) = true.
Proof.
  unfold error_detail. destruct body as [data|]; [|reflexivity].
  destruct (get_field _ data) as [|v|]; try reflexivity.
  destruct (truthy v) eqn:E; [exact E | reflexivity].
Qed.

Lemma getToken_removeToken (b : Browser) : getToken (removeToken b) = None.
Proof.
  destruct b as [w ls]. unfold getToken, removeToken.
  destruct w; simpl; [apply lookup_delete_eq | reflexivity].
Qed.

Lemma isAuthenticated_removeToken (b : Browser) :
  isAuthenticated (removeToken b) = false.
Proof. unfold isAuthenticated. rewrite getToken_removeToken. reflexivity. Qed.

Lemma ok_not_401 (r : Response) : status r = 401%nat -> ok r = false.
Proof. intros H. unfold ok. rewrite H. reflexivity. Qed.

(** X13: [request] throws its [ApiError] exactly on a response whose
    status is outside 200-299.  The error carries that status, and its
    [detail] is never falsy: it is the [detail] of the JSON body when
    that is truthy and "An error occurred" otherwise. *)
Theorem request_error (endpoint : list N) (options : Options) (b : Browser)
    (response : Response) :
  fetch (build_request baseUrl endpoint options b) = Responded response ->
  (ok response = false ->
   snd (request' endpoint options b)
   = ThrownApiError (error_detail (json response)) (status response)
   /\ truthy (error_detail (json response)) = true
   /\ (forall data v,
         json response = Some data ->
         get_field (Register.js "detail") data = Value v ->
         truthy v = true -> error_detail (json response) = v))
  /\ (ok response = true ->
      forall detail code,
        snd (request' endpoint options b) <> ThrownApiError detail code).
Proof.
  intros Hf. unfold request. rewrite Hf. split.
  - intros Hok. rewrite Hok. simpl. split; [reflexivity|].
    split; [apply error_detail_truthy|].
    intros data v Hj Hd Hv. unfold error_detail. rewrite Hj, Hd, Hv.
    reflexivity.
  - intros Hok detail code. rewrite Hok. simpl.
    destruct (status response =? 204)%nat; [discriminate|].
    destruct (json response); discriminate.
Qed.

Lemma request_browser (endpoint : list N) (options : Options) (b : Browser) :
  fst (request' endpoint options b) = b
  \/ fst (request' endpoint options b) = removeToken b.
Proof.
  unfold request.
  destruct (fetch (build_request baseUrl endpoint options b)) as [|r];
    [left; reflexivity|].
  destruct (ok r); simpl.
  - left. destruct (status r =? 204)%nat; [reflexivity|].
    destruct (json r); reflexivity.
  - destruct (status r =? 401)%nat; [right | left]; reflexivity.
Qed.

(** X14: a 401 response always removes the stored access token, so the
    client is no longer authenticated afterwards; any other response,
    and a network failure, leave the browser as it was. *)
Theorem request_token (endpoint : list N) (options : Options) (b : Browser) :
  match fetch (build_request baseUrl endpoint options b) with
  | Responded response =>
      if (status response =? 401)%nat then
        fst (request' endpoint options b) = removeToken b
        /\ getToken (fst (request' endpoint options b)) = None
        /\ isAuthenticated (fst (request' endpoint options b)) = false
      else fst (request' endpoint options b) = b
  | NetworkFailure => fst (request' endpoint options b) = b
  end.
Proof.
  unfold request.
  destruct (fetch (build_request baseUrl endpoint options b)) as [|r];
    [reflexivity|].
  destruct (status r =? 401)%nat eqn:E.
  - assert (Hok : ok r = false) by (apply ok_not_401, Nat.eqb_eq, E).
    rewrite Hok. simpl.
    split; [reflexivity|].
    split; [apply getToken_removeToken | apply isAuthenticated_removeToken].
  - destruct (ok r); simpl.
    + destruct (status r =? 204)%nat; [reflexivity|].
      destruct (json r); reflexivity.
    + reflexivity.
Qed.

(** X15: every request goes to [baseUrl + endpoint]; it carries
    [Authorization: Bearer <token>] whenever a non-empty token is
    stored, replacing any such header of the caller, and otherwise
    leaves that header to the caller; [Content-Type] is
    [application/json] unless the caller sets it. *)
Theorem build_request_headers (endpoint : list N) (options : Options)
    (b : Browser) :
  let req := build_request baseUrl endpoint options b in
  req_url req = baseUrl ++ endpoint
  /\ req_headers req !! Register.js "Authorization"
     = match getToken b with
       | Some (c :: t) => Some (Register.js "Bearer " ++ c :: t)
       | _ => opt_headers options !! Register.js "Authorization"
       end
  /\ req_headers req !! Register.js "Content-Type"
     = match opt_headers options !! Register.js "Content-Type" with
       | Some v => Some v
       | None => Some (Register.js "application/json")
       end.
Proof.
  cbv zeta. unfold build_request. simpl.
  assert (Hne : Register.js "Authorization" <> Register.js "Content-Type")
    by discriminate.
  assert (Hct : (opt_headers options
                 ∪ {[ Register.js "Content-Type" := Register.js "application/json" ]})
                !! Register.js "Content-Type"
                = match opt_headers options !! Register.js "Content-Type" with
                  | Some v => Some v
                  | None => Some (Register.js "application/json")
                  end).
  { destruct (opt_headers options !! Register.js "Content-Type") as [v|] eqn:E.
    - apply lookup_union_Some_l. exact E.
    - rewrite lookup_union_r by exact E. apply lookup_singleton_eq. }
  assert (Hau : (opt_headers options
                 ∪ {[ Register.js "Content-Type" := Register.js "application/json" ]})
                !! Register.js "Authorization"
                = opt_headers options !! Register.js "Authorization").
  { destruct (opt_headers options !! Register.js "Authorization") as [v|] eqn:E.
    - apply lookup_union_Some_l. exact E.
    - rewrite lookup_union_r by exact E. apply lookup_singleton_ne. congruence. }
  split; [reflexivity|].
  destruct (getToken b) as [[|c t]|]; split;
    try exact Hct; try exact Hau.
  - apply lookup_insert_eq.
  - rewrite lookup_insert_ne by exact Hne. exact Hct.
Qed.

Lemma getToken_setToken (token : list N) (b : Browser) :
  has_window b = true -> getToken (setToken token b) = Some token.
Proof.
  destruct b as [w ls]. simpl. intros ->. unfold getToken, setToken. simpl.
  apply lookup_insert_eq.
Qed.

(** X16: in a browser, a [login] that returns stores as token the
    string form of the body's [access_token] - "undefined" when the
    body has none, as after a 204 - and the client is authenticated
    unless that string is empty; a [login] that throws stores
    nothing. *)
Theorem login_token (email password : list N) (b : Browser) :
  has_window b = true ->
  (forall data,
     snd (login' email password b) = Returned data ->
     getToken (fst (login' email password b))
     = Some (to_string to_string_other
               (get_field (Register.js "access_token") data))
     /\ isAuthenticated (fst (login' email password b))
        = nonempty (to_string to_string_other
                      (get_field (Register.js "access_token") data)))
  /\ ((forall data, snd (login' email password b) <> Returned data) ->
      fst (login' email password b)
      = fst (request' (Register.js "/api/auth/login")
               (post (Some (credentials email password))) b))
  /\ (forall response,
        fetch (build_request baseUrl (Register.js "/api/auth/login")
                 (post (Some (credentials email password))) b)
        = Responded response ->
        status response = 204%nat ->
        getToken (fst (login' email password b))
        = Some (Register.js "undefined")
        /\ isAuthenticated (fst (login' email password b)) = true).
Proof.
  intros Hw.
  assert (Hkeep : forall o : Options,
             has_window (fst (request' (Register.js "/api/auth/login") o b))
             = true).
  { intros o.
    destruct (request_browser (Register.js "/api/auth/login") o b) as [->| ->];
      [exact Hw | unfold removeToken; rewrite Hw; reflexivity]. }
  split; [|split].
  - intros data. unfold login.
    specialize (Hkeep (post (Some (credentials email password)))).
    destruct (request' _ _ b) as [b' out]. simpl in Hkeep.
    destruct out as [d| |]; simpl; try discriminate.
    destruct (get_field (Register.js "access_token") d) as [|v|] eqn:Eg;
      simpl; try discriminate; intros [= <-]; rewrite Eg;
      (split; [apply getToken_setToken; exact Hkeep|]);
      unfold isAuthenticated; rewrite getToken_setToken by exact Hkeep;
      unfold nonempty; reflexivity.
  - intros Hthrow. unfold login in *.
    destruct (request' _ _ b) as [b' out]. simpl.
    destruct out as [d| |]; try reflexivity.
    destruct (get_field (Register.js "access_token") d) as [|v|];
      try reflexivity; exfalso; eapply Hthrow; reflexivity.
  - intros response Hf Hs. unfold login, request.
    rewrite Hf. unfold ok. rewrite Hs. simpl.
    split; [apply getToken_setToken; exact Hw|].
    unfold isAuthenticated. rewrite getToken_setToken by exact Hw. reflexivity.
Qed.

(** X17: without a [window] (on the server) no call of the client
    changes anything or authenticates: [login], [logout] and [request]
    return the browser record they were given, and [isAuthenticated] is
    false. *)
Theorem no_window_no_session (b : Browser) :
  has_window b = false ->
  isAuthenticated b = false
  /\ logout b = b
  /\ (forall endpoint options, fst (request' endpoint options b) = b)
  /\ (forall email password,
        fst (login' email password b) = b
        /\ isAuthenticated (fst (login' email password b)) = false).
Proof.
  intros Hw.
  assert (Ha : isAuthenticated b = false).
  { unfold isAuthenticated, getToken. rewrite Hw. reflexivity. }
  assert (Hr : removeToken b = b) by (unfold removeToken; rewrite Hw; reflexivity).
  assert (Hq : forall endpoint options, fst (request' endpoint options b) = b).
  { intros endpoint options.
    destruct (request_browser endpoint options b) as [H|H]; rewrite H;
      [reflexivity | exact Hr]. }
  split; [exact Ha|]. split; [exact Hr|]. split; [exact Hq|].
  intros email password.
  assert (E : fst (login' email password b) = b).
  { unfold login.
    specialize (Hq (Register.js "/api/auth/login")
                  (post (Some (credentials email password)))).
    destruct (request' _ _ b) as [b' out]. simpl in Hq. subst b'.
    destruct out as [d| |]; try reflexivity.
    destruct (get_field _ d); simpl; try reflexivity;
      unfold setToken; rewrite Hw; reflexivity. }
  rewrite E. split; [reflexivity | exact Ha].
Qed.

End ApiFacts.

(** X18: signing out from the navigation bar leaves neither the API
    client nor the auth store authenticated, whatever they held before;
    the token removal of the store finds nothing left to remove. *)
Theorem handleLogout_signs_out (b : Api.Browser) (st : Store.AuthState) :
  let '(b', st', path) := Navigation.handleLogout b st in
  Api.isAuthenticated b' = false
  /\ Api.getToken b' = None
  /\ b' = Api.logout b
  /\ Store.isAuthenticated st' = false
  /\ Store.user st' = None
  /\ path = Register.js "/auth/login".
Proof.
  unfold Navigation.handleLogout, Store.logout, Api.logout, Api.removeToken.
  destruct b as [w ls]. destruct w; simpl.
  - split; [|split; [|split]].
    + unfold Api.isAuthenticated, Api.getToken. simpl.
      rewrite lookup_delete_eq. reflexivity.
    + unfold Api.getToken. simpl. apply lookup_delete_eq.
    + f_equal. apply delete_id. apply lookup_delete_eq.
    + repeat split.
  - repeat split.
Qed.

(** A 404 with a detail of its own. *)
Lemma request_error_witness :
  snd (Api.request (Register.js "http://localhost:8000")
         (fun _ => Api.Responded
                     {| Api.status := 404;
                        Api.json :=
                          Some (Js.JObject
                                  [(Register.js "detail",
                                    Js.JString (Register.js "Not found"))]) |})
         (Register.js "/api/entries/42") Api.no_options
         {| Api.has_window := true; Api.localStorage := ∅ |})
  = Api.ThrownApiError (Js.JString (Register.js "Not found")) 404.
Proof.
  destruct (request_error (Register.js "http://localhost:8000")
              (fun _ => Api.Responded
                          {| Api.status := 404;
                             Api.json :=
                               Some (Js.JObject
                                       [(Register.js "detail",
                                         Js.JString (Register.js "Not found"))]) |})
              (Register.js "/api/entries/42") Api.no_options
              {| Api.has_window := true; Api.localStorage := ∅ |}
              _ eq_refl) as [H _].
  destruct (H eq_refl) as (E & _ & _). exact E.
Defined.

(** A login answered with a token. *)
Lemma login_token_witness :
  Api.getToken
    (fst (Api.login (Register.js "http://localhost:8000")
            (fun _ => Api.Responded
                        {| Api.status := 200;
                           Api.json :=
                             Some (Js.JObject
                                     [(Register.js "access_token",
                                       Js.JString (Register.js "tok"))]) |})
            (fun _ => [])
            (Register.js "a@b.c") (Register.js "Abcdefg1")
            {| Api.has_window := true; Api.localStorage := ∅ |}))
  = Some (Register.js "tok").
Proof.
  destruct (login_token (Register.js "http://localhost:8000")
              (fun _ => Api.Responded
                          {| Api.status := 200;
                             Api.json :=
                               Some (Js.JObject
                                       [(Register.js "access_token",
                                         Js.JString (Register.js "tok"))]) |})
              (fun _ => [])
              (Register.js "a@b.c") (Register.js "Abcdefg1")
              {| Api.has_window := true; Api.localStorage := ∅ |}
              eq_refl) as [H _].
  destruct (H _ eq_refl) as [E _]. exact E.
Defined.

(** The same login during server-side rendering. *)
Lemma no_window_no_session_witness :
  Api.isAuthenticated
    (fst (Api.login (Register.js "http://localhost:8000")
            (fun _ => Api.Responded
                        {| Api.status := 200;
                           Api.json :=
                             Some (Js.JObject
                                     [(Register.js "access_token",
                                       Js.JString (Register.js "tok"))]) |})
            (fun _ => [])
            (Register.js "a@b.c") (Register.js "Abcdefg1")
            {| Api.has_window := false; Api.localStorage := ∅ |}))
  = false.
Proof.
  destruct (no_window_no_session (Register.js "http://localhost:8000")
              (fun _ => Api.Responded
                          {| Api.status := 200;
                             Api.json :=
                               Some (Js.JObject
                                       [(Register.js "access_token",
                                         Js.JString (Register.js "tok"))]) |})
              (fun _ => [])
              {| Api.has_window := false; Api.localStorage := ∅ |}
              eq_refl) as (_ & _ & _ & H).
  destruct (H (Register.js "a@b.c") (Register.js "Abcdefg1")) as [_ E].
  exact E.
Defined.

(** ** Dismissing a reflection *)

Section DismissFacts.

Variable baseUrl : list N.

(** X19: on a response with an error status the two pages part ways:
    the Reflections page keeps the card and its state, the Journal page
    removes the card although the server refused. *)
Theorem dismiss_on_error_status (response : Api.Response) (id : list N)
    (b : Api.Browser) (rst : ReflectionsPage.State) (jst : JournalPage.State) :
  Api.ok response = false ->
  snd (ReflectionsPage.handleDismiss baseUrl
         (fun _ => Api.Responded response) id b rst) = rst
  /\ JournalPage.reflections
       (JournalPage.handleDismissReflection
          (fun _ => Api.Responded response) id jst)
     = Store.without id (JournalPage.reflections jst).
Proof.
  intros Hok. split; [|reflexivity].
  unfold ReflectionsPage.handleDismiss, Api.dismissReflection, Api.request.
  rewrite Hok. reflexivity.
Qed.

Variable fetch : Api.Request -> Api.FetchResult.

(** X20: the Reflections page changes its list only when the server
    accepted the dismissal: if the state after [handleDismiss] differs
    from the state before, the response had a 2xx status, and the new
    list is the old one without the dismissed id, page and total
    untouched. *)
Theorem handleDismiss_only_on_success (id : list N) (b : Api.Browser)
    (st : ReflectionsPage.State) :
  snd (ReflectionsPage.handleDismiss baseUrl fetch id b st) <> st ->
  (exists response,
     fetch (Api.build_request baseUrl
              (Register.js "/api/reflections/" ++ id ++ Register.js "/dismiss")
              (Api.post None) b)
     = Api.Responded response
     /\ Api.ok response = true)
  /\ ReflectionsPage.reflections
       (snd (ReflectionsPage.handleDismiss baseUrl fetch id b st))
     = Store.without id (ReflectionsPage.reflections st)
  /\ ReflectionsPage.page (snd (ReflectionsPage.handleDismiss baseUrl fetch id b st))
     = ReflectionsPage.page st
  /\ ReflectionsPage.total (snd (ReflectionsPage.handleDismiss baseUrl fetch id b st))
     = ReflectionsPage.total st.
Proof.
  unfold ReflectionsPage.handleDismiss, Api.dismissReflection, Api.request.
  destruct (fetch _) as [|r] eqn:Ef; simpl; [congruence|].
  destruct (Api.ok r) eqn:Hok; simpl; [|congruence].
  intros Hne. split; [exists r; auto|].
  destruct (Api.status r =? 204)%nat; simpl in *; [repeat split|].
  destruct (Api.json r); simpl in *; [repeat split | congruence].
Qed.

End DismissFacts.

(** ** Pagination of the Reflections page *)

Section PaginationFacts.

Import ReflectionsPage.

Lemma click_keeps_total (st : State) (c : Click) :
  total (click st c) = total st /\ reflections (click st c) = reflections st.
Proof.
  unfold click. destruct (negb _); [auto|].
  destruct c; [destruct (page st =? 1)%nat | destruct (_ <=? _)%nat]; auto.
Qed.

Lemma click_hidden (st : State) (c : Click) :
  (total st <= 10)%nat -> click st c = st.
Proof.
  intros H. unfold click.
  replace (10 <? total st)%nat with false by (symmetry; apply Nat.ltb_ge; exact H).
  reflexivity.
Qed.

Lemma click_next (st : State) :
  (page (click st Next) = S (page st)
   <-> (10 < total st)%nat /\ (page st < page_count st)%nat)
  /\ (page (click st Next) = page st \/ page (click st Next) = S (page st)).
Proof.
  unfold click. destruct (10 <? total st)%nat eqn:Et; simpl.
  - apply Nat.ltb_lt in Et.
    destruct (page_count st <=? page st)%nat eqn:E; simpl.
    + apply Nat.leb_le in E. split; [|auto]. split; lia.
    + apply Nat.leb_gt in E. split; [|right; lia]. split; [auto | lia].
  - apply Nat.ltb_ge in Et. split; [|auto]. split; lia.
Qed.

Lemma click_previous (st : State) :
  (1 <= page st)%nat ->
  (page (click st Previous) = (page st - 1)%nat
   <-> ((10 < total st)%nat /\ (1 < page st)%nat))
  /\ (page (click st Previous) = page st
      \/ page (click st Previous) = (page st - 1)%nat).
Proof.
  intros H1. unfold click. destruct (10 <? total st)%nat eqn:Et; simpl.
  - apply Nat.ltb_lt in Et.
    destruct (page st =? 1)%nat eqn:E; simpl.
    + apply Nat.eqb_eq in E. split; [|auto]. split; lia.
    + apply Nat.eqb_neq in E. split; [|right; lia]. split; [lia | lia].
  - apply Nat.ltb_ge in Et. split; [|auto]. split; lia.
Qed.

Lemma click_page_positive (st : State) (c : Click) :
  (1 <= page st)%nat -> (1 <= page (click st c))%nat.
Proof.
  intros H. unfold click. destruct (negb _); [exact H|].
  destruct c.
  - destruct (page st =? 1)%nat; [exact H|]. simpl. lia.
  - destruct (page_count st <=? page st)%nat; [exact H|]. simpl. lia.
Qed.

Lemma click_keeps_range (st : State) (c : Click) :
  (page st <= Nat.max 1 (page_count st))%nat ->
  (page (click st c) <= Nat.max 1 (page_count st))%nat.
Proof.
  intros H. unfold click. destruct (negb _); [exact H|].
  destruct c.
  - destruct (page st =? 1)%nat; [exact H|]. simpl. lia.
  - destruct (page_count st <=? page st)%nat eqn:E; [exact H|].
    apply Nat.leb_gt in E. simpl. lia.
Qed.

Lemma fetchReflections_page (a : Fetched) (st : State) :
  page (fetchReflections a st) = page st.
Proof. destruct a; reflexivity. Qed.

Lemma run_page_positive (evs : list Event) (st : State) :
  (1 <= page st)%nat -> (1 <= page (run st evs))%nat.
Proof.
  revert st. induction evs as [|e evs IH]; intros st H; simpl; [exact H|].
  apply IH. destruct e as [c|a]; simpl.
  - apply click_page_positive. exact H.
  - rewrite fetchReflections_page. exact H.
Qed.

(** While every answer carries the total [t], the state holds either
    the initial total 0 (and is on page 1) or [t], and the page is
    within the pages of [t]. *)
Lemma run_constant_total (t : nat) (evs : list Event) (st : State) :
  (forall l t', In (Answer (Resolved l t')) evs -> t' = t) ->
  (total st = t \/ total st = 0%nat /\ page st = 1%nat) ->
  (page st <= Nat.max 1 (Js.ceil_div t 10))%nat ->
  (page (run st evs) <= Nat.max 1 (Js.ceil_div t 10))%nat.
Proof.
  revert st. induction evs as [|e evs IH]; intros st Hans Ht Hp; simpl; [exact Hp|].
  apply IH.
  - intros l t' Hin. apply (Hans l t'). right. exact Hin.
  - destruct e as [c|[l t'|]]; simpl.
    + destruct Ht as [Ht|[Ht H1]].
      * left. destruct (click_keeps_total st c) as [-> _]. exact Ht.
      * right. rewrite click_hidden by lia. auto.
    + left. apply (Hans l t'). left. reflexivity.
    + exact Ht.
  - destruct e as [c|a]; simpl.
    + destruct Ht as [Ht|[Ht H1]].
      * pose proof (click_keeps_range st c) as H.
        unfold page_count in H. rewrite Ht in H. apply H. exact Hp.
      * rewrite click_hidden by lia. exact Hp.
    + rewrite fetchReflections_page. exact Hp.
Qed.

(** X21: the page number starts at 1 and never goes below 1, whatever
    is pressed and whatever the server answers.  A press moves by at
    most one page, leaves the list and the total alone, and does
    nothing while the total held is 10 or less (the bar is not
    rendered); [Next] moves exactly when the page is below the page
    count [ceil(total / 10)] of the total held, and the effect asks for
    a page exactly when a press changed it.  An answer replaces the
    total and keeps the page, so the page stays within the page count
    as long as every answer carries the same total, and not otherwise:
    on page 3 of 25 reflections an answer with total 8 leaves the page
    at 3, with the buttons gone. *)
Theorem pagination_follows_total (evs : list Event) :
  (1 <= page (run initial evs))%nat
  /\ (forall t : nat,
        (forall l t', In (Answer (Resolved l t')) evs -> t' = t) ->
        (page (run initial evs) <= Nat.max 1 (Js.ceil_div t 10))%nat)
  /\ (forall (st : State) (c : Click),
        total (click st c) = total st
        /\ reflections (click st c) = reflections st
        /\ ((total st <= 10)%nat -> click st c = st)
        /\ (refetches st c = None <-> page (click st c) = page st)
        /\ (forall p, refetches st c = Some p ->
                       p = page (click st c) /\ p <> page st))
  /\ (forall st : State,
        (page (click st Next) = S (page st)
         <-> (10 < total st)%nat /\ (page st < Js.ceil_div (total st) 10)%nat)
        /\ (page (click st Next) = page st \/ page (click st Next) = S (page st)))
  /\ (forall st : State,
        (1 <= page st)%nat ->
        (page (click st Previous) = (page st - 1)%nat
         <-> (10 < total st)%nat /\ (1 < page st)%nat)
        /\ (page (click st Previous) = page st
            \/ page (click st Previous) = (page st - 1)%nat))
  /\ (forall (st : State) (l : list Store.Reflection) (t : nat),
        page (fetchReflections (Resolved l t) st) = page st
        /\ total (fetchReflections (Resolved l t) st) = t
        /\ reflections (fetchReflections (Resolved l t) st) = l
        /\ isLoading (fetchReflections (Resolved l t) st) = false)
  /\ (let st := run initial
                  [Answer (Resolved [] 25); Press Next; Answer (Resolved [] 25);
                   Press Next; Answer (Resolved [] 8)] in
      page st = 3%nat /\ total st = 8%nat /\ Js.ceil_div (total st) 10 = 1%nat
      /\ forall c, click st c = st).
Proof.
  split; [|split; [|split; [|split; [|split; [|split]]]]].
  - apply run_page_positive. simpl. lia.
  - intros t Hans. apply run_constant_total; [exact Hans | right | simpl; lia].
    simpl. auto.
  - intros st c. destruct (click_keeps_total st c) as [Ht Hl].
    split; [exact Ht|]. split; [exact Hl|]. split; [apply click_hidden|].
    unfold refetches. destruct (page (click st c) =? page st)%nat eqn:E.
    + apply Nat.eqb_eq in E. split; [tauto|]. discriminate.
    + apply Nat.eqb_neq in E. split; [split; [discriminate | tauto]|].
      intros p [= <-]. auto.
  - exact click_next.
  - exact click_previous.
  - intros st l t. simpl. auto.
  - cbv zeta. split; [reflexivity|]. split; [reflexivity|]. split; [reflexivity|].
    intros c. apply click_hidden. simpl. lia.
Qed.

End PaginationFacts.

(** ** Word count and autosave of the Journal page *)

Section JournalFacts.

Import Js JournalPage.

Lemma trim_start_nil (s : list N) :
  trim_start s = [] <-> forallb is_space s = true.
Proof.
  induction s as [|c s IH]; simpl; [tauto|].
  destruct (is_space c); simpl; [exact IH|]. split; discriminate.
Qed.

Lemma trim_start_head (s : list N) (c : N) (t : list N) :
  trim_start s = c :: t -> is_space c = false.
Proof.
  induction s as [|d s IH]; simpl; [discriminate|].
  destruct (is_space d) eqn:E; [exact IH|]. intros [= <- _]. exact E.
Qed.

Lemma trim_start_split (s : list N) :
  exists sp, s = sp ++ trim_start s /\ forallb is_space sp = true.
Proof.
  induction s as [|c s (sp & Hs & Hsp)]; simpl.
  - exists []. auto.
  - destruct (is_space c) eqn:E.
    + exists (c :: sp). simpl. rewrite E, Hsp. split; [f_equal; exact Hs | reflexivity].
    + exists []. auto.
Qed.

Lemma trim_end_split (s : list N) :
  exists sp, s = trim_end s ++ sp /\ forallb is_space sp = true.
Proof.
  destruct (trim_start_split (rev s)) as (sp & Hs & Hsp).
  exists (rev sp). split.
  - unfold trim_end. rewrite <- rev_app_distr, <- Hs, rev_involutive. reflexivity.
  - apply forallb_forall. intros x Hx. apply in_rev in Hx.
    rewrite forallb_forall in Hsp. apply Hsp. exact Hx.
Qed.

Lemma forallb_is_space_app (a b : list N) :
  forallb is_space (a ++ b) = forallb is_space a && forallb is_space b.
Proof. apply forallb_app. Qed.

Lemma trim_nil (s : list N) : trim s = [] <-> forallb is_space s = true.
Proof.
  unfold trim. split.
  - intros H.
    destruct (trim_end_split (trim_start s)) as (sp & Hs & Hsp).
    rewrite H in Hs. simpl in Hs.
    destruct (trim_start s) as [|c t] eqn:E.
    + apply trim_start_nil. exact E.
    + apply trim_start_head in E. subst sp. simpl in Hsp.
      rewrite E in Hsp. discriminate.
  - intros H. apply trim_start_nil in H. rewrite H. reflexivity.
Qed.

Lemma words_of_pieces (s cur : list N) (in_run : bool) :
  (in_run = true -> cur = []) ->
  (filter nonempty (split_spaces_from s cur in_run) = []
   <-> cur = [] /\ forallb is_space s = true)
  /\ List.concat (split_spaces_from s cur in_run) = cur ++ filter nonspace s
  /\ (forallb nonspace cur = true ->
      forall w, In w (split_spaces_from s cur in_run) ->
                forallb nonspace w = true).
Proof.
  revert cur in_run. induction s as [|c s IH]; intros cur in_run Hinv; simpl.
  - split; [|split].
    + destruct cur; simpl; split; try tauto; try discriminate.
      intros [H _]. discriminate.
    + rewrite !app_nil_r. reflexivity.
    + intros Hc w [<-|[]]. exact Hc.
  - unfold nonspace at 1. destruct (is_space c) eqn:E; simpl.
    + destruct (IH [] true (fun _ => eq_refl)) as (I1 & I2 & I3).
      destruct in_run.
      * rewrite (Hinv eq_refl). split; [|split].
        -- rewrite I1. tauto.
        -- exact I2.
        -- intros _. apply I3. reflexivity.
      * split; [|split].
        -- simpl. destruct cur; simpl.
           ++ rewrite I1. tauto.
           ++ split; [discriminate|]. intros [H _]. discriminate.
        -- simpl. rewrite I2. reflexivity.
        -- intros Hc w [<-|Hw]; [exact Hc | apply I3; [reflexivity | exact Hw]].
    + destruct (IH (cur ++ [c]) false ltac:(discriminate)) as (I1 & I2 & I3).
      split; [|split].
      * rewrite I1. split.
        -- intros [H _]. destruct cur; discriminate.
        -- intros [_ H]. discriminate.
      * rewrite I2, <- app_assoc. reflexivity.
      * intros Hc. apply I3. rewrite forallb_app, Hc. simpl.
        unfold nonspace. rewrite E. reflexivity.
Qed.

Lemma pieces_skip_leading (s : list N) (in_run : bool) :
  filter nonempty (split_spaces_from s [] in_run)
  = filter nonempty (split_spaces_from (trim_start s) [] false).
Proof.
  revert in_run. induction s as [|c s IH]; intros in_run; simpl; [reflexivity|].
  destruct (is_space c) eqn:E.
  - destruct in_run; simpl; apply IH.
  - simpl. rewrite E. reflexivity.
Qed.

Lemma pieces_skip_trailing (s sp cur : list N) (in_run : bool) :
  forallb is_space sp = true ->
  (in_run = true -> cur = []) ->
  filter nonempty (split_spaces_from (s ++ sp) cur in_run)
  = filter nonempty (split_spaces_from s cur in_run).
Proof.
  intros Hsp. revert cur in_run.
  induction s as [|c s IH]; intros cur in_run Hinv.
  - simpl app.
    assert (Hnil : forall l, forallb is_space l = true ->
                     filter nonempty (split_spaces_from l [] true) = []).
    { intros l Hl. apply (words_of_pieces l [] true (fun _ => eq_refl)). auto. }
    destruct sp as [|c sp]; [reflexivity|].
    simpl in Hsp. apply andb_true_iff in Hsp. destruct Hsp as [Hc Hsp].
    simpl. rewrite Hc. destruct in_run.
    + rewrite (Hinv eq_refl). rewrite (Hnil sp Hsp). reflexivity.
    + simpl. rewrite (Hnil sp Hsp). reflexivity.
  - simpl. destruct (is_space c).
    + destruct in_run.
      * apply IH. reflexivity.
      * simpl. rewrite IH by reflexivity. reflexivity.
    + apply IH. discriminate.
Qed.

Lemma words_without_trim (s : list N) :
  words s = filter nonempty (split_spaces s).
Proof.
  unfold words, split_spaces, trim.
  destruct (trim_end_split (trim_start s)) as (sp & Hs & Hsp).
  rewrite (pieces_skip_leading s false).
  rewrite Hs at 2.
  rewrite pieces_skip_trailing; [reflexivity | exact Hsp | discriminate].
Qed.

Lemma concat_filter_nonempty (l : list (list N)) :
  List.concat (filter nonempty l) = List.concat l.
Proof.
  induction l as [|w l IH]; simpl; [reflexivity|].
  destruct w; simpl; [exact IH | rewrite IH; reflexivity].
Qed.

Variable fetch : Api.Request -> Api.FetchResult.

(** X22: the word count is 0 exactly for a blank text (nothing but
    white space), and that is exactly when [autosave] returns without
    sending anything or touching the state; any other text sends one
    request. *)
Theorem autosave_skips_blank (st : State) :
  (wordCount (content st) = 0%nat <-> forallb is_space (content st) = true)
  /\ (is_blank (content st) = true <-> wordCount (content st) = 0%nat)
  /\ (wordCount (content st) = 0%nat -> autosave fetch st = (st, []))
  /\ (wordCount (content st) <> 0%nat ->
      exists req, snd (autosave fetch st) = [req]).
Proof.
  assert (Hw : wordCount (content st) = 0%nat
               <-> forallb is_space (content st) = true).
  { unfold wordCount. rewrite words_without_trim, length_zero_iff_nil.
    unfold split_spaces.
    rewrite (proj1 (words_of_pieces (content st) [] false ltac:(discriminate))).
    tauto. }
  assert (Hb : is_blank (content st) = true <-> wordCount (content st) = 0%nat).
  { rewrite Hw, <- trim_nil. unfold is_blank.
    destruct (trim (content st)); simpl; split; congruence. }
  split; [exact Hw|]. split; [exact Hb|]. split.
  - intros H. apply Hb in H. unfold autosave. rewrite H. reflexivity.
  - intros H. unfold autosave.
    destruct (is_blank (content st)) eqn:E; [exfalso; apply H, Hb; reflexivity|].
    destruct (fetch _) as [|r]; [eexists; reflexivity|].
    destruct (Api.ok r); [|eexists; reflexivity].
    destruct (Api.json r) as [data|]; [|eexists; reflexivity].
    destruct (get_field _ data); eexists; reflexivity.
Qed.

Lemma pieces_after_spaces (sp s : list N) (in_run : bool) :
  forallb is_space sp = true ->
  filter nonempty (split_spaces_from (sp ++ s) [] in_run)
  = filter nonempty (split_spaces_from s [] true).
Proof.
  intros Hsp. revert in_run. induction sp as [|c sp IH]; intros in_run.
  - simpl app. rewrite (pieces_skip_leading s in_run), (pieces_skip_leading s true).
    reflexivity.
  - simpl in Hsp. apply andb_true_iff in Hsp. destruct Hsp as [Hc Hsp].
    simpl. rewrite Hc. destruct in_run; simpl; apply IH; exact Hsp.
Qed.

Lemma pieces_read_run (w s cur : list N) (in_run : bool) :
  forallb nonspace w = true -> w <> [] ->
  split_spaces_from (w ++ s) cur in_run = split_spaces_from s (cur ++ w) false.
Proof.
  revert cur in_run. induction w as [|c w IH]; intros cur in_run Hw Hne.
  - contradiction.
  - simpl in Hw. apply andb_true_iff in Hw. destruct Hw as [Hc Hw].
    unfold nonspace in Hc. apply negb_true_iff in Hc.
    simpl. rewrite Hc. destruct w as [|d w].
    + reflexivity.
    + rewrite IH by (first [exact Hw | discriminate]).
      rewrite <- app_assoc. reflexivity.
Qed.

Lemma maximal_runs_nil (ws : list (list N)) : maximal_runs [] ws -> ws = [].
Proof.
  intros H. remember [] as s eqn:Es.
  destruct H as [sp Hsp | sp w rest ws Hsp Hne Hw Hr Hrest].
  - reflexivity.
  - exfalso. destruct sp; [|discriminate Es]. destruct w; [|discriminate Es].
    apply Hne. reflexivity.
Qed.

Lemma maximal_runs_pieces (s : list N) (ws : list (list N)) :
  maximal_runs s ws -> filter nonempty (split_spaces s) = ws.
Proof.
  unfold split_spaces. induction 1 as [sp Hsp | sp w rest ws Hsp Hne Hw Hr Hrest IH].
  - apply (words_of_pieces sp [] false ltac:(discriminate)). auto.
  - rewrite (pieces_after_spaces sp (w ++ rest) false Hsp).
    rewrite (pieces_read_run w rest [] true Hw Hne). simpl app.
    destruct rest as [|c t].
    + apply maximal_runs_nil in Hrest. subst ws. simpl.
      destruct w; [contradiction | reflexivity].
    + simpl. rewrite (Hr c t eq_refl). simpl.
      replace (nonempty w) with true by (destruct w; [contradiction | reflexivity]).
      f_equal. rewrite <- IH. simpl. rewrite (Hr c t eq_refl). reflexivity.
Qed.

Lemma run_prefix (s : list N) :
  exists w rest, s = w ++ rest /\ forallb nonspace w = true
                 /\ (forall c t, rest = c :: t -> is_space c = true).
Proof.
  induction s as [|c s (w & rest & Hs & Hw & Hr)].
  - exists [], []. split; [reflexivity|]. split; [reflexivity|]. discriminate.
  - destruct (is_space c) eqn:E.
    + exists [], (c :: s). split; [reflexivity|]. split; [reflexivity|].
      intros c' t [= <- _]. exact E.
    + exists (c :: w), rest. split; [simpl; f_equal; exact Hs|].
      split; [|exact Hr]. simpl. unfold nonspace at 1. rewrite E. exact Hw.
Qed.

Lemma maximal_runs_exist (s : list N) : exists ws, maximal_runs s ws.
Proof.
  assert (H : forall (n : nat) (s : list N),
             (List.length s <= n)%nat -> exists ws, maximal_runs s ws).
  { clear s. induction n as [|n IH]; intros s Hn.
    - destruct s; [|simpl in Hn; lia]. exists []. apply runs_none. reflexivity.
    - destruct (trim_start_split s) as (sp & Hs & Hsp).
      destruct (trim_start s) as [|c t] eqn:Et.
      + exists []. apply runs_none. apply trim_start_nil. exact Et.
      + pose proof (trim_start_head s c t Et) as Hc.
        destruct (run_prefix t) as (w & rest & Ht & Hw & Hr).
        destruct (IH rest) as (ws & Hws).
        { apply (f_equal (@List.length N)) in Hs.
          rewrite Hs, Ht, length_app in Hn. simpl in Hn.
          rewrite length_app in Hn. lia. }
        exists ((c :: w) :: ws). rewrite Hs, Ht.
        change (c :: w ++ rest) with ((c :: w) ++ rest).
        apply runs_next; [exact Hsp | discriminate | | exact Hr | exact Hws].
        simpl. unfold nonspace at 1. rewrite Hc. exact Hw. }
  exact (H (List.length s) s (le_n _)).
Qed.

(** X23: the counted words are exactly the maximal runs of code units
    that are not white space, in order, and nothing else is such a
    list of runs; so every word is non-empty and free of white space,
    joined together the words give the text with its white space
    removed, and trimming the text first makes no difference. *)
Theorem words_are_runs (text : list N) :
  maximal_runs text (words text)
  /\ (forall ws, maximal_runs text ws -> ws = words text)
  /\ (forall w, In w (words text) -> w <> [] /\ forallb nonspace w = true)
  /\ List.concat (words text) = filter nonspace text
  /\ words text = filter nonempty (split_spaces text).
Proof.
  pose proof (words_of_pieces text [] false ltac:(discriminate))
    as (_ & Hcat & Hfree).
  assert (Huniq : forall ws, maximal_runs text ws -> ws = words text).
  { intros ws Hws. rewrite words_without_trim. symmetry.
    apply maximal_runs_pieces. exact Hws. }
  split; [|split; [exact Huniq|split; [|split]]].
  - destruct (maximal_runs_exist text) as (ws & Hws).
    rewrite <- (Huniq ws Hws). exact Hws.
  - intros w Hw. rewrite words_without_trim in Hw.
    apply filter_In in Hw. destruct Hw as [Hw Hne].
    split; [intros ->; discriminate|].
    apply Hfree; [reflexivity | exact Hw].
  - rewrite words_without_trim, concat_filter_nonempty. exact Hcat.
  - apply words_without_trim.
Qed.

(** X24: for a text that is not blank, [autosave] ends with the status
    [saved] exactly when it counted an entry; a response with an error
    status leaves the indicator at [saving], a network failure puts it
    back to [idle]; and whenever the status is not [saved] the entry id
    and the counter are as before. *)
Theorem autosave_outcome (st : State) :
  is_blank (content st) = false ->
  let st' := fst (autosave fetch st) in
  (saveStatus st' = saved <-> entryCount st' = S (entryCount st))
  /\ (saveStatus st' <> saved ->
      entryCount st' = entryCount st /\ entryId st' = entryId st)
  /\ (forall response,
        fetch (autosave_request st) = Api.Responded response ->
        Api.ok response = false -> saveStatus st' = saving)
  /\ (fetch (autosave_request st) = Api.NetworkFailure -> saveStatus st' = idle)
  /\ content st' = content st.
Proof.
  intros Hb. cbv zeta. unfold autosave. rewrite Hb.
  change (autosave_request (set_saveStatus saving st))
    with (autosave_request st).
  destruct (fetch (autosave_request st)) as [|r]; simpl.
  - split; [split; [discriminate | lia]|].
    split; [auto|]. split; [discriminate|]. auto.
  - destruct (Api.ok r) eqn:Hok.
    + destruct (Api.json r) as [data|]; simpl.
      * destruct (get_field _ data); simpl;
          (split; [split; first [discriminate | lia | reflexivity]|]);
          (split; [first [congruence | auto]|]);
          (split; [intros ? [= <-]; congruence|]);
          (split; [discriminate | reflexivity]).
      * split; [split; [discriminate | lia]|].
        split; [auto|]. split; [intros ? [= <-]; congruence|].
        split; [discriminate | reflexivity].
    + simpl. split; [split; [discriminate | lia]|].
      split; [auto|]. split; [auto|]. split; [discriminate | reflexivity].
Qed.

End JournalFacts.

(** A 500 answer to an autosave. *)
Lemma autosave_outcome_witness :
  JournalPage.saveStatus
    (fst (JournalPage.autosave
            (fun _ => Api.Responded {| Api.status := 500; Api.json := None |})
            {| JournalPage.content := Register.js "dear diary";
               JournalPage.entryId := Js.Present Js.JNull;
               JournalPage.saveStatus := JournalPage.idle;
               JournalPage.reflections := [];
               JournalPage.entryCount := 0;
               JournalPage.isFirstVisit := true |}))
  = JournalPage.saving.
Proof.
  destruct (autosave_outcome
              (fun _ => Api.Responded {| Api.status := 500; Api.json := None |})
              {| JournalPage.content := Register.js "dear diary";
                 JournalPage.entryId := Js.Present Js.JNull;
                 JournalPage.saveStatus := JournalPage.idle;
                 JournalPage.reflections := [];
                 JournalPage.entryCount := 0;
                 JournalPage.isFirstVisit := true |}
              eq_refl) as (_ & _ & H & _).
  apply (H {| Api.status := 500; Api.json := None |}); reflexivity.
Defined.

Section AutosaveCount.

Import Js JournalPage.

Lemma autosave_counts (st : State) (result : Api.FetchResult) :
  is_blank (content st) = false ->
  entryCount (fst (autosave (fun _ => result) st))
  = (entryCount st + if save_succeeds result then 1 else 0)%nat
  /\ content (fst (autosave (fun _ => result) st)) = content st.
Proof.
  intros Hb. unfold autosave, save_succeeds. rewrite Hb.
  destruct result as [|r]; simpl; [split; [lia | reflexivity]|].
  destruct (Api.ok r); simpl; [|split; [lia | reflexivity]].
  destruct (Api.json r) as [data|]; simpl; [|split; [lia | reflexivity]].
  destruct data; simpl; try (split; [lia | reflexivity]).
  destruct (assoc _ fields); simpl; split; first [lia | reflexivity].
Qed.

(** X25: the counter that unlocks reflections counts successful
    autosaves, not entries: after a series of autosaves of a non-blank
    text it has grown by the number of responses that were [ok] with a
    JSON body other than [null], whatever entry ids they carried; the
    page asks for reflections once the counter reaches 3, and never
    while it shows the "building" hint. *)
Theorem autosaves_count (results : list Api.FetchResult) (st : State) :
  is_blank (content st) = false ->
  entryCount (autosaves results st)
  = (entryCount st + List.length (filter save_succeeds results))%nat
  /\ requests_reflections (autosaves results st)
     = (3 <=? entryCount st + List.length (filter save_succeeds results))%nat
  /\ (shows_building_hint (autosaves results st) = true ->
      requests_reflections (autosaves results st) = false).
Proof.
  intros Hb.
  assert (Hc : entryCount (autosaves results st)
               = (entryCount st + List.length (filter save_succeeds results))%nat).
  { unfold autosaves. revert st Hb.
    induction results as [|r results IH]; intros st Hb; simpl; [lia|].
    destruct (autosave_counts st r Hb) as [Hn Hct].
    rewrite IH by (rewrite Hct; exact Hb). rewrite Hn.
    destruct (save_succeeds r); simpl; lia. }
  split; [exact Hc|]. split.
  - unfold requests_reflections. rewrite Hc.
    destruct (3 <=? _)%nat eqn:E.
    + apply Nat.leb_le in E. apply negb_true_iff, Nat.ltb_ge. exact E.
    + apply Nat.leb_gt in E. apply negb_false_iff, Nat.ltb_lt. exact E.
  - unfold shows_building_hint, requests_reflections.
    intros H. apply andb_true_iff in H. destruct H as [H _].
    apply andb_true_iff in H. destruct H as [_ H]. rewrite H. reflexivity.
Qed.

End AutosaveCount.

(** Three autosaves of one and the same entry unlock reflections. *)
Lemma autosaves_count_witness :
  let saved_e1 :=
    Api.Responded
      {| Api.status := 200;
         Api.json := Some (Js.JObject [(Register.js "entry_id",
                                        Js.JString (Register.js "e1"))]) |} in
  let st := {| JournalPage.content := Register.js "dear diary";
               JournalPage.entryId := Js.Present Js.JNull;
               JournalPage.saveStatus := JournalPage.idle;
               JournalPage.reflections := [];
               JournalPage.entryCount := 0;
               JournalPage.isFirstVisit := true |} in
  JournalPage.entryCount
    (JournalPage.autosaves [saved_e1; saved_e1; saved_e1] st) = 3%nat
  /\ JournalPage.requests_reflections
       (JournalPage.autosaves [saved_e1; saved_e1; saved_e1] st) = true.
Proof.
  cbv zeta.
  destruct (autosaves_count
              [Api.Responded
                 {| Api.status := 200;
                    Api.json := Some (Js.JObject [(Register.js "entry_id",
                                                   Js.JString (Register.js "e1"))]) |};
               Api.Responded
                 {| Api.status := 200;
                    Api.json := Some (Js.JObject [(Register.js "entry_id",
                                                   Js.JString (Register.js "e1"))]) |};
               Api.Responded
                 {| Api.status := 200;
                    Api.json := Some (Js.JObject [(Register.js "entry_id",
                                                   Js.JString (Register.js "e1"))]) |}]
              {| JournalPage.content := Register.js "dear diary";
                 JournalPage.entryId := Js.Present Js.JNull;
                 JournalPage.saveStatus := JournalPage.idle;
                 JournalPage.reflections := [];
                 JournalPage.entryCount := 0;
                 JournalPage.isFirstVisit := true |}
              eq_refl) as (H1 & H2 & _).
  split; [exact H1 | exact H2].
Defined.

(** ** Patterns page *)

Section PatternsFacts.

Import PatternsPage.

Lemma streak_from_prefix (l : list DayData) (acc : nat) :
  exists taken rest,
    l = taken ++ rest
    /\ forallb hasEntry taken = true
    /\ (rest = [] \/ exists d r, rest = d :: r /\ hasEntry d = false)
    /\ streak_from l acc = (acc + List.length taken)%nat.
Proof.
  revert acc. induction l as [|d l IH]; intros acc; simpl.
  - exists [], []. simpl. repeat split; auto.
  - destruct (hasEntry d) eqn:E.
    + destruct (IH (acc + 1)%nat) as (taken & rest & Hl & Ht & Hr & Hs).
      exists (d :: taken), rest. simpl. rewrite E, Ht, Hs, Hl.
      repeat split; auto. lia.
    + exists [], (d :: l). simpl. repeat split; eauto.
Qed.

(** X26: the streak is the length of the longest run of days with an
    entry at the end of the list: the days split into an earlier part
    and that run, every day of the run has an entry, and the earlier
    part is empty or ends with a day without entry.  So the streak is
    at most the number of days, and 0 when today has no entry. *)
Theorem calculateStreak_spec (days : list DayData) :
  exists earlier run,
    days = earlier ++ run
    /\ calculateStreak days = List.length run
    /\ forallb hasEntry run = true
    /\ (earlier = [] \/ exists e d, earlier = e ++ [d] /\ hasEntry d = false)
    /\ (calculateStreak days <= List.length days)%nat.
Proof.
  unfold calculateStreak.
  destruct (streak_from_prefix (rev days) 0) as (taken & rest & Hl & Ht & Hr & Hs).
  exists (rev rest), (rev taken).
  assert (Hd : days = rev rest ++ rev taken).
  { rewrite <- rev_app_distr, <- Hl, rev_involutive. reflexivity. }
  split; [exact Hd|]. rewrite Hs, length_rev. split; [reflexivity|].
  split; [|split].
  - apply forallb_forall. intros x Hx. apply in_rev in Hx.
    rewrite forallb_forall in Ht. apply Ht. exact Hx.
  - destruct Hr as [->|(d & r & -> & Hd')]; [left; reflexivity|].
    right. exists (rev r), d. simpl. auto.
  - rewrite Hd, length_app, !length_rev. lia.
Qed.

Lemma totalWords_from (entries : list Store.Entry) (lo hi acc : nat) :
  (forall e, In e entries ->
             (lo <= or_zero (Store.word_count e) <= hi)%nat) ->
  (acc + lo * List.length entries
   <= fold_left (fun sum e => (sum + or_zero (Store.word_count e))%nat) entries acc
   <= acc + hi * List.length entries)%nat.
Proof.
  revert acc. induction entries as [|e l IH]; intros acc H; simpl; [lia|].
  specialize (IH (acc + or_zero (Store.word_count e))%nat
                (fun x Hx => H x (or_intror Hx))).
  pose proof (H e (or_introl eq_refl)). lia.
Qed.

(** X27: the average shown is 0 for no entries (nothing is divided by
    zero) and otherwise lies between the smallest and the largest word
    count of the entries. *)
Theorem avgWords_between (entries : list Store.Entry) (lo hi : nat) :
  entries <> [] ->
  (forall e, In e entries ->
             (lo <= or_zero (Store.word_count e) <= hi)%nat) ->
  avgWords [] = 0%Z
  /\ (Z.of_nat lo <= avgWords entries <= Z.of_nat hi)%Z.
Proof.
  intros Hne H. split; [reflexivity|].
  unfold avgWords, totalEntries, totalWords.
  pose proof (totalWords_from entries lo hi 0 H) as Ht.
  set (T := fold_left _ entries 0%nat) in *.
  destruct entries as [|e l]; [congruence|].
  set (n := List.length (e :: l)) in *.
  assert (Hn : (0 < n)%nat) by (unfold n; simpl; lia).
  assert (E : (0 <? n)%nat = true) by (apply Nat.ltb_lt; exact Hn).
  rewrite E. unfold Js.math_round.
  assert (Hden : Z.pos (Pos.of_nat n) = Z.of_nat n).
  { destruct n as [|k]; [lia|].
    rewrite <- Pos.of_nat_succ, Zpos_P_of_succ_nat. lia. }
  assert (Hlo : inject_Z (Z.of_nat lo) <= Z.of_nat T # Pos.of_nat n).
  { unfold Qle, inject_Z. simpl Qnum. simpl Qden. rewrite Hden. nia. }
  assert (Hhi : Z.of_nat T # Pos.of_nat n <= inject_Z (Z.of_nat hi)).
  { unfold Qle, inject_Z. simpl Qnum. simpl Qden. rewrite Hden. nia. }
  revert Hlo Hhi. generalize (Z.of_nat T # Pos.of_nat n). intros x Hlo Hhi.
  split.
  - rewrite <- (Qfloor_Z (Z.of_nat lo)). apply Qfloor_resp_le. lra.
  - pose proof (Qfloor_le (x + (1 # 2))) as Hf.
    assert (Hlt : inject_Z (Qfloor (x + (1 # 2))) < inject_Z (Z.of_nat hi + 1)).
    { rewrite inject_Z_plus. change (inject_Z 1) with 1. lra. }
    rewrite <- Zlt_Qlt in Hlt. lia.
Qed.

Lemma maxWordCount_bounds (days : list DayData) :
  (1 <= maxWordCount days)%nat
  /\ forall day, In day days -> (wordCount day <= maxWordCount days)%nat.
Proof.
  unfold maxWordCount. induction days as [|d l [IH1 IH2]]; simpl.
  - split; [lia | intros day []].
  - split; [lia|]. intros day [<-|Hd]; [lia|].
    specialize (IH2 day Hd). lia.
Qed.

Lemma ratio_unit (a m : nat) :
  (a <= m)%nat -> (1 <= m)%nat ->
  0 <= Z.of_nat a # Pos.of_nat m /\ Z.of_nat a # Pos.of_nat m <= 1.
Proof.
  intros Ha Hm.
  assert (Hden : Z.pos (Pos.of_nat m) = Z.of_nat m).
  { destruct m as [|k]; [lia|].
    rewrite <- Pos.of_nat_succ, Zpos_P_of_succ_nat. lia. }
  unfold Qle. simpl Qnum. simpl Qden. rewrite Hden. lia.
Qed.

(** X28: the charts never divide by zero and never overflow: the scale
    [maxWordCount] is at least 1 and at least every day's word count,
    so every bar is between 0 and 100 percent of the chart height and
    every heat-map opacity between 0.4 and 1. *)
Theorem chart_scaling (days : list DayData) (day : DayData) :
  In day days ->
  (1 <= maxWordCount days)%nat
  /\ (wordCount day <= maxWordCount days)%nat
  /\ (forall h, bar_height days day = Some h -> 0 < h /\ h <= 100)
  /\ 4 # 10 <= heat_opacity days day
  /\ heat_opacity days day <= 1.
Proof.
  intros Hin. destruct (maxWordCount_bounds days) as [H1 H2].
  specialize (H2 day Hin).
  destruct (ratio_unit _ _ H2 H1) as [R0 R1].
  split; [exact H1|]. split; [exact H2|]. split; [|split].
  - unfold bar_height. destruct (0 <? wordCount day)%nat eqn:E; [|discriminate].
    intros h [= <-]. apply Nat.ltb_lt in E.
    assert (Rpos : 0 < Z.of_nat (wordCount day) # Pos.of_nat (maxWordCount days)).
    { unfold Qlt. simpl. lia. }
    revert R1 Rpos.
    generalize (Z.of_nat (wordCount day) # Pos.of_nat (maxWordCount days)).
    intros x R1 Rpos. split; lra.
  - unfold heat_opacity. destruct (hasEntry day); [|discriminate].
    revert R0.
    generalize (Z.of_nat (wordCount day) # Pos.of_nat (maxWordCount days)).
    intros x R0. lra.
  - unfold heat_opacity. destruct (hasEntry day); [|discriminate].
    revert R1.
    generalize (Z.of_nat (wordCount day) # Pos.of_nat (maxWordCount days)).
    intros x R1. lra.
Qed.

End PatternsFacts.

(** ** Constraints of the schema *)

Section SchemaFacts.

(** X29: the [min_entries] CHECK of the [reflections] table accepts an
    array of entry ids exactly when it has at least 3 elements or none
    at all: for the empty array [array_length] is NULL and a CHECK lets
    NULL pass. *)
Theorem min_entries_check_spec (entry_ids : list N) :
  Schema.min_entries_check entry_ids = true
  <-> entry_ids = [] \/ (3 <= List.length entry_ids)%nat.
Proof.
  unfold Schema.min_entries_check, Schema.array_length.
  destruct entry_ids as [|x l].
  - split; [left; reflexivity | reflexivity].
  - rewrite Nat.leb_le. split; [right; assumption|].
    intros [H|H]; [discriminate | exact H].
Qed.

Import Database.




End SchemaFacts.

(** ** Further instances *)

(** A 500 answer to a dismissal. *)
Lemma dismiss_on_error_status_witness :
  let r := {| Store.reflection_id := Register.js "r1"; Store.content := [];
              Store.entries_analyzed := 3; Store.date_range := [];
              Store.concepts := []; Store.confidence := Register.js "moderate";
              Store.confidence_score := 65 # 100; Store.disclaimer := [];
              Store.created_at := [] |} in
  let rst := {| ReflectionsPage.reflections := [r];
                ReflectionsPage.isLoading := false;
                ReflectionsPage.page := 1; ReflectionsPage.total := 1 |} in
  let jst := {| JournalPage.content := []; JournalPage.entryId := Js.Absent;
                JournalPage.saveStatus := JournalPage.idle;
                JournalPage.reflections := [r];
                JournalPage.entryCount := 3;
                JournalPage.isFirstVisit := false |} in
  let server := fun _ : Api.Request =>
                  Api.Responded {| Api.status := 500; Api.json := None |} in
  ReflectionsPage.reflections
    (snd (ReflectionsPage.handleDismiss [] server (Register.js "r1")
            {| Api.has_window := true; Api.localStorage := ∅ |} rst)) = [r]
  /\ JournalPage.reflections
       (JournalPage.handleDismissReflection server (Register.js "r1") jst) = [].
Proof.
  cbv zeta.
  destruct (dismiss_on_error_status []
              {| Api.status := 500; Api.json := None |} (Register.js "r1")
              {| Api.has_window := true; Api.localStorage := ∅ |}
              {| ReflectionsPage.reflections :=
                   [{| Store.reflection_id := Register.js "r1"; Store.content := [];
                       Store.entries_analyzed := 3; Store.date_range := [];
                       Store.concepts := [];
                       Store.confidence := Register.js "moderate";
                       Store.confidence_score := 65 # 100; Store.disclaimer := [];
                       Store.created_at := [] |}];
                 ReflectionsPage.isLoading := false;
                 ReflectionsPage.page := 1; ReflectionsPage.total := 1 |}
              {| JournalPage.content := []; JournalPage.entryId := Js.Absent;
                 JournalPage.saveStatus := JournalPage.idle;
                 JournalPage.reflections :=
                   [{| Store.reflection_id := Register.js "r1"; Store.content := [];
                       Store.entries_analyzed := 3; Store.date_range := [];
                       Store.concepts := [];
                       Store.confidence := Register.js "moderate";
                       Store.confidence_score := 65 # 100; Store.disclaimer := [];
                       Store.created_at := [] |}];
                 JournalPage.entryCount := 3;
                 JournalPage.isFirstVisit := false |}
              eq_refl) as [H1 H2].
  split; [rewrite H1; reflexivity | rewrite H2; reflexivity].
Defined.

(** A 204 answer to a dismissal. *)
Lemma handleDismiss_only_on_success_witness :
  let r := {| Store.reflection_id := Register.js "r1"; Store.content := [];
              Store.entries_analyzed := 3; Store.date_range := [];
              Store.concepts := []; Store.confidence := Register.js "moderate";
              Store.confidence_score := 65 # 100; Store.disclaimer := [];
              Store.created_at := [] |} in
  let st := {| ReflectionsPage.reflections := [r];
               ReflectionsPage.isLoading := false;
               ReflectionsPage.page := 1; ReflectionsPage.total := 1 |} in
  ReflectionsPage.reflections
    (snd (ReflectionsPage.handleDismiss []
            (fun _ => Api.Responded {| Api.status := 204; Api.json := None |})
            (Register.js "r1")
            {| Api.has_window := true; Api.localStorage := ∅ |} st))
  = Store.without (Register.js "r1") [r].
Proof.
  cbv zeta.
  destruct (handleDismiss_only_on_success []
              (fun _ => Api.Responded {| Api.status := 204; Api.json := None |})
              (Register.js "r1")
              {| Api.has_window := true; Api.localStorage := ∅ |}
              {| ReflectionsPage.reflections :=
                   [{| Store.reflection_id := Register.js "r1"; Store.content := [];
                       Store.entries_analyzed := 3; Store.date_range := [];
                       Store.concepts := [];
                       Store.confidence := Register.js "moderate";
                       Store.confidence_score := 65 # 100; Store.disclaimer := [];
                       Store.created_at := [] |}];
                 ReflectionsPage.isLoading := false;
                 ReflectionsPage.page := 1; ReflectionsPage.total := 1 |})
    as (_ & H & _).
  - vm_compute. discriminate.
  - exact H.
Defined.

(** Three entries of 10, 20 and 31 words. *)
Lemma avgWords_between_witness :
  let entry := fun w => {| Store.entry_id := []; Store.entry_content := [];
                            Store.entry_date := []; Store.word_count := w;
                            Store.entry_created_at := [] |} in
  (10 <= PatternsPage.avgWords
           [entry (Some 10%nat); entry (Some 20%nat); entry (Some 31%nat)]
   <= 31)%Z.
Proof.
  cbv zeta.
  destruct (avgWords_between
              [{| Store.entry_id := []; Store.entry_content := [];
                  Store.entry_date := []; Store.word_count := Some 10%nat;
                  Store.entry_created_at := [] |};
               {| Store.entry_id := []; Store.entry_content := [];
                  Store.entry_date := []; Store.word_count := Some 20%nat;
                  Store.entry_created_at := [] |};
               {| Store.entry_id := []; Store.entry_content := [];
                  Store.entry_date := []; Store.word_count := Some 31%nat;
                  Store.entry_created_at := [] |}] 10 31) as [_ H].
  - discriminate.
  - intros e [<-|[<-|[<-|[]]]]; simpl; lia.
  - exact H.
Defined.

(** A day of 120 words beside an empty day. *)
Lemma chart_scaling_witness :
  let busy := {| PatternsPage.date := 2; PatternsPage.hasEntry := true;
                 PatternsPage.wordCount := 120 |} in
  let empty := {| PatternsPage.date := 1; PatternsPage.hasEntry := false;
                  PatternsPage.wordCount := 0 |} in
  (PatternsPage.wordCount busy <= PatternsPage.maxWordCount [empty; busy])%nat
  /\ PatternsPage.heat_opacity [empty; busy] busy <= 1.
Proof.
  cbv zeta.
  destruct (chart_scaling
              [{| PatternsPage.date := 1; PatternsPage.hasEntry := false;
                  PatternsPage.wordCount := 0 |};
               {| PatternsPage.date := 2; PatternsPage.hasEntry := true;
                  PatternsPage.wordCount := 120 |}]
              {| PatternsPage.date := 2; PatternsPage.hasEntry := true;
                 PatternsPage.wordCount := 120 |})
    as (_ & H1 & _ & _ & H2).
  - simpl. right. left. reflexivity.
  - split; [exact H1 | exact H2].
Defined.

